(** * serve-index: directory listing middleware (index.js)

    A shallow embedding of [index.js] and of the parts of its host platform
    the handler talks to, followed by the properties of the handler.

    - [JS]     : the ECMAScript values and builtins the source uses
                 (strings as sequences of UTF-16 code units, truthiness,
                 [indexOf], [substr], [split], [join], [sort],
                 [JSON.stringify], [decodeURIComponent]).
    - [Posix]  : Node's [path] module, POSIX flavour.
    - [Batch]  : the [batch] package ([Batch#end] with bounded concurrency),
                 as a transition system driven by a completion schedule.
    - [Host]   : what the handler is given by [path], [fs] and [accepts].
    - the middleware itself: [serveIndex], [serveIndex_html],
      [serveIndex_json], [serveIndex_plain], [send], [stat].
    - the renderer: [createHtmlFileList], [htmlPath], [normalizeSlashes],
      [iconStyle] and the body of [createHtmlRender], with the builtins
      they use ([encodeURIComponent], [split] and [replace] on strings),
      the [escape-html] package, and the decoding of a JSON body. *)

From Stdlib Require Import Ascii String.
From Stdlib Require Import List NArith ZArith Bool Arith Lia.
From Stdlib Require Import Sorted Permutation.
Import ListNotations.

Set Implicit Arguments.

(* ================================================================== *)
(** ** ECMAScript strings and the builtins used by index.js *)
(* ================================================================== *)

Module JS.

(** A JavaScript string is a finite sequence of 16-bit code units. *)
Definition jsstring := list N.

(** Literals: each character of an ASCII literal is one code unit. *)
Definition js (s : String.string) : jsstring :=
  map Ascii.N_of_ascii (String.list_ascii_of_string s).
Arguments js s%_string.

(** The values [serveIndex] may receive as [root] or as an option.
    Numbers are restricted to the integers. *)
Inductive value :=
| Undefined
| Null
| Bool (b : bool)
| Num (z : Z)
| Str (s : jsstring).

(** ToBoolean. *)
Definition truthy (v : value) : bool :=
  match v with
  | Undefined | Null => false
  | Bool b => b
  | Num z => negb (z =? 0)%Z
  | Str [] => false
  | Str (_ :: _) => true
  end.

(** [a === b] on strings. *)
Fixpoint str_eqb (a b : jsstring) : bool :=
  match a, b with
  | [], [] => true
  | x :: a', y :: b' => (x =? y)%N && str_eqb a' b'
  | _, _ => false
  end.

(** [s.startsWith(p)], used to define [indexOf]. *)
Fixpoint prefixb (p s : jsstring) : bool :=
  match p, s with
  | [], _ => true
  | x :: p', y :: s' => (x =? y)%N && prefixb p' s'
  | _ :: _, [] => false
  end.

(** [s.indexOf(pat)]: the first position where [pat] occurs, [-1] if none. *)
Fixpoint indexOf_from (i : Z) (s pat : jsstring) : Z :=
  match s with
  | [] => if prefixb pat [] then i else (-1)%Z
  | _ :: t => if prefixb pat s then i else indexOf_from (i + 1)%Z t pat
  end.

Definition indexOf (s pat : jsstring) : Z := indexOf_from 0%Z s pat.

(** [s.substr(start, len)] for non-negative arguments. *)
Definition substr (s : jsstring) (start len : nat) : jsstring :=
  firstn len (skipn start s).

(** [s.split(c)] for a one-unit separator; never returns the empty array. *)
Fixpoint split (c : N) (s : jsstring) : list jsstring :=
  match s with
  | [] => [[]]
  | x :: t =>
      if (x =? c)%N then [] :: split c t
      else match split c t with
           | h :: r => (x :: h) :: r
           | [] => [[x]]
           end
  end.

(** [a.join(sep)]. *)
Fixpoint join (sep : jsstring) (a : list jsstring) : jsstring :=
  match a with
  | [] => []
  | [x] => x
  | x :: r => x ++ sep ++ join sep r
  end.

(** The order of the default comparator of [Array.prototype.sort] on
    strings: lexicographic on code units. *)
Fixpoint str_leb (a b : jsstring) : bool :=
  match a, b with
  | [], _ => true
  | _ :: _, [] => false
  | x :: a', y :: b' =>
      if (x <? y)%N then true
      else if (y <? x)%N then false
      else str_leb a' b'
  end.

Definition str_le (a b : jsstring) : Prop := str_leb a b = true.

(** [a.sort()] with the default comparator.  The order is total and
    antisymmetric on strings, so the result does not depend on the
    algorithm of the engine (see [sort_unique]); insertion is used here. *)
Fixpoint insert (x : jsstring) (l : list jsstring) : list jsstring :=
  match l with
  | [] => [x]
  | y :: r => if str_leb x y then x :: l else y :: insert x r
  end.

Fixpoint sort (l : list jsstring) : list jsstring :=
  match l with
  | [] => []
  | x :: r => insert x (sort r)
  end.

(** *** JSON.stringify on an array of strings (QuoteJSONString, ES2019) *)

Definition hexdigit (d : N) : N :=
  if (d <? 10)%N then (48 + d)%N else (87 + d)%N.

(** [\uXXXX] with lowercase hexadecimal digits. *)
Definition unicodeEscape (c : N) : jsstring :=
  [92; 117]%N ++ [hexdigit ((c / 4096) mod 16); hexdigit ((c / 256) mod 16);
               hexdigit ((c / 16) mod 16); hexdigit (c mod 16)]%N.

Definition isLead (c : N) : bool := ((55296 <=? c) && (c <=? 56319))%N.
Definition isTrail (c : N) : bool := ((56320 <=? c) && (c <=? 57343))%N.

Definition quoteUnit (c : N) : jsstring :=
  if (c =? 8)%N then [92; 98]%N            (* backslash, b *)
  else if (c =? 9)%N then [92; 116]%N      (* backslash, t *)
  else if (c =? 10)%N then [92; 110]%N     (* backslash, n *)
  else if (c =? 12)%N then [92; 102]%N     (* backslash, f *)
  else if (c =? 13)%N then [92; 114]%N     (* backslash, r *)
  else if (c =? 34)%N then [92; 34]%N
  else if (c =? 92)%N then [92; 92]%N
  else if (c <? 32)%N || isLead c || isTrail c then unicodeEscape c
  else [c].

Fixpoint quoteBody (s : jsstring) : jsstring :=
  match s with
  | [] => []
  | c :: t =>
      if isLead c then
        match t with
        | d :: t' =>
            if isTrail d then c :: d :: quoteBody t'
            else quoteUnit c ++ quoteBody t
        | [] => quoteUnit c
        end
      else quoteUnit c ++ quoteBody t
  end.

Definition quoteJSONString (s : jsstring) : jsstring :=
  [34%N] ++ quoteBody s ++ [34%N].

Definition JSON_stringify (a : list jsstring) : jsstring :=
  js "[" ++ join (js ",") (map quoteJSONString a) ++ js "]".

(** *** decodeURIComponent

    [None] stands for the [URIError] the builtin throws.  The string is
    first cut into literal units and [%XX] octets, then the octets are
    read as UTF-8 and re-encoded as UTF-16. *)

Definition hexval (c : N) : option N :=
  if ((48 <=? c) && (c <=? 57))%N then Some (c - 48)%N
  else if ((65 <=? c) && (c <=? 70))%N then Some (c - 55)%N
  else if ((97 <=? c) && (c <=? 102))%N then Some (c - 87)%N
  else None.

Inductive token :=
| Lit (c : N)
| Oct (b : N).

Fixpoint tokens (s : jsstring) : option (list token) :=
  match s with
  | [] => Some []
  | c :: t =>
      if (c =? 37)%N then
        match t with
        | h :: l :: t2 =>
            match hexval h, hexval l with
            | Some a, Some b => option_map (cons (Oct (16 * a + b)%N)) (tokens t2)
            | _, _ => None
            end
        | _ => None
        end
      else option_map (cons (Lit c)) (tokens t)
  end.

Definition utf16 (v : N) : jsstring :=
  if (v <? 65536)%N then [v]
  else [55296 + (v - 65536) / 1024; 56320 + (v - 65536) mod 1024]%N.

(** A decoded scalar is accepted when it is not an overlong form, not a
    surrogate and not beyond U+10FFFF. *)
Definition validScalar (v lo : N) : bool :=
  ((lo <=? v) && negb ((55296 <=? v) && (v <=? 57343)) && (v <=? 1114111))%N.

(** [need] continuation octets are still expected for the scalar whose
    high bits are [acc]; [lo] is the least scalar of that length. *)
Fixpoint utf8 (need : nat) (acc lo : N) (ts : list token) : option jsstring :=
  match ts with
  | [] => match need with O => Some [] | S _ => None end
  | Lit c :: r =>
      match need with
      | O => option_map (cons c) (utf8 0 0 0 r)
      | S _ => None
      end
  | Oct b :: r =>
      match need with
      | O =>
          if (b <? 128)%N then option_map (cons b) (utf8 0 0 0 r)
          else if ((192 <=? b) && (b <=? 223))%N then utf8 1 (N.land b 31) 128 r
          else if ((224 <=? b) && (b <=? 239))%N then utf8 2 (N.land b 15) 2048 r
          else if ((240 <=? b) && (b <=? 247))%N then utf8 3 (N.land b 7) 65536 r
          else None
      | S n =>
          if (N.land b 192 =? 128)%N then
            let acc' := (acc * 64 + N.land b 63)%N in
            match n with
            | O => if validScalar acc' lo
                   then option_map (app (utf16 acc')) (utf8 0 0 0 r)
                   else None
            | S _ => utf8 n acc' lo r
            end
          else None
      end
  end.

Definition decodeURIComponent (s : jsstring) : option jsstring :=
  match tokens s with
  | Some ts => utf8 0 0 0 ts
  | None => None
  end.

(** [Buffer.byteLength(s, 'utf8')]; a lone surrogate is written as U+FFFD. *)
Fixpoint byteLength (s : jsstring) : N :=
  match s with
  | [] => 0
  | c :: t =>
      if (c <? 128)%N then 1 + byteLength t
      else if (c <? 2048)%N then 2 + byteLength t
      else if isLead c then
        match t with
        | d :: t' => if isTrail d then 4 + byteLength t' else 3 + byteLength t
        | [] => 3
        end
      else 3 + byteLength t
  end%N.

End JS.

Import JS.

(* ================================================================== *)
(** ** The [path] module *)
(* ================================================================== *)

(** What index.js takes from [require('path')]: [sep], [normalize],
    [join] and [resolve] (the latter reads the working directory of the
    process). *)
Class PathModule := {
  sep : jsstring;
  normalize : jsstring -> jsstring;
  join : list jsstring -> jsstring;
  resolve : jsstring -> jsstring
}.

(** Node's POSIX implementation ([path.posix]). *)
Module Posix.

Definition slash : N := 47.

Definition isAbsolute (p : jsstring) : bool :=
  match p with
  | c :: _ => (c =? slash)%N
  | [] => false
  end.

Definition trailingSlash (p : jsstring) : bool :=
  match rev p with
  | c :: _ => (c =? slash)%N
  | [] => false
  end.

(** [normalizeArray]: resolves [.] and [..] segments; [res] is the stack
    of kept segments, innermost first. *)
Fixpoint normalizeArray_from (res parts : list jsstring) (allowAboveRoot : bool)
  : list jsstring :=
  match parts with
  | [] => rev res
  | p :: ps =>
      if str_eqb p [] || str_eqb p (js ".") then
        normalizeArray_from res ps allowAboveRoot
      else if str_eqb p (js "..") then
        match res with
        | top :: below =>
            if negb (str_eqb top (js "..")) then
              normalizeArray_from below ps allowAboveRoot
            else if allowAboveRoot then
              normalizeArray_from (p :: res) ps allowAboveRoot
            else normalizeArray_from res ps allowAboveRoot
        | [] =>
            if allowAboveRoot then
              normalizeArray_from [p] ps allowAboveRoot
            else normalizeArray_from [] ps allowAboveRoot
        end
      else normalizeArray_from (p :: res) ps allowAboveRoot
  end.

Definition normalizeArray (parts : list jsstring) (allowAboveRoot : bool) :=
  normalizeArray_from [] parts allowAboveRoot.

Definition normalize (p : jsstring) : jsstring :=
  let abs := isAbsolute p in
  let body := JS.join (js "/") (normalizeArray (split slash p) (negb abs)) in
  let body := match body with
              | [] => if abs then [] else js "."
              | _ :: _ => body
              end in
  let body := match body with
              | [] => body
              | _ :: _ => if trailingSlash p then body ++ js "/" else body
              end in
  (if abs then js "/" else []) ++ body.

Fixpoint join_segments (acc : jsstring) (args : list jsstring) : jsstring :=
  match args with
  | [] => acc
  | [] :: r => join_segments acc r
  | (_ :: _) as a :: r =>
      match acc with
      | [] => join_segments a r
      | _ :: _ => join_segments (acc ++ js "/" ++ a) r
      end
  end.

Definition join (args : list jsstring) : jsstring :=
  normalize (join_segments [] args).

(** [resolve(p)] with one argument; [cwd] is [process.cwd()]. *)
Definition resolve (cwd p : jsstring) : jsstring :=
  let resolved0 := match p with [] => [] | _ :: _ => p ++ js "/" end in
  let resolved :=
    if isAbsolute p then resolved0
    else match cwd with
         | [] => resolved0
         | _ :: _ => cwd ++ js "/" ++ resolved0
         end in
  let abs := isAbsolute resolved in
  let body := JS.join (js "/") (normalizeArray (split slash resolved) (negb abs)) in
  match (if abs then js "/" else []) ++ body with
  | [] => js "."
  | r => r
  end.

Definition module (cwd : jsstring) : PathModule :=
  Build_PathModule (js "/") normalize join (resolve cwd).

End Posix.

(* ================================================================== *)
(** ** The [batch] package: [Batch#end] *)
(* ================================================================== *)

(** [results[i] = v] on a JavaScript array: a slot beyond the end extends
    the array, the slots in between staying empty ([None]). *)
Fixpoint array_set {A : Type} (i : nat) (v : A) (a : list (option A))
  : list (option A) :=
  match i, a with
  | O, [] => [Some v]
  | O, _ :: t => Some v :: t
  | S i', [] => None :: array_set i' v []
  | S i', x :: t => x :: array_set i' v t
  end.

(** [a[i]]: [None] is [undefined] (empty slot or out of range). *)
Definition array_get {A : Type} (a : list (option A)) (i : nat) : option A :=
  match nth_error a i with
  | Some (Some v) => Some v
  | _ => None
  end.

Module Batch.

Section Batch.

Variables Ev E R : Type.

(** Modelled from the spec: the [batch] package, which index.js requires
    ([new Batch], [concurrency], [push], [end]) and whose source is not
    part of index.js.  The stats are fetched with bounded concurrency (at
    most [n] at a time), each result is written at the index of its
    function whatever the order of completion, the first error ends the
    batch with that error, and otherwise the callback of [end] receives
    the array once every function has completed.

    A pushed function is asynchronous: when started it issues an effect
    [Ev]; later its callback is invoked with an error or a result. *)
Definition fn : Type := (Ev * (E + R))%type.

Variable fns : list fn.

(** [batch.concurrency(n)]. *)
Variable n : nat.

Record state := mkState {
  index : nat;                          (* next function to start *)
  pending : nat;                        (* functions not yet completed *)
  results : list (option R);
  done : bool;
  running : list nat;                   (* started, callback not yet invoked *)
  issued : list Ev;                     (* effects issued so far *)
  calls : list (E + list (option R))    (* invocations of the [end] callback *)
}.

(** [next()]: start the function at [index], if there is one. *)
Definition next (st : state) : state :=
  let i := index st in
  match nth_error fns i with
  | None =>
      mkState (S i) (pending st) (results st) (done st)
              (running st) (issued st) (calls st)
  | Some (ev, _) =>
      mkState (S i) (pending st) (results st) (done st)
              (running st ++ [i]) (issued st ++ [ev]) (calls st)
  end.

(** [callback(err, res)] of function [i]; errors are thrown early
    ([throws(true)] is the default of the package). *)
Definition callback (i : nat) (arg : E + R) (st : state) : state :=
  if done st then st
  else
    match arg with
    | inl err =>
        mkState (index st) (pending st) (results st) true
                (running st) (issued st) (calls st ++ [inl err])
    | inr res =>
        let results' := array_set i res (results st) in
        let pending' := Nat.pred (pending st) in
        if pending' =? 0 then
          mkState (index st) pending' results' (done st)
                  (running st) (issued st) (calls st ++ [inr results'])
        else
          next (mkState (index st) pending' results' (done st)
                        (running st) (issued st) (calls st))
    end.

(** One asynchronous completion: the [k]-th running function (counted
    cyclically) calls back. *)
Definition complete (k : nat) (st : state) : state :=
  match running st with
  | [] => st
  | r0 :: _ =>
      let i := nth (k mod length (running st)) (running st) r0 in
      let st' := mkState (index st) (pending st) (results st) (done st)
                         (filter (fun j => negb (j =? i)) (running st))
                         (issued st) (calls st) in
      match nth_error fns i with
      | Some (_, arg) => callback i arg st'
      | None => st'
      end
  end.

(** The synchronous part of [end(cb)]. *)
Definition start : state :=
  let total := length fns in
  let st0 := mkState 0 total [] false [] [] [] in
  match fns with
  | [] => mkState 0 total [] false [] [] [inr []]
  | _ :: _ => Nat.iter (Nat.min n total) next st0
  end.

(** The event loop: completions happen in the order given by the
    schedule (a missing entry counts as 0) until nothing is running. *)
Fixpoint run (fuel : nat) (sched : list nat) (st : state) : state :=
  match fuel with
  | O => st
  | S fuel' =>
      match running st with
      | [] => st
      | _ :: _ => run fuel' (tl sched) (complete (hd 0 sched) st)
      end
  end.

(** Modelled from the spec: [batch.end(cb)], as the state reached when
    every completion has been delivered; [calls] holds the invocations of
    [cb], [issued] the effects of the functions started. *)
Definition end_ (sched : list nat) : state :=
  run (length fns) sched start.

(** *** Vocabulary for the invariant of the event loop *)

(** The functions started so far are those below [started]. *)
Definition started (st : state) : nat :=
  Nat.min (index st) (length fns).

(** The slot the function leaves in [results] when it succeeds. *)
Definition slot (f : fn) : option R :=
  match snd f with
  | inr r => Some r
  | inl _ => None
  end.

Record Inv (st : state) : Prop := mkInv {
  inv_nodup : NoDup (running st);
  inv_running : forall i, In i (running st) -> i < started st;
  inv_length : length (results st) <= length fns;
  inv_issued : issued st = map fst (firstn (started st) fns);
  inv_failed : done st = true ->
    exists i ev e, nth_error fns i = Some (ev, inl e) /\ calls st = [inl e];
  inv_results : done st = false ->
    forall i, i < started st -> ~ In i (running st) ->
    exists ev r, nth_error fns i = Some (ev, inr r) /\
                 array_get (results st) i = Some r;
  inv_pending : done st = false ->
    pending st + started st = length fns + length (running st);
  inv_silent : done st = false -> 0 < pending st -> calls st = [];
  inv_answer : done st = false -> pending st = 0 ->
    calls st = [inr (results st)];
  inv_full : done st = false ->
    index st < length fns -> length (running st) = n
}.

(** Work left: functions not started plus functions running. *)
Definition work (st : state) : nat :=
  (length fns - started st) + length (running st).

(** The state once function [i] has left the running set. *)
Definition drop (i : nat) (st : state) : state :=
  mkState (index st) (pending st) (results st) (done st)
          (filter (fun j => negb (j =? i)) (running st))
          (issued st) (calls st).

End Batch.

End Batch.

(** Projections of an explicit state. *)
Ltac fields :=
  cbn [Batch.index Batch.pending Batch.results Batch.done Batch.running
       Batch.issued Batch.calls] in *.

(* ================================================================== *)
(** ** More builtins and the [escape-html] package *)
(* ================================================================== *)

Module Builtins.

(** *** encodeURIComponent

    [None] stands for the [URIError] thrown on an unpaired surrogate.
    Every unit outside the unreserved set is written as the [%XX] octets
    of its code point in UTF-8, with uppercase digits. *)

Definition unreserved (c : N) : bool :=
  (((48 <=? c) && (c <=? 57)) || ((65 <=? c) && (c <=? 90))
   || ((97 <=? c) && (c <=? 122)))%N
  || existsb (N.eqb c) [45; 95; 46; 33; 126; 42; 39; 40; 41]%N.

Definition hexUpper (d : N) : N :=
  if (d <? 10)%N then (48 + d)%N else (55 + d)%N.

Definition percent (b : N) : jsstring :=
  [37; hexUpper (b / 16); hexUpper (b mod 16)]%N.

Definition utf8Octets (v : N) : list N :=
  if (v <? 128)%N then [v]
  else if (v <? 2048)%N then [192 + v / 64; 128 + v mod 64]%N
  else if (v <? 65536)%N then
    [224 + v / 4096; 128 + (v / 64) mod 64; 128 + v mod 64]%N
  else
    [240 + v / 262144; 128 + (v / 4096) mod 64; 128 + (v / 64) mod 64;
     128 + v mod 64]%N.

Definition escapeCodePoint (v : N) : jsstring :=
  concat (map percent (utf8Octets v)).

Fixpoint encodeURIComponent (s : jsstring) : option jsstring :=
  match s with
  | [] => Some []
  | c :: t =>
      if unreserved c then option_map (cons c) (encodeURIComponent t)
      else if isTrail c then None
      else if isLead c then
        match t with
        | d :: t' =>
            if isTrail d then
              option_map
                (app (escapeCodePoint
                        (65536 + (c - 55296) * 1024 + (d - 56320))%N))
                (encodeURIComponent t')
            else None
        | [] => None
        end
      else option_map (app (escapeCodePoint c)) (encodeURIComponent t)
  end.

(** *** String.prototype.split with a string separator

    [skip] units of a separator just matched are still to be passed over;
    [cur] is the piece being read, last unit first. *)
Fixpoint splitOn_from (pat : jsstring) (skip : nat) (cur s : jsstring)
  : list jsstring :=
  match s with
  | [] => [rev cur]
  | c :: t =>
      match skip with
      | S k => splitOn_from pat k cur t
      | O =>
          if prefixb pat s then
            rev cur :: splitOn_from pat (length pat - 1) [] t
          else splitOn_from pat 0 (c :: cur) t
      end
  end.

Definition splitOn (pat s : jsstring) : list jsstring :=
  match pat with
  | [] => map (fun c => [c]) s
  | _ :: _ => splitOn_from pat 0 [] s
  end.

(** *** String.prototype.replace with a global literal pattern

    GetSubstitution for a match without captures: [$$] is a dollar, [$&]
    the matched text, [$`] what precedes the match and [$'] what follows
    it; any other unit stands for itself. *)
Fixpoint substitution (matched before after rep : jsstring) : jsstring :=
  match rep with
  | [] => []
  | c :: r =>
      if (c =? 36)%N then
        match r with
        | d :: r' =>
            if (d =? 36)%N then 36%N :: substitution matched before after r'
            else if (d =? 38)%N then
              matched ++ substitution matched before after r'
            else if (d =? 96)%N then
              before ++ substitution matched before after r'
            else if (d =? 39)%N then
              after ++ substitution matched before after r'
            else c :: substitution matched before after r
        | [] => [c]
        end
      else c :: substitution matched before after r
  end.

(** [s.replace(/pat/g, rep)] for a pattern without metacharacters;
    [before] is what has been read, last unit first. *)
Fixpoint replaceAll_from (pat rep : jsstring) (skip : nat)
  (before s : jsstring) : jsstring :=
  match s with
  | [] => []
  | c :: t =>
      match skip with
      | S k => replaceAll_from pat rep k (c :: before) t
      | O =>
          if prefixb pat s then
            substitution pat (rev before) (skipn (length pat) s) rep
            ++ replaceAll_from pat rep (length pat - 1) (c :: before) t
          else c :: replaceAll_from pat rep 0 (c :: before) t
      end
  end.

Definition replaceAll (pat rep s : jsstring) : jsstring :=
  replaceAll_from pat rep 0 [] s.

(** [a.join(sep)] on an array with holes: a hole contributes nothing. *)
Definition joinHoles (sep : jsstring) (a : list (option jsstring)) : jsstring :=
  JS.join sep (map (fun x => match x with Some s => s | None => [] end) a).

(** The number of occurrences of a unit in a string. *)
Fixpoint countUnit (c : N) (s : jsstring) : nat :=
  match s with
  | [] => 0
  | x :: t => (if (x =? c)%N then 1 else 0) + countUnit c t
  end.

(** *** Decoding a JSON body

    index.js never parses JSON; the decoder states what a client reads
    back from the body of a JSON response. *)

(** The character a one-letter escape stands for. *)
Definition unescape (e : N) : option N :=
  if (e =? 98)%N then Some 8%N
  else if (e =? 116)%N then Some 9%N
  else if (e =? 110)%N then Some 10%N
  else if (e =? 102)%N then Some 12%N
  else if (e =? 114)%N then Some 13%N
  else if (e =? 34)%N then Some 34%N
  else if (e =? 92)%N then Some 92%N
  else if (e =? 47)%N then Some 47%N
  else None.

Definition unit_after {A : Type} (c : N) (o : option (jsstring * A))
  : option (jsstring * A) :=
  match o with
  | Some (d, r) => Some (c :: d, r)
  | None => None
  end.

(** The characters of a JSON string up to its closing quote, and what
    follows the quote; a control character must be escaped. *)
Fixpoint unquote (s : jsstring) : option (jsstring * jsstring) :=
  match s with
  | [] => None
  | c :: t =>
      if (c =? 34)%N then Some ([], t)
      else if (c =? 92)%N then
        match t with
        | [] => None
        | e :: t' =>
            if (e =? 117)%N then
              match t' with
              | h1 :: h2 :: h3 :: h4 :: t'' =>
                  match hexval h1, hexval h2, hexval h3, hexval h4 with
                  | Some a, Some b, Some c', Some d =>
                      unit_after (4096 * a + 256 * b + 16 * c' + d)%N
                                 (unquote t'')
                  | _, _, _, _ => None
                  end
              | _ => None
              end
            else
              match unescape e with
              | Some x => unit_after x (unquote t')
              | None => None
              end
        end
      else if (c <? 32)%N then None
      else unit_after c (unquote t)
  end.

(** The elements of an array of strings, from the opening quote of an
    element to the closing bracket. *)
Fixpoint elements (fuel : nat) (s : jsstring) : option (list jsstring) :=
  match fuel with
  | O => None
  | S fuel' =>
      match s with
      | q :: t =>
          if (q =? 34)%N then
            match unquote t with
            | Some (d, sepr :: r) =>
                if (sepr =? 44)%N then option_map (cons d) (elements fuel' r)
                else if (sepr =? 93)%N then
                  match r with [] => Some [d] | _ :: _ => None end
                else None
            | _ => None
            end
          else None
      | [] => None
      end
  end.

(** Modelled from the spec: decoding the JSON body.  This is
    [JSON.parse] on an array of strings written without white space:
    where it gives a list, [JSON.parse] gives that list; anything else is
    [None]. *)
Definition JSON_parse (s : jsstring) : option (list jsstring) :=
  match s with
  | b :: t =>
      if (b =? 91)%N then
        if str_eqb t (js "]") then Some [] else elements (length t) t
      else None
  | [] => None
  end.

End Builtins.

Import Builtins.

(** Modelled from the spec: the [escape-html] package, which index.js
    requires and whose source is not part of index.js.  All dynamic text
    is escaped for HTML safety: the double quote, the ampersand, the
    apostrophe and the angle brackets are written as entities. *)
Fixpoint escapeHtml (s : jsstring) : jsstring :=
  match s with
  | [] => []
  | c :: t =>
      (if (c =? 34)%N then js "&quot;"
       else if (c =? 38)%N then js "&amp;"
       else if (c =? 39)%N then js "&#39;"
       else if (c =? 60)%N then js "&lt;"
       else if (c =? 62)%N then js "&gt;"
       else [c]) ++ escapeHtml t
  end.

(** What the renderer further takes from its platform: [path.extname],
    the locale formats of a date, and the conversion of a number (a file
    size) to a string. *)
Class Formats := {
  extname : jsstring -> jsstring;
  toLocaleDateString : Z -> jsstring;
  toLocaleTimeString : Z -> jsstring;
  numberToString : N -> jsstring
}.

(** [xs.map(f)] where [f] may throw. *)
Fixpoint mapThrow {A B : Type} (f : A -> option B) (xs : list A)
  : option (list B) :=
  match xs with
  | [] => Some []
  | x :: r =>
      match f x with
      | None => None
      | Some y => option_map (cons y) (mapThrow f r)
      end
  end.

(** A double-quoted attribute value or class name. *)
Definition quoted (s : jsstring) : jsstring := [34%N] ++ s ++ [34%N].

(* ================================================================== *)
(** ** The host: errors, file system, content negotiation *)
(* ================================================================== *)

(** Error objects as the handler sees them: [err.code] (set by [fs]) and
    [err.status] (set by [http-errors] or by the handler). *)
Record Error := mkError {
  message : jsstring;
  code : option jsstring;
  status : option N
}.

(** The messages [http-errors] gives to the statuses index.js creates. *)
Definition statusMessage (st : N) : jsstring :=
  if (st =? 400)%N then js "Bad Request"
  else if (st =? 403)%N then js "Forbidden"
  else if (st =? 406)%N then js "Not Acceptable"
  else js "Error".

(** [createError(status)] of [http-errors]. *)
Definition createError (st : N) : Error :=
  mkError (statusMessage st) None (Some st).

(** Exceptions thrown, by [serveIndex], by the handler or inside one of
    its callbacks; nothing in index.js catches them. *)
Inductive exn :=
| TypeError (msg : jsstring)
| URIError.

(** [fs.Stats], as far as index.js reads it. *)
Record Stats := mkStats {
  isDirectory : bool;
  size : N;
  mtime : Z
}.

(** An element of [fileList]; [entry_stat] is [stats[i]]: [None] is
    [undefined], [Some None] is [null]. *)
Record FileEntry := mkEntry {
  entry_name : jsstring;
  entry_stat : option (option Stats)
}.

Record Locals := mkLocals {
  directory : jsstring;
  displayIcons : bool;
  fileList : list FileEntry;
  locals_path : jsstring;
  style : jsstring;
  viewName : jsstring
}.

(** What the handler is given by the modules it requires.  Each [fs]
    function answers with an error or a value; [accepts_type] is
    [accepts(req).type(types)] as a function of the [Accept] header, [None]
    standing for [false]; [host_formats] are the formats the renderer
    takes from its platform. *)
Class Host := {
  host_path :: PathModule;
  dirname : jsstring;
  fs_stat : jsstring -> Error + Stats;
  fs_readdir : jsstring -> Error + list jsstring;
  fs_readFile : jsstring -> Error + jsstring;
  accepts_type : option jsstring -> list jsstring -> option jsstring;
  host_formats : Formats
}.

(** Effects observable from outside the handler, in order of issue. *)
Inductive event :=
| Stat (p : jsstring)
| Readdir (p : jsstring)
| ReadFile (p : jsstring)
| Render (l : Locals).

Inductive hvalue :=
| HStr (s : jsstring)
| HNum (k : N).

Record Response := mkResponse {
  statusCode : N;
  headers : list (jsstring * hvalue);
  body : jsstring
}.

(** How a request ends: an exception leaves the handler or one of its
    callbacks, the response is ended, [next] is called (with or without
    an error), or nothing ever happens. *)
Inductive outcome :=
| Thrown (e : exn)
| Ended (r : Response)
| NextCalled (e : option Error)
| Pending.

Record Request := mkRequest {
  method : jsstring;
  pathname : jsstring;            (* parseUrl(req).pathname *)
  originalPathname : jsstring;    (* parseUrl.original(req).pathname *)
  accept : option jsstring
}.

(** A template is a file to read or a render function. *)
Inductive Template :=
| TemplatePath (p : jsstring)
| TemplateFn (f : Locals -> Error + jsstring).

Record Options := mkOptions {
  opt_filter : value;
  opt_hidden : value;
  opt_icons : value;
  opt_stylesheet : option jsstring;
  opt_template : option Template;
  opt_view : option jsstring
}.

(** [options || {}]. *)
Definition noOptions : Options :=
  mkOptions Undefined Undefined Undefined None None None.

(* ================================================================== *)
(** ** index.js *)
(* ================================================================== *)

(** [a.map(function (x, i) { ... })]. *)
Fixpoint mapi_from {A B : Type} (i : nat) (f : A -> nat -> B) (a : list A)
  : list B :=
  match a with
  | [] => []
  | x :: r => f x i :: mapi_from (S i) f r
  end.

Definition mapi {A B : Type} (f : A -> nat -> B) (a : list A) : list B :=
  mapi_from 0 f a.

(** [o[k]] on an object literal with string values. *)
Fixpoint property (o : list (jsstring * jsstring)) (k : jsstring)
  : option jsstring :=
  match o with
  | [] => None
  | (k', v) :: r => if str_eqb k' k then Some v else property r k
  end.

(** [x || d] for an optional string: [undefined] and [''] are falsy. *)
Definition orDefault (x : option jsstring) (d : jsstring) : jsstring :=
  match x with
  | Some (c :: s) => c :: s
  | _ => d
  end.

(** [err.code === c]. *)
Definition codeIs (err : Error) (c : jsstring) : bool :=
  match code err with
  | Some k => str_eqb k c
  | None => false
  end.

(** [err.status = s]. *)
Definition setStatus (err : Error) (s : N) : Error :=
  mkError (message err) (code err) (Some s).

(** [res.setHeader(name, v)]. *)
Fixpoint setHeader_in (hs : list (jsstring * hvalue)) (name : jsstring)
  (v : hvalue) : list (jsstring * hvalue) :=
  match hs with
  | [] => [(name, v)]
  | (k, w) :: r =>
      if str_eqb k name then (k, v) :: r else (k, w) :: setHeader_in r name v
  end.

Definition setHeader (res : Response) (name : jsstring) (v : hvalue)
  : Response :=
  mkResponse (statusCode res) (setHeader_in (headers res) name v) (body res).

(** [res.end(body)]. *)
Definition end_with (res : Response) (b : jsstring) : Response :=
  mkResponse (statusCode res) (headers res) b.

(** The response object handed to the middleware. *)
Definition res0 : Response := mkResponse 200 [] [].

(** *** The renderer: [createHtmlFileList], [htmlPath], [iconStyle],
    [normalizeSlashes] and the body computed by [createHtmlRender] *)

Section Markup.

Context {host : Host} {formats : Formats}.

Definition normalizeSlashes (path : jsstring) : jsstring :=
  JS.join (js "/") (splitOn sep path).

Definition iconStyle (files : list FileEntry) (useIcons : bool) : jsstring :=
  [].

(** [file.stat && file.stat.isDirectory()] as a condition. *)
Definition isDir (file : FileEntry) : bool :=
  match entry_stat file with
  | Some (Some st) => isDirectory st
  | _ => false
  end.

(** The [.mp4] test of line 266. *)
Definition isVideo (file : FileEntry) : bool :=
  str_eqb (extname (entry_name file)) (js ".mp4") && negb (isDir file).

Definition videoBlock (href : jsstring) : jsstring :=
  js "<div class=" ++ quoted (js "video-wrap")
  ++ js "><video id=" ++ quoted (js "my_video_1")
  ++ js " class=" ++ quoted (js "video-js vjs-default-skin")
  ++ js " controls preload=" ++ quoted (js "auto")
  ++ js " data-setup='{ " ++ quoted (js "playbackRates")
  ++ js ": [0.5, 1, 1.5, 2], aspectRatio:" ++ quoted (js "16:9")
  ++ js " }'><source src=" ++ quoted href
  ++ js " type='video/mp4'></video></div>".

(** The function mapped over [files] (lines 235-275); [None] when one
    of the [encodeURIComponent] calls throws. *)
Definition fileItem (dir : jsstring) (useIcons : bool) (file : FileEntry)
  : option jsstring :=
  match mapThrow encodeURIComponent (split 47%N dir) with
  | None => None
  | Some path =>
      let classes := if useIcons then [js "icon"] else [] in
      match encodeURIComponent (entry_name file) with
      | None => None
      | Some name =>
          let path := path ++ [name] in
          let date :=
            match entry_stat file with
            | Some (Some st) =>
                if negb (str_eqb (entry_name file) (js "..")) then
                  toLocaleDateString (mtime st) ++ js " "
                  ++ toLocaleTimeString (mtime st)
                else []
            | _ => []
            end in
          let size :=
            match entry_stat file with
            | Some (Some st) =>
                if negb (isDir file) then numberToString (size st) else []
            | _ => []
            end in
          let href :=
            escapeHtml (normalizeSlashes (normalize (JS.join (js "/") path))) in
          let result :=
            js "<li><a href=" ++ quoted href
            ++ js " class=" ++ quoted (escapeHtml (JS.join (js " ") classes))
            ++ js " title=" ++ quoted (escapeHtml (entry_name file))
            ++ js "><span class=" ++ quoted (js "name") ++ js ">"
            ++ escapeHtml (entry_name file)
            ++ js "</span><span class=" ++ quoted (js "size") ++ js ">"
            ++ escapeHtml size
            ++ js "</span><span class=" ++ quoted (js "date") ++ js ">"
            ++ escapeHtml date
            ++ js "</span></a></li>" in
          Some (if isVideo file then result ++ videoBlock href else result)
      end
  end.

Definition listHeader : jsstring :=
  js "<li class=" ++ quoted (js "header")
  ++ js "><span class=" ++ quoted (js "name")
  ++ js ">Name</span><span class=" ++ quoted (js "size")
  ++ js ">Size</span><span class=" ++ quoted (js "date")
  ++ js ">Modified</span></li>".

Definition createHtmlFileList (files : list FileEntry) (dir : jsstring)
  (useIcons : bool) (view : jsstring) : option jsstring :=
  let html :=
    js "<ul id=" ++ quoted (js "files")
    ++ js " class=" ++ quoted (js "view-" ++ escapeHtml view) ++ js ">"
    ++ (if str_eqb view (js "details") then listHeader else []) in
  match mapThrow (fileItem dir useIcons) files with
  | None => None
  | Some items => Some (html ++ JS.join [10%N] items ++ js "</ul>")
  end.

(** One breadcrumb link. *)
Definition crumbLink (href part : jsstring) : jsstring :=
  js "<a href=" ++ quoted (escapeHtml href) ++ js ">"
  ++ escapeHtml part ++ js "</a>".

(** The loop of [htmlPath]: [seen] are the parts already visited, the
    non-empty ones overwritten by their encoding. *)
Fixpoint htmlPath_from (seen rest : list jsstring)
  : option (list (option jsstring)) :=
  match rest with
  | [] => Some []
  | part :: rest' =>
      match part with
      | [] => option_map (cons None) (htmlPath_from (seen ++ [part]) rest')
      | _ :: _ =>
          match encodeURIComponent part with
          | None => None
          | Some enc =>
              option_map
                (cons (Some (crumbLink (JS.join (js "/") (seen ++ [enc]))
                                       part)))
                (htmlPath_from (seen ++ [enc]) rest')
          end
      end
  end.

Definition htmlPath (dir : jsstring) : option jsstring :=
  option_map (joinHoles (js " / ")) (htmlPath_from [] (split 47%N dir)).

(** The body computed by the renderer of [createHtmlRender] from the
    text of the template (lines 294-298); [None] when the file list or
    the breadcrumb throws. *)
Definition templateBody (str : jsstring) (locals : Locals) : option jsstring :=
  let s1 :=
    replaceAll (js "{style}")
               (style locals
                ++ iconStyle (fileList locals) (displayIcons locals)) str in
  match createHtmlFileList (fileList locals) (directory locals)
                           (displayIcons locals) (viewName locals) with
  | None => None
  | Some files =>
      let s2 := replaceAll (js "{files}") files s1 in
      let s3 :=
        replaceAll (js "{directory}") (escapeHtml (directory locals)) s2 in
      match htmlPath (directory locals) with
      | None => None
      | Some linked => Some (replaceAll (js "{linked-path}") linked s3)
      end
  end.

End Markup.

(** *** The middleware *)

Section Middleware.

Context {host : Host}.

Definition defaultTemplate : jsstring :=
  join [dirname; js "public"; js "directory.html"].

Definition defaultStylesheet : jsstring :=
  join [dirname; js "public"; js "style.css"].

Definition mediaTypes : list jsstring :=
  [js "text/html"; js "text/plain"; js "application/json"].

Definition mediaType : list (jsstring * jsstring) :=
  [(js "text/html", js "html");
   (js "text/plain", js "plain");
   (js "application/json", js "json")].

Definition send (res : Response) (type body : jsstring) : Response :=
  let res := setHeader res (js "X-Content-Type-Options") (HStr (js "nosniff")) in
  let res := setHeader res (js "Content-Type")
                       (HStr (type ++ js "; charset=utf-8")) in
  let res := setHeader res (js "Content-Length") (HNum (byteLength body)) in
  end_with res body.

(** The function pushed on the batch for one file: [fs.stat] on the
    joined path; ENOENT becomes a [null] stat, not an error. *)
Definition statTask (dir file : jsstring)
  : Batch.fn event Error (option Stats) :=
  let p := join [dir; file] in
  (Stat p,
   match fs_stat p with
   | inl err => if negb (codeIs err (js "ENOENT")) then inl err else inr None
   | inr st => inr (Some st)
   end).

(** The batch [stat] builds (lines 372-385): its concurrency and the
    functions pushed, one per file. *)
Definition statBatch (dir : jsstring) (files : list jsstring)
  : nat * list (Batch.fn event Error (option Stats)) :=
  (10, map (statTask dir) files).

(** [stat(dir, files, cb)]: the effects issued and the arguments of the
    first invocation of [cb], if any. *)
Definition stat (dir : jsstring) (files : list jsstring) (sched : list nat)
  : list event * option (Error + list (option (option Stats))) :=
  let (n, fns) := statBatch dir files in
  let st := Batch.end_ fns n sched in
  (Batch.issued st, hd_error (Batch.calls st)).

(** The render function [createHtmlRender(template)] returns: the
    template is read; a read error goes to the callback; otherwise the
    body is computed by the four replacements and goes to the callback,
    unless [createHtmlFileList] or [htmlPath] throws, in which case the
    exception leaves the callback of [fs.readFile] and the callback of
    [render] is never invoked. *)
Definition createHtmlRender (template : jsstring) (locals : Locals)
  : list event * (exn + (Error + jsstring)) :=
  ([ReadFile template],
   match fs_readFile template with
   | inl err => inr (inl err)
   | inr str =>
       match @templateBody host host_formats str locals with
       | Some body => inr (inr body)
       | None => inl URIError
       end
   end).

Definition serveIndex_html (res : Response) (files : list jsstring)
  (dir : jsstring) (showUp : bool) (icons : value) (path view : jsstring)
  (template : Template) (stylesheet : jsstring) (sched : list nat)
  : list event * outcome :=
  let render :=
    match template with
    | TemplatePath p => createHtmlRender p
    | TemplateFn f => fun locals => ([], inr (f locals))
    end in
  let files := if showUp then js ".." :: files else files in
  let (evs, answer) := stat path files sched in
  match answer with
  | None => (evs, Pending)
  | Some (inl err) => (evs, NextCalled (Some err))
  | Some (inr stats) =>
      let fileList :=
        mapi (fun file i => mkEntry file (array_get stats i)) files in
      let evs := evs ++ [ReadFile stylesheet] in
      match fs_readFile stylesheet with
      | inl err => (evs, NextCalled (Some err))
      | inr style =>
          let locals :=
            mkLocals dir (truthy icons) fileList path style view in
          let (evs', rendered) := render locals in
          let evs := evs ++ [Render locals] ++ evs' in
          match rendered with
          | inl e => (evs, Thrown e)
          | inr (inl err) => (evs, NextCalled (Some err))
          | inr (inr body) => (evs, Ended (send res (js "text/html") body))
          end
      end
  end.

Definition serveIndex_json (res : Response) (files : list jsstring) : outcome :=
  Ended (send res (js "application/json") (JSON_stringify files)).

Definition serveIndex_plain (res : Response) (files : list jsstring) : outcome :=
  Ended (send res (js "text/plain") (JS.join [10%N] files ++ [10%N])).

(** Line 108: the candidate path of a decoded request path. *)
Definition candidate (rootPath dir : jsstring) : jsstring :=
  normalize (join [rootPath; dir]).

(** Line 111: [~path.indexOf('\0')] as a condition. *)
Definition hasNul (path : jsstring) : bool :=
  negb (Z.lnot (indexOf path [0%N]) =? 0)%Z.

(** Line 114: [(path + sep).substr(0, rootPath.length) !== rootPath]. *)
Definition outsideRoot (rootPath path : jsstring) : bool :=
  negb (str_eqb (substr (path ++ sep) 0 (length rootPath)) rootPath).

(** Line 120: [normalize(resolve(path) + sep) !== rootPath]. *)
Definition showUpOf (rootPath path : jsstring) : bool :=
  negb (str_eqb (normalize (resolve path ++ sep)) rootPath).

(** The function returned by [serveIndex(root, options)], with the
    variables of its closure as parameters.  [sched] is the order in which
    the per-entry stats complete. *)
Definition handler (rootPath : jsstring) (icons : value)
  (stylesheet : jsstring) (template : Template) (view : jsstring)
  (req : Request) (sched : list nat) : list event * outcome :=
  if negb (str_eqb (method req) (js "GET"))
     && negb (str_eqb (method req) (js "HEAD")) then
    let res :=
      mkResponse (if str_eqb (js "OPTIONS") (method req) then 200 else 405)%N
                 (headers res0) (body res0) in
    let res := setHeader res (js "Allow") (HStr (js "GET, HEAD, OPTIONS")) in
    let res := setHeader res (js "Content-Length") (HStr (js "0")) in
    ([], Ended (end_with res []))
  else
    match decodeURIComponent (pathname req) with
    | None => ([], Thrown URIError)
    | Some dir =>
    match decodeURIComponent (originalPathname req) with
    | None => ([], Thrown URIError)
    | Some originalDir =>
        let path := candidate rootPath dir in
        if hasNul path then ([], NextCalled (Some (createError 400)))
        else if outsideRoot rootPath path then
          ([], NextCalled (Some (createError 403)))
        else
          let showUp := showUpOf rootPath path in
          match fs_stat path with
          | inl err =>
              if codeIs err (js "ENOENT") then ([Stat path], NextCalled None)
              else
                ([Stat path],
                 NextCalled
                   (Some (setStatus err
                            (if codeIs err (js "ENAMETOOLONG")
                             then 414 else 500)%N)))
          | inr st =>
              if negb (isDirectory st) then ([Stat path], NextCalled None)
              else
                match fs_readdir path with
                | inl err =>
                    ([Stat path; Readdir path], NextCalled (Some err))
                | inr files =>
                    let files := sort files in
                    match accepts_type (accept req) mediaTypes with
                    | None =>
                        ([Stat path; Readdir path],
                         NextCalled (Some (createError 406)))
                    | Some type =>
                        let member :=
                          match property mediaType type with
                          | Some k => k
                          | None => js "undefined"
                          end in
                        if str_eqb member (js "html") then
                          let (evs, out) :=
                            serveIndex_html res0 files originalDir showUp icons
                                            path view template stylesheet
                                            sched in
                          ([Stat path; Readdir path] ++ evs, out)
                        else if str_eqb member (js "json") then
                          ([Stat path; Readdir path],
                           serveIndex_json res0 files)
                        else if str_eqb member (js "plain") then
                          ([Stat path; Readdir path],
                           serveIndex_plain res0 files)
                        else
                          ([Stat path; Readdir path],
                           Thrown (TypeError
                             (js "serveIndex[mediaType[type]] is not a function")))
                    end
                end
          end
    end
    end.

(** The method gate of the handler lets the request through. *)
Definition getOrHead (req : Request) : bool :=
  str_eqb (method req) (js "GET") || str_eqb (method req) (js "HEAD").

(** The request passes lines 93-117: it is a GET or a HEAD, both paths
    decode, and the candidate has no NUL and lies under the root. *)
Definition Resolves (rootPath : jsstring) (req : Request)
  (dir originalDir : jsstring) : Prop :=
  getOrHead req = true /\
  decodeURIComponent (pathname req) = Some dir /\
  decodeURIComponent (originalPathname req) = Some originalDir /\
  hasNul (candidate rootPath dir) = false /\
  outsideRoot rootPath (candidate rootPath dir) = false.

(** The request moreover reaches the content negotiation (line 146): its
    candidate is a directory and [readdir] answered [files]. *)
Definition Lists (rootPath : jsstring) (req : Request)
  (dir originalDir : jsstring) (files : list jsstring) : Prop :=
  Resolves rootPath req dir originalDir /\
  (exists st, fs_stat (candidate rootPath dir) = inr st /\
              isDirectory st = true) /\
  fs_readdir (candidate rootPath dir) = inr files.

(** The same request with another [Accept] header. *)
Definition withAccept (req : Request) (a : option jsstring) : Request :=
  mkRequest (method req) (pathname req) (originalPathname req) a.

(** The names of the file list handed to the renderer. *)
Definition renderedNames (l : Locals) : list jsstring :=
  map entry_name (fileList l).

(** What [stat] stores for one file when it does not fail: the stats, or
    [null] when the file is gone. *)
Definition entryStat (dir file : jsstring) : option Stats :=
  match fs_stat (join [dir; file]) with
  | inr st => Some st
  | inl _ => None
  end.

(** The per-entry stat does not abort the batch: it succeeds or fails
    with ENOENT. *)
Definition tolerated (dir file : jsstring) : bool :=
  match fs_stat (join [dir; file]) with
  | inr _ => true
  | inl err => codeIs err (js "ENOENT")
  end.

(** [serveIndex(root, options)]: throws, or returns the handler. *)
Definition serveIndex (root : value) (options : option Options)
  : exn + (Request -> list nat -> list event * outcome) :=
  let opts := match options with Some o => o | None => noOptions end in
  if negb (truthy root) then
    inl (TypeError (js "serveIndex() root path required"))
  else
    match root with
    | Str r =>
        let rootPath := normalize (resolve r ++ sep) in
        let stylesheet := orDefault (opt_stylesheet opts) defaultStylesheet in
        let template :=
          match opt_template opts with
          | Some (TemplatePath []) | None => TemplatePath defaultTemplate
          | Some t => t
          end in
        let view := orDefault (opt_view opts) (js "tiles") in
        inr (handler rootPath (opt_icons opts) stylesheet template view)
    | _ => inl (TypeError (js "Arguments to path.resolve must be strings"))
    end.

End Middleware.

(* ================================================================== *)
(** ** A concrete host *)
(* ================================================================== *)

(** The formats of the concrete machine: POSIX [extname] on a name
    without separator, ISO-like dates, decimal sizes. *)
Module MachineFormats.

Fixpoint lastDot (i : nat) (s : jsstring) : option nat :=
  match s with
  | [] => None
  | c :: t =>
      match lastDot (S i) t with
      | Some k => Some k
      | None => if (c =? 46)%N then Some i else None
      end
  end.

Definition extname (name : jsstring) : jsstring :=
  if str_eqb name (js "..") then []
  else match lastDot 0 name with
       | Some (S k) => skipn (S k) name
       | _ => []
       end.

Fixpoint digits (fuel : nat) (k : N) : jsstring :=
  match fuel with
  | O => []
  | S fuel' =>
      if (k <? 10)%N then [48 + k]%N
      else digits fuel' (k / 10) ++ [48 + k mod 10]%N
  end.

Definition numberToString (k : N) : jsstring :=
  digits (S (N.to_nat (N.log2 k))) k.

#[export] Instance formats : Formats :=
  Build_Formats extname
                (fun t => js "day " ++ numberToString (Z.to_N t))
                (fun t => js "noon")
                numberToString.

(** The entries of [/srv/www/a], with a film among them. *)
Definition entries : list FileEntry :=
  [mkEntry (js "..") (Some (Some (mkStats true 4096 0)));
   mkEntry (js "<b>.mp4") (Some (Some (mkStats false 1234 7)));
   mkEntry (js "ghost") (Some None)].

End MachineFormats.

(** A POSIX machine with a small tree under [/srv/www], used to run the
    handler on concrete requests. *)
Module Machine.

Inductive node :=
| Dir (names : list jsstring)
| File (content : jsstring).

Definition enoent : Error :=
  mkError (js "ENOENT: no such file or directory") (Some (js "ENOENT")) None.

Definition enotdir : Error :=
  mkError (js "ENOTDIR: not a directory") (Some (js "ENOTDIR")) None.

Definition eacces : Error :=
  mkError (js "EACCES: permission denied") (Some (js "EACCES")) None.

Definition enametoolong : Error :=
  mkError (js "ENAMETOOLONG: name too long") (Some (js "ENAMETOOLONG")) None.

(** The tree.  [ghost] is listed in [/srv/www/a] but is gone when it is
    stat'ed; [locked] cannot be stat'ed; [/mnt/usb] lists a name that is
    a lone surrogate. *)
Definition tree : list (jsstring * node) :=
  [(js "/srv/www", Dir [js "b.txt"; js "a"; js "Z"]);
   (js "/srv/www/a", Dir [js "x"; js "ghost"]);
   (js "/srv/www/a/x", File (js "x"));
   (js "/srv/www/b.txt", File (js "hello"));
   (js "/srv/www/Z", Dir [js "locked"; js "k"]);
   (js "/srv/www/Z/k", File []);
   (js "/srv", Dir [js "www"]);
   (js "/mnt/usb", Dir [[55357%N]]);
   (js "/app/public/style.css", File (js "body{}"));
   (js "/app/public/directory.html", File (js "{files}"))].

Fixpoint lookup (t : list (jsstring * node)) (p : jsstring) : option node :=
  match t with
  | [] => None
  | (k, v) :: r => if str_eqb k p then Some v else lookup r p
  end.

(** A trailing separator does not change the file a path names. *)
Definition untrail (p : jsstring) : jsstring :=
  match rev p with
  | c :: (_ :: _) as r => if (c =? 47)%N then rev r else p
  | _ => p
  end.

Definition fs_stat (p : jsstring) : Error + Stats :=
  if str_eqb (untrail p) (js "/srv/www/Z/locked") then inl eacces
  else if (64 <? length p) then inl enametoolong
  else
    match lookup tree (untrail p) with
    | Some (Dir _) => inr (mkStats true 4096 0)
    | Some (File c) => inr (mkStats false (N.of_nat (length c)) 0)
    | None => inl enoent
    end.

Definition fs_readdir (p : jsstring) : Error + list jsstring :=
  match lookup tree (untrail p) with
  | Some (Dir names) => inr names
  | Some (File _) => inl enotdir
  | None => inl enoent
  end.

Definition fs_readFile (p : jsstring) : Error + jsstring :=
  match lookup tree (untrail p) with
  | Some (File c) => inr c
  | _ => inl enoent
  end.

(** [accepts(req).type(types)] on the headers used below: no header or
    [*/*] selects the first type offered, a single media type without
    parameters selects itself when it is offered. *)
Definition accepts_type (hdr : option jsstring) (types : list jsstring)
  : option jsstring :=
  match hdr with
  | None => hd_error types
  | Some h =>
      if str_eqb h (js "*/*") then hd_error types
      else if existsb (str_eqb h) types then Some h
      else None
  end.

#[export] Instance host : Host :=
  Build_Host (Posix.module (js "/home/u")) (js "/app")
             fs_stat fs_readdir fs_readFile accepts_type
             MachineFormats.formats.

(** [serveIndex('/srv/www')]. *)
Definition www (req : Request) (sched : list nat) : list event * outcome :=
  match serveIndex (Str (js "/srv/www")) None with
  | inr h => h req sched
  | inl e => ([], Thrown e)
  end.

Definition get (p : jsstring) (acc : option jsstring) : Request :=
  mkRequest (js "GET") p p acc.

(** The root as the handler holds it. *)
Definition root : jsstring := js "/srv/www/".

(** The closure of [www], spelled out. *)
Definition serve (req : Request) (sched : list nat) : list event * outcome :=
  handler root Undefined (js "/app/public/style.css")
          (TemplatePath (js "/app/public/directory.html")) (js "tiles")
          req sched.

(** [Accept] headers. *)
Definition json : option jsstring := Some (js "application/json").
Definition plain : option jsstring := Some (js "text/plain").
Definition xml : option jsstring := Some (js "text/xml").
Definition html : option jsstring := Some (js "text/html").

(** A name too long for this machine. *)
Definition longName : jsstring :=
  js "/aaaaaaaaaaaaaaaaaaaaaaaaaaaaaaaaaaaaaaaaaaaaaaaaaaaaaaaaaaaaaaaaaaaaaaaa".

(** The locals the renderer receives for [GET /a/]. *)
Definition locals_a : Locals :=
  mkLocals (js "/a/") false
           [mkEntry (js "..") (Some (Some (mkStats true 4096 0)));
            mkEntry (js "ghost") (Some None);
            mkEntry (js "x") (Some (Some (mkStats false 1 0)))]
           (js "/srv/www/a/") (js "body{}") (js "tiles").

(** A literal in which each apostrophe stands for a double quote. *)
Definition dq (s : jsstring) : jsstring :=
  map (fun c => if (c =? 39)%N then 34%N else c) s.

(** The body of the HTML response to [GET /a/]. *)
Definition listing_a : jsstring :=
  dq (js "<ul id='files' class='view-tiles'><li><a href='/' class='' title='..'><span class='name'>..</span><span class='size'></span><span class='date'></span></a></li>")
  ++ [10%N]
  ++ dq (js "<li><a href='/a/ghost' class='' title='ghost'><span class='name'>ghost</span><span class='size'></span><span class='date'></span></a></li>")
  ++ [10%N]
  ++ dq (js "<li><a href='/a/x' class='' title='x'><span class='name'>x</span><span class='size'>1</span><span class='date'>day 0 noon</span></a></li></ul>").

End Machine.

(** Closed goals on the machine are settled by evaluation. *)
Ltac concrete := repeat split; try reflexivity; try discriminate.

(** Linear arithmetic with division and remainder by constants. *)
Ltac dlia := zify; Z.to_euclidean_division_equations; lia.

(* ================================================================== *)
(** ** The builtins on concrete inputs *)
(* ================================================================== *)

Example js_literal : js "/a" = [47; 97]%N.
Proof. reflexivity. Qed.

Example decode_plain : decodeURIComponent (js "/a%20b") = Some (js "/a b").
Proof. reflexivity. Qed.

Example decode_nul : decodeURIComponent (js "/%00") = Some [47; 0]%N.
Proof. reflexivity. Qed.

Example decode_utf8 :
  decodeURIComponent (js "%E2%82%AC%F0%9F%98%80") = Some [8364; 55357; 56832]%N.
Proof. reflexivity. Qed.

Example decode_truncated : decodeURIComponent (js "/%") = None.
Proof. reflexivity. Qed.

Example decode_bad_utf8 : decodeURIComponent (js "/%C0%80") = None.
Proof. reflexivity. Qed.

Example sort_units :
  sort [js "b"; js "a"; js "B"; js "10"; js "9"] =
  [js "10"; js "9"; js "B"; js "a"; js "b"].
Proof. reflexivity. Qed.

Example stringify_names :
  JSON_stringify [js "a"; [34; 10]%N] =
  [91; 34; 97; 34; 44; 34; 92; 34; 92; 110; 34; 93]%N.
Proof. reflexivity. Qed.

Example posix_normalize_up :
  Posix.normalize (js "/srv/www//../../etc/./x/") = js "/etc/x/".
Proof. reflexivity. Qed.

Example posix_normalize_rel : Posix.normalize (js "a/../../b") = js "../b".
Proof. reflexivity. Qed.

Example posix_normalize_empty : Posix.normalize [] = js ".".
Proof. reflexivity. Qed.

Example posix_join_root :
  Posix.join [js "/srv/www/"; js "/../../etc"] = js "/etc".
Proof. reflexivity. Qed.

Example posix_resolve_rel :
  Posix.resolve (js "/home/u") (js "public/") = js "/home/u/public".
Proof. reflexivity. Qed.

Example posix_resolve_abs :
  Posix.resolve (js "/home/u") (js "/srv/www/") = js "/srv/www".
Proof. reflexivity. Qed.

(* ================================================================== *)
(** ** Facts about the builtins *)
(* ================================================================== *)

Lemma str_eqb_eq (a b : jsstring) : str_eqb a b = true <-> a = b.
Proof.
  revert b; induction a as [|x a IH]; intros [|y b]; simpl;
    try (split; [discriminate | congruence]); try tauto.
  rewrite andb_true_iff, N.eqb_eq, IH.
  split; [intros [-> ->]; reflexivity | intros E; injection E; auto].
Qed.

Lemma str_eqb_refl (a : jsstring) : str_eqb a a = true.
Proof. apply str_eqb_eq; reflexivity. Qed.

Lemma str_eqb_neq (a b : jsstring) : str_eqb a b = false <-> a <> b.
Proof.
  rewrite <- str_eqb_eq. destruct (str_eqb a b); split; congruence.
Qed.

(** [indexOf] with a one-unit pattern answers [-1] exactly when the unit
    does not occur. *)
Lemma indexOf_from_unit (c : N) (s : jsstring) (i : Z) :
  (0 <= i)%Z ->
  (In c s -> (i <= indexOf_from i s [c])%Z) /\
  (~ In c s -> indexOf_from i s [c] = (-1)%Z).
Proof.
  revert i; induction s as [|x s IH]; intros i Hi; simpl.
  - split; [tauto | reflexivity].
  - destruct (N.eqb_spec c x) as [->|Hne]; simpl.
    + split; [lia | intros Hn; exfalso; apply Hn; left; reflexivity].
    + destruct (IH (i + 1)%Z ltac:(lia)) as [IH1 IH2].
      split.
      * intros [Hx | Hin]; [congruence | specialize (IH1 Hin); lia].
      * intros Hn; apply IH2; tauto.
Qed.

Lemma indexOf_unit_absent (c : N) (s : jsstring) :
  indexOf s [c] = (-1)%Z <-> ~ In c s.
Proof.
  unfold indexOf.
  destruct (indexOf_from_unit c s (i := 0%Z) ltac:(lia)) as [H1 H2].
  split; [|exact H2].
  intros E Hin. specialize (H1 Hin). lia.
Qed.

(** The default order is a total order on strings. *)
Lemma str_leb_refl (a : jsstring) : str_leb a a = true.
Proof.
  induction a as [|x a IH]; simpl; [reflexivity|].
  rewrite N.ltb_irrefl; exact IH.
Qed.

Lemma str_leb_total (a b : jsstring) :
  str_leb a b = true \/ str_leb b a = true.
Proof.
  revert b; induction a as [|x a IH]; intros [|y b]; simpl; auto.
  destruct (N.ltb_spec x y), (N.ltb_spec y x); auto; lia.
Qed.

Lemma str_leb_antisym (a b : jsstring) :
  str_leb a b = true -> str_leb b a = true -> a = b.
Proof.
  revert b; induction a as [|x a IH]; intros [|y b]; simpl;
    try discriminate; auto.
  destruct (N.ltb_spec x y), (N.ltb_spec y x); try discriminate; try lia.
  intros Hab Hba. assert (x = y) by lia. subst. f_equal. auto.
Qed.

Lemma str_leb_trans (a b c : jsstring) :
  str_leb a b = true -> str_leb b c = true -> str_leb a c = true.
Proof.
  revert b c; induction a as [|x a IH]; intros [|y b] [|z c]; simpl;
    try discriminate; auto.
  destruct (N.ltb_spec x y), (N.ltb_spec y x), (N.ltb_spec y z),
    (N.ltb_spec z y), (N.ltb_spec x z), (N.ltb_spec z x);
    try discriminate; try lia; auto.
  apply IH.
Qed.

(** [sort] returns a sorted rearrangement of its argument. *)
Lemma insert_perm (x : jsstring) (l : list jsstring) :
  Permutation (x :: l) (insert x l).
Proof.
  induction l as [|y l IH]; simpl; [reflexivity|].
  destruct (str_leb x y); [reflexivity|].
  rewrite perm_swap. constructor. exact IH.
Qed.

Lemma sort_perm (l : list jsstring) : Permutation l (sort l).
Proof.
  induction l as [|x l IH]; simpl; [constructor|].
  rewrite <- insert_perm. constructor. exact IH.
Qed.

Lemma insert_sorted (x : jsstring) (l : list jsstring) :
  Sorted str_le l -> Sorted str_le (insert x l).
Proof.
  induction 1 as [|y l Hs IH Hhd]; simpl.
  - repeat constructor.
  - destruct (str_leb x y) eqn:E.
    + constructor; [constructor; assumption | constructor; exact E].
    + constructor; [exact IH|].
      assert (Hyx : str_le y x)
        by (destruct (str_leb_total x y); [congruence | assumption]).
      destruct Hhd as [|z l Hyz]; simpl.
      * constructor; exact Hyx.
      * destruct (str_leb x z); constructor; assumption.
Qed.

Lemma sort_sorted (l : list jsstring) : Sorted str_le (sort l).
Proof.
  induction l as [|x l IH]; simpl; [constructor|].
  apply insert_sorted; exact IH.
Qed.

Lemma sort_in (l : list jsstring) (x : jsstring) : In x (sort l) <-> In x l.
Proof.
  split; intros Hin.
  - eapply Permutation_in; [symmetry; apply sort_perm | exact Hin].
  - eapply Permutation_in; [apply sort_perm | exact Hin].
Qed.

Lemma sort_length (l : list jsstring) : length (sort l) = length l.
Proof. symmetry; apply Permutation_length, sort_perm. Qed.

(** Two sorted rearrangements of the same names are equal: the engine's
    choice of algorithm cannot be observed. *)
Lemma sorted_perm_unique (l l' : list jsstring) :
  Sorted str_le l -> Sorted str_le l' -> Permutation l l' -> l = l'.
Proof.
  intros Hl Hl'.
  apply Sorted_StronglySorted in Hl;
    [|intros a b c; apply str_leb_trans].
  apply Sorted_StronglySorted in Hl';
    [|intros a b c; apply str_leb_trans].
  revert l' Hl'; induction Hl as [|x l Hl IH Hx]; intros l' Hl' Hp.
  - apply Permutation_nil in Hp; congruence.
  - destruct Hl' as [|y l' Hl' Hy].
    + symmetry in Hp; apply Permutation_nil in Hp; discriminate.
    + assert (x = y).
      { apply str_leb_antisym.
        - assert (Hin : In y (x :: l))
            by (eapply Permutation_in; [symmetry; exact Hp | left; reflexivity]).
          destruct Hin as [->|Hin]; [apply str_leb_refl|].
          rewrite Forall_forall in Hx; apply Hx; exact Hin.
        - assert (Hin : In x (y :: l'))
            by (eapply Permutation_in; [exact Hp | left; reflexivity]).
          destruct Hin as [->|Hin]; [apply str_leb_refl|].
          rewrite Forall_forall in Hy; apply Hy; exact Hin. }
      subst y. f_equal. apply IH; [exact Hl'|].
      eapply Permutation_cons_inv; exact Hp.
Qed.

Lemma sort_unique (l l' : list jsstring) :
  Permutation l l' -> Sorted str_le l' -> l' = sort l.
Proof.
  intros Hp Hs. apply sorted_perm_unique; [exact Hs | apply sort_sorted|].
  rewrite <- Hp. apply sort_perm.
Qed.

(* ================================================================== *)
(** ** Facts about arrays and [Batch#end] *)
(* ================================================================== *)

Lemma array_set_length {A : Type} (i : nat) (v : A) (a : list (option A)) :
  length (array_set i v a) = Nat.max (length a) (S i).
Proof.
  revert a; induction i as [|i IH]; intros [|x a]; simpl;
    rewrite ?IH; simpl; lia.
Qed.

Lemma array_get_set_same {A : Type} (i : nat) (v : A) (a : list (option A)) :
  array_get (array_set i v a) i = Some v.
Proof.
  unfold array_get.
  revert a; induction i as [|i IH]; intros [|x a]; simpl; auto.
Qed.

Lemma array_get_set_other {A : Type} (i j : nat) (v : A) (a : list (option A)) :
  j <> i -> array_get (array_set i v a) j = array_get a j.
Proof.
  unfold array_get.
  revert j a; induction i as [|i IH]; intros [|j] [|x a] Hne; simpl;
    try congruence; auto.
  - destruct j; reflexivity.
  - rewrite IH by congruence. destruct j; reflexivity.
Qed.

Lemma array_get_lt {A : Type} (a : list (option A)) (i : nat) (v : A) :
  array_get a i = Some v -> nth_error a i = Some (Some v) /\ i < length a.
Proof.
  unfold array_get. intros Hg.
  destruct (nth_error a i) as [[w|]|] eqn:E; try discriminate.
  split; [congruence|]. apply nth_error_Some; congruence.
Qed.

Lemma firstn_in {A : Type} (k : nat) (l : list A) (x : A) :
  In x (firstn k l) -> In x l.
Proof.
  revert k; induction l as [|y l IH]; intros [|k]; simpl; try tauto.
  intros [->|Hin]; [left; reflexivity | right; eapply IH; exact Hin].
Qed.

Lemma firstn_snoc_nth {A : Type} (l : list A) (k : nat) (x : A) :
  nth_error l k = Some x -> firstn (S k) l = firstn k l ++ [x].
Proof.
  revert k; induction l as [|y l IH]; intros [|k]; simpl; try discriminate.
  - intros E; injection E as ->; reflexivity.
  - intros E; f_equal; apply IH; exact E.
Qed.

(** Removing one element of a duplicate-free list. *)
Lemma filter_neq_in (i j : nat) (l : list nat) :
  In j (filter (fun x => negb (x =? i)) l) <-> In j l /\ j <> i.
Proof.
  rewrite filter_In, negb_true_iff, Nat.eqb_neq; tauto.
Qed.

Lemma filter_neq_length (i : nat) (l : list nat) :
  NoDup l -> In i l ->
  S (length (filter (fun x => negb (x =? i)) l)) = length l.
Proof.
  induction 1 as [|x l Hx Hnd IH]; simpl; [tauto|].
  intros [->|Hin].
  - rewrite Nat.eqb_refl; simpl. f_equal.
    clear IH Hnd. induction l as [|y l IH]; simpl; [reflexivity|].
    destruct (Nat.eqb_spec y i) as [->|Hne]; simpl.
    + exfalso; apply Hx; left; reflexivity.
    + f_equal; apply IH; intros Hin; apply Hx; right; exact Hin.
  - destruct (Nat.eqb_spec x i) as [->|Hne]; simpl; [contradiction|].
    f_equal; apply IH; exact Hin.
Qed.

Module BatchFacts.

Import Batch.

Section BatchFacts.

Variables Ev E R : Type.
Variable fns : list (fn Ev E R).
Variable n : nat.
Hypothesis concurrency_pos : 1 <= n.

Local Notation "'total'" := (length fns).
Local Notation "'state'" := (Batch.state Ev E R).
Local Notation "'Inv'" := (Batch.Inv fns n).
Local Notation "'started'" := (Batch.started fns).
Local Notation "'work'" := (Batch.work fns).
Local Notation "'slot'" := (@Batch.slot Ev E R).

Lemma iter_next (k : nat) :
  k <= total ->
  Nat.iter k (next fns) (mkState 0 total [] false [] [] []) =
  mkState k total [] false (seq 0 k) (map fst (firstn k fns)) [].
Proof.
  induction k as [|k IH]; intros Hk; [reflexivity|].
  rewrite Nat.iter_succ, IH by lia.
  destruct (nth_error fns k) as [[ev a]|] eqn:Ek.
  - rewrite seq_S, (firstn_snoc_nth _ _ Ek), map_app.
    unfold next; simpl. rewrite Ek. reflexivity.
  - apply nth_error_None in Ek. lia.
Qed.

Lemma start_empty :
  fns = [] -> start fns n = mkState 0 0 [] false [] [] [inr []].
Proof. intros ->; reflexivity. Qed.

Lemma start_nonempty :
  0 < total ->
  start fns n =
  mkState (Nat.min n total) total [] false (seq 0 (Nat.min n total))
          (map fst (firstn (Nat.min n total) fns)) [].
Proof.
  intros Hpos. rewrite <- iter_next by lia.
  unfold start. destruct fns; simpl in *; [lia | reflexivity].
Qed.

Lemma start_inv : Inv (start fns n) /\ work (start fns n) <= total.
Proof.
  destruct (Nat.eq_dec total 0) as [Hz|Hnz].
  - rewrite start_empty by (apply length_zero_iff_nil; exact Hz).
    split; [|unfold work, started; simpl; lia].
    constructor; unfold started; simpl;
      try (intros; congruence); try tauto;
      try constructor; try reflexivity; try lia.
  - rewrite start_nonempty by lia.
    split.
    + constructor; unfold started; simpl.
      * apply seq_NoDup.
      * intros i Hi. apply in_seq in Hi. lia.
      * lia.
      * rewrite (Nat.min_l (Nat.min n total) total) by lia. reflexivity.
      * discriminate.
      * intros _ i Hi Hn. exfalso; apply Hn, in_seq. lia.
      * intros _. rewrite length_seq. lia.
      * reflexivity.
      * intros _ Hp. lia.
      * intros _ Hlt. rewrite length_seq. lia.
    + unfold work, started; simpl. rewrite length_seq. lia.
Qed.

Lemma complete_pick (k : nat) (st : state) :
  running st <> [] ->
  exists i, In i (running st) /\
    complete fns k st =
    match nth_error fns i with
    | Some (_, arg) => callback fns i arg (drop i st)
    | None => drop i st
    end.
Proof.
  intros Hne. unfold complete, drop.
  destruct (running st) as [|r0 rs] eqn:Erun; [congruence|].
  exists (nth (k mod length (r0 :: rs)) (r0 :: rs) r0).
  split; [|reflexivity].
  apply nth_In, Nat.mod_upper_bound. simpl; lia.
Qed.

Lemma callback_inv (i : nat) (ev : Ev) (arg : E + R) (st : state) :
  Inv st -> In i (running st) -> nth_error fns i = Some (ev, arg) ->
  Inv (callback fns i arg (drop i st)) /\
  work (callback fns i arg (drop i st)) < work st.
Proof.
  intros [Hnd Hrunning Hlen Hiss Hfail Hres Hpend Hsil Hans Hfull] Hi Hfn.
  assert (F1 : S (length (running (drop i st))) = length (running st))
    by (apply filter_neq_length; assumption).
  assert (F2 : forall j, In j (running (drop i st)) <->
                         In j (running st) /\ j <> i)
    by (intros j; apply filter_neq_in).
  assert (F3 : NoDup (running (drop i st)))
    by (apply NoDup_filter; assumption).
  assert (F4 : i < started st) by (apply Hrunning; exact Hi).
  assert (F5 : i < total) by (unfold started in F4; lia).
  unfold callback.
  replace (done (drop i st)) with (done st) by reflexivity.
  destruct (done st) eqn:Hdone.
  - (* the batch has already failed: the callback is ignored *)
    split; [|unfold work, started, drop in *; fields; lia].
    constructor; unfold drop in *; fields; rewrite ?Hdone.
    + exact F3.
    + intros j Hj. apply F2 in Hj. apply Hrunning; tauto.
    + exact Hlen.
    + exact Hiss.
    + exact Hfail.
    + discriminate.
    + discriminate.
    + discriminate.
    + discriminate.
    + discriminate.
  - specialize (Hres eq_refl). specialize (Hpend eq_refl).
    specialize (Hsil eq_refl). specialize (Hans eq_refl).
    specialize (Hfull eq_refl).
    assert (Hpos : 0 < pending st)
      by (unfold started, drop in *; fields; lia).
    destruct arg as [err|res].
    + (* first failure *)
      split; [|unfold work, started, drop in *; fields; lia].
      constructor; unfold drop in *; fields.
      * exact F3.
      * intros j Hj. apply F2 in Hj. apply Hrunning; tauto.
      * exact Hlen.
      * exact Hiss.
      * intros _. exists i, ev, err. split; [exact Hfn|].
        rewrite (Hsil Hpos). reflexivity.
      * discriminate.
      * discriminate.
      * discriminate.
      * discriminate.
      * discriminate.
    + (* success: the slot is written *)
      assert (Hslots : forall j, j < started st ->
                ~ In j (running (drop i st)) ->
                exists ev' r, nth_error fns j = Some (ev', inr r) /\
                  array_get (array_set i res (results st)) j = Some r).
      { intros j Hj Hnin. destruct (Nat.eq_dec j i) as [->|Hne].
        - exists ev, res. split; [exact Hfn | apply array_get_set_same].
        - rewrite array_get_set_other by exact Hne.
          apply Hres; [exact Hj|]. intros Hin; apply Hnin, F2; tauto. }
      assert (Hlen' : length (array_set i res (results st)) <= total)
        by (rewrite array_set_length; lia).
      replace (pending (drop i st)) with (pending st) by reflexivity.
      replace (results (drop i st)) with (results st) by reflexivity.
      destruct (Nat.pred (pending st) =? 0) eqn:Elast.
      * (* last completion: the callback of [end] is invoked *)
        apply Nat.eqb_eq in Elast.
        split; [|unfold work, started, drop in *; fields; lia].
        constructor; unfold drop in *; fields; rewrite ?Hdone.
        -- exact F3.
        -- intros j Hj. apply F2 in Hj. apply Hrunning; tauto.
        -- exact Hlen'.
        -- exact Hiss.
        -- discriminate.
        -- intros _. exact Hslots.
        -- intros _. unfold started, drop in *; fields; lia.
        -- intros _ Hlt. lia.
        -- intros _ _. rewrite (Hsil Hpos). reflexivity.
        -- intros _ Hlt. specialize (Hfull Hlt).
           unfold started, drop in *; fields; lia.
      * (* more to do: start the next function, if any *)
        apply Nat.eqb_neq in Elast.
        unfold next, drop in *; fields.
        destruct (nth_error fns (index st)) as [[ev' a']|] eqn:Enext.
        -- assert (Hidx : index st < total)
             by (apply nth_error_Some; congruence).
           assert (Hst : started st = index st)
             by (unfold started; lia).
           split; [|unfold work, started, drop in *; fields;
                    rewrite length_app; cbn [length]; lia].
           constructor; unfold started, drop in *; fields; rewrite ?Hdone.
           ++ apply NoDup_app; [exact F3 | repeat constructor; simpl; tauto|].
              intros j Hj [<-|[]]. apply F2 in Hj. destruct Hj as [Hj _].
              apply Hrunning in Hj. lia.
           ++ intros j Hj. apply in_app_or in Hj.
              destruct Hj as [Hj|[<-|[]]]; [|lia].
              apply F2 in Hj. destruct Hj as [Hj _].
              apply Hrunning in Hj. lia.
           ++ exact Hlen'.
           ++ rewrite Hiss, Hst.
              replace (Nat.min (S (index st)) total) with (S (index st)) by lia.
              rewrite (firstn_snoc_nth _ _ Enext), map_app. reflexivity.
           ++ discriminate.
           ++ intros _ j Hj Hnin.
              assert (Hjne : j <> index st)
                by (intros ->; apply Hnin, in_or_app; right; left; reflexivity).
              apply Hslots; [lia|].
              intros Hin; apply Hnin, in_or_app; left; exact Hin.
           ++ intros _. rewrite length_app; cbn [length].
              unfold started, drop in *; fields; lia.
           ++ intros _ Hlt. apply Hsil; exact Hpos.
           ++ intros _ Hz. lia.
           ++ intros _ Hlt. rewrite length_app; cbn [length].
              specialize (Hfull Hidx). lia.
        -- assert (Hidx : total <= index st)
             by (apply nth_error_None; exact Enext).
           split; [|unfold work, started, drop in *; fields; lia].
           constructor; unfold started, drop in *; fields; rewrite ?Hdone.
           ++ exact F3.
           ++ intros j Hj. apply F2 in Hj. destruct Hj as [Hj _].
              apply Hrunning in Hj. unfold started in Hj. lia.
           ++ exact Hlen'.
           ++ rewrite Hiss. unfold started. f_equal. f_equal. lia.
           ++ discriminate.
           ++ intros _ j Hj Hnin. apply Hslots; [unfold started; lia|exact Hnin].
           ++ intros _. unfold started, drop in *; fields; lia.
           ++ intros _ Hlt. apply Hsil; exact Hpos.
           ++ intros _ Hz. lia.
           ++ intros _ Hlt. lia.
Qed.

Lemma complete_inv (k : nat) (st : state) :
  Inv st -> running st <> [] ->
  Inv (complete fns k st) /\ work (complete fns k st) < work st.
Proof.
  intros HI Hne. destruct (complete_pick k st Hne) as (i & Hi & ->).
  assert (Hlt : i < total)
    by (apply (inv_running HI) in Hi; unfold started in Hi; lia).
  destruct (nth_error fns i) as [[ev arg]|] eqn:Efn.
  - eapply callback_inv; eassumption.
  - apply nth_error_None in Efn; lia.
Qed.

(** With enough fuel the loop stops because nothing is running. *)
Lemma run_inv (fuel : nat) :
  forall (sched : list nat) (st : state),
    Inv st -> work st <= fuel ->
    Inv (run fns fuel sched st) /\ running (run fns fuel sched st) = [].
Proof.
  induction fuel as [|fuel IH]; intros sched st HI Hw; simpl.
  - split; [exact HI|]. unfold work in Hw.
    apply length_zero_iff_nil. lia.
  - destruct (running st) as [|r0 rs] eqn:Erun; [split; assumption|].
    assert (Hne : running st <> []) by congruence.
    destruct (complete_inv (hd 0 sched) HI Hne) as [HI' Hw'].
    apply IH; [exact HI' | lia].
Qed.

(** [end] invokes its callback exactly once, whatever the order of the
    completions: with the error of a function that failed, or, when every
    function succeeded, with the results in the order of the functions.
    In the second case every function was started, in that order. *)
Lemma end_spec (sched : list nat) :
  (exists i ev e,
     nth_error fns i = Some (ev, inl e) /\
     calls (end_ fns n sched) = [inl e]) \/
  ((forall f, In f fns -> exists r, snd f = inr r) /\
   calls (end_ fns n sched) = [inr (map slot fns)] /\
   issued (end_ fns n sched) = map fst fns).
Proof.
  unfold end_.
  destruct start_inv as [HI0 Hw0].
  destruct (run_inv sched HI0 Hw0) as [HI Hrun].
  set (st := run fns total sched (start fns n)) in *.
  destruct (done st) eqn:Hdone.
  - left. apply (inv_failed HI Hdone).
  - right.
    assert (Hidx : total <= index st).
    { destruct (Nat.le_gt_cases total (index st)) as [Hle|Hlt]; [exact Hle|].
      pose proof (inv_full HI Hdone Hlt) as Hn. rewrite Hrun in Hn.
      simpl in Hn. lia. }
    assert (Hst : started st = total) by (unfold started; lia).
    assert (Hall : forall i, i < total ->
              exists ev r, nth_error fns i = Some (ev, inr r) /\
                           array_get (results st) i = Some r).
    { intros i Hi. apply (inv_results HI Hdone); [lia|].
      rewrite Hrun. simpl; tauto. }
    split; [|split].
    + intros f Hin. apply In_nth_error in Hin. destruct Hin as [i Hi].
      assert (Hlt : i < total) by (apply nth_error_Some; congruence).
      destruct (Hall i Hlt) as (ev & r & Hfn & _).
      exists r. rewrite Hfn in Hi. injection Hi as <-. reflexivity.
    + assert (Hp : pending st = 0).
      { pose proof (inv_pending HI Hdone) as Hp. rewrite Hrun, Hst in Hp.
        simpl in Hp. lia. }
      rewrite (inv_answer HI Hdone Hp). do 2 f_equal.
      apply nth_error_ext. intros i.
      destruct (Nat.lt_ge_cases i total) as [Hlt|Hge].
      * destruct (Hall i Hlt) as (ev & r & Hfn & Hget).
        apply array_get_lt in Hget. destruct Hget as [-> _].
        rewrite nth_error_map, Hfn. reflexivity.
      * pose proof (inv_length HI) as Hlen.
        rewrite (proj2 (nth_error_None _ _)) by lia.
        rewrite (proj2 (nth_error_None _ _)) by (rewrite length_map; lia).
        reflexivity.
    + rewrite (inv_issued HI), Hst, firstn_all. reflexivity.
Qed.

(** Only pushed functions are ever started, each at most once and in
    the order in which they were pushed. *)
Lemma end_issued (sched : list nat) :
  exists k, issued (end_ fns n sched) = map fst (firstn k fns).
Proof.
  unfold end_.
  destruct start_inv as [HI0 Hw0].
  destruct (run_inv sched HI0 Hw0) as [HI _].
  eexists. apply (inv_issued HI).
Qed.

End BatchFacts.

End BatchFacts.

(* ================================================================== *)
(** ** Facts about the middleware *)
(* ================================================================== *)

Lemma hasNul_spec (path : jsstring) :
  hasNul path = true <-> In 0%N path.
Proof.
  unfold hasNul. rewrite negb_true_iff, Z.eqb_neq.
  destruct (in_dec N.eq_dec 0%N path) as [Hin|Hnin].
  - split; [intros _; exact Hin|]. intros _ Hz.
    assert (E : indexOf path [0%N] = (-1)%Z)
      by (unfold Z.lnot in Hz; lia).
    apply indexOf_unit_absent in E. contradiction.
  - split; [|contradiction]. intros Hn. exfalso; apply Hn.
    apply indexOf_unit_absent in Hnin. rewrite Hnin. reflexivity.
Qed.

Section MiddlewareFacts.

Context {host : Host}.

Variables (rootPath : jsstring) (icons : value) (stylesheet : jsstring)
          (template : Template) (view : jsstring).

Local Notation "'serve'" := (handler rootPath icons stylesheet template view).

Lemma getOrHead_gate (req : Request) :
  negb (str_eqb (method req) (js "GET"))
  && negb (str_eqb (method req) (js "HEAD")) = negb (getOrHead req).
Proof. unfold getOrHead. rewrite negb_orb. reflexivity. Qed.

(** Requests stopped by the method gate touch nothing. *)
Lemma handler_other_method (req : Request) (sched : list nat) :
  getOrHead req = false ->
  exists r, serve req sched = ([], Ended r) /\ body r = [] /\
            statusCode r = (if str_eqb (js "OPTIONS") (method req)
                            then 200 else 405)%N.
Proof.
  intros Hm. unfold handler. rewrite getOrHead_gate, Hm. simpl negb.
  cbv iota. eexists. split; [reflexivity|]. split; reflexivity.
Qed.

(** A request that passes lines 93-117 goes on with [fs.stat]. *)
Lemma handler_resolves (req : Request) (sched : list nat)
  (dir originalDir : jsstring) :
  Resolves rootPath req dir originalDir ->
  serve req sched =
  let path := candidate rootPath dir in
  match fs_stat path with
  | inl err =>
      if codeIs err (js "ENOENT") then ([Stat path], NextCalled None)
      else
        ([Stat path],
         NextCalled
           (Some (setStatus err
                    (if codeIs err (js "ENAMETOOLONG") then 414 else 500)%N)))
  | inr st =>
      if negb (isDirectory st) then ([Stat path], NextCalled None)
      else
        match fs_readdir path with
        | inl err => ([Stat path; Readdir path], NextCalled (Some err))
        | inr files =>
            match accepts_type (accept req) mediaTypes with
            | None =>
                ([Stat path; Readdir path],
                 NextCalled (Some (createError 406)))
            | Some type =>
                let member :=
                  match property mediaType type with
                  | Some k => k
                  | None => js "undefined"
                  end in
                if str_eqb member (js "html") then
                  let (evs, out) :=
                    serveIndex_html res0 (sort files) originalDir
                                    (showUpOf rootPath path) icons path view
                                    template stylesheet sched in
                  ([Stat path; Readdir path] ++ evs, out)
                else if str_eqb member (js "json") then
                  ([Stat path; Readdir path],
                   serveIndex_json res0 (sort files))
                else if str_eqb member (js "plain") then
                  ([Stat path; Readdir path],
                   serveIndex_plain res0 (sort files))
                else
                  ([Stat path; Readdir path],
                   Thrown (TypeError
                     (js "serveIndex[mediaType[type]] is not a function")))
            end
        end
  end.
Proof.
  intros (Hm & Hd & Ho & Hn & Hr).
  unfold handler. rewrite getOrHead_gate, Hm, Hd, Ho, Hn, Hr.
  reflexivity.
Qed.

(** ... and, on a directory that can be read, with the negotiation. *)
Lemma handler_lists (req : Request) (sched : list nat)
  (dir originalDir : jsstring) (files : list jsstring) :
  Lists rootPath req dir originalDir files ->
  serve req sched =
  let path := candidate rootPath dir in
  match accepts_type (accept req) mediaTypes with
  | None => ([Stat path; Readdir path], NextCalled (Some (createError 406)))
  | Some type =>
      let member :=
        match property mediaType type with
        | Some k => k
        | None => js "undefined"
        end in
      if str_eqb member (js "html") then
        let (evs, out) :=
          serveIndex_html res0 (sort files) originalDir
                          (showUpOf rootPath path) icons path view
                          template stylesheet sched in
        ([Stat path; Readdir path] ++ evs, out)
      else if str_eqb member (js "json") then
        ([Stat path; Readdir path], serveIndex_json res0 (sort files))
      else if str_eqb member (js "plain") then
        ([Stat path; Readdir path], serveIndex_plain res0 (sort files))
      else
        ([Stat path; Readdir path],
         Thrown (TypeError
           (js "serveIndex[mediaType[type]] is not a function")))
  end.
Proof.
  intros (Hres & (st & Hst & Hdir) & Hls).
  rewrite (handler_resolves sched Hres). cbv zeta.
  rewrite Hst, Hdir, Hls. reflexivity.
Qed.

Lemma Lists_withAccept (req : Request) (a : option jsstring)
  (dir originalDir : jsstring) (files : list jsstring) :
  Lists rootPath req dir originalDir files ->
  Lists rootPath (withAccept req a) dir originalDir files.
Proof. intros H; exact H. Qed.

End MiddlewareFacts.

Section StatFacts.

Context {host : Host}.

Lemma statTask_failed (dir file : jsstring) (ev : event) (err : Error) :
  statTask dir file = (ev, inl err) ->
  fs_stat (join [dir; file]) = inl err /\
  codeIs err (js "ENOENT") = false /\ tolerated dir file = false.
Proof.
  unfold statTask, tolerated.
  destruct (fs_stat (join [dir; file])) as [e|st]; [|discriminate].
  destruct (codeIs e (js "ENOENT")) eqn:Ecode; simpl; [discriminate|].
  intros E; injection E as _ <-. auto.
Qed.

Lemma statTask_slot (dir file : jsstring) (r : option Stats) :
  snd (statTask dir file) = inr r ->
  Batch.slot (statTask dir file) = Some (entryStat dir file) /\
  tolerated dir file = true.
Proof.
  unfold Batch.slot, statTask, entryStat, tolerated. simpl.
  destruct (fs_stat (join [dir; file])) as [e|st]; [|auto].
  destruct (codeIs e (js "ENOENT")); simpl; [auto | discriminate].
Qed.

(** [stat(dir, files, cb)], for every order of completion: when no entry
    fails with an error other than ENOENT, every file is stat'ed and [cb]
    receives the stats in the order of [files], [null] standing for a file
    that is gone; otherwise [cb] receives the error of an entry that
    failed. *)
Lemma stat_spec (dir : jsstring) (files : list jsstring) (sched : list nat) :
  if forallb (tolerated dir) files then
    stat dir files sched =
    (map (fun file => Stat (join [dir; file])) files,
     Some (inr (map (fun file => Some (entryStat dir file)) files)))
  else
    exists file err,
      In file files /\ fs_stat (join [dir; file]) = inl err /\
      codeIs err (js "ENOENT") = false /\
      snd (stat dir files sched) = Some (inl err).
Proof.
  unfold stat, statBatch.
  assert (Hn : 1 <= 10) by lia.
  destruct (BatchFacts.end_spec (map (statTask dir) files) Hn sched)
    as [(i & ev & err & Hfn & Hcalls) | (Hall & Hcalls & Hissued)].
  - rewrite nth_error_map in Hfn.
    destruct (nth_error files i) as [file|] eqn:Ei; [|discriminate].
    assert (Htask : statTask dir file = (ev, inl err))
      by (simpl in Hfn; congruence).
    apply statTask_failed in Htask.
    destruct Htask as (Hst & Hcode & Htol).
    assert (Hin : In file files) by (eapply nth_error_In; exact Ei).
    destruct (forallb (tolerated dir) files) eqn:Hf.
    + rewrite forallb_forall in Hf. rewrite (Hf _ Hin) in Htol. discriminate.
    + exists file, err. simpl. rewrite Hcalls. auto.
  - assert (Hf : forallb (tolerated dir) files = true).
    { apply forallb_forall. intros file Hin.
      destruct (Hall (statTask dir file) (in_map _ _ _ Hin)) as [r Hr].
      apply (statTask_slot _ _ Hr). }
    rewrite Hf, Hcalls, Hissued. simpl. rewrite !map_map. f_equal.
    do 2 f_equal. apply map_ext_in. intros file Hin.
    destruct (Hall (statTask dir file) (in_map _ _ _ Hin)) as [r Hr].
    apply (statTask_slot _ _ Hr).
Qed.

(** [stat] issues nothing but [fs.stat] calls. *)
Lemma stat_issues_stats (dir : jsstring) (files : list jsstring)
  (sched : list nat) (e : event) :
  In e (fst (stat dir files sched)) -> exists p, e = Stat p.
Proof.
  unfold stat, statBatch. simpl.
  assert (Hn : 1 <= 10) by lia.
  destruct (BatchFacts.end_issued (map (statTask dir) files) Hn sched)
    as [k ->].
  intros Hin. apply in_map_iff in Hin. destruct Hin as [[ev a] [<- Hin]].
  apply firstn_in, in_map_iff in Hin. destruct Hin as [file [E _]].
  unfold statTask in E. injection E as <- _. eexists; reflexivity.
Qed.

(** Combining names and stats by position gives each name its own stat. *)
Lemma fileList_positional {A B : Type} (g : jsstring -> A)
  (c : jsstring -> option A -> B) (pre files : list jsstring) :
  mapi_from (length pre)
            (fun file i =>
               c file (array_get (map (fun f => Some (g f)) (pre ++ files)) i))
            files =
  map (fun file => c file (Some (g file))) files.
Proof.
  revert pre; induction files as [|x files IH]; intros pre; simpl;
    [reflexivity|].
  f_equal.
  - unfold array_get. rewrite nth_error_map, nth_error_app2 by lia.
    rewrite Nat.sub_diag. reflexivity.
  - specialize (IH (pre ++ [x])). rewrite length_app in IH. simpl in IH.
    rewrite Nat.add_1_r, <- app_assoc in IH. exact IH.
Qed.

(** [serveIndex.html] in full.  The names handed to the renderer are the
    names it was given, after [..] when [showUp] is set; each comes with
    its own stat. *)
Lemma serveIndex_html_spec (res : Response) (files : list jsstring)
  (dir : jsstring) (showUp : bool) (icons : value) (path view : jsstring)
  (template : Template) (stylesheet : jsstring) (sched : list nat) :
  let names := if showUp then js ".." :: files else files in
  if forallb (tolerated path) names then
    serveIndex_html res files dir showUp icons path view template
                    stylesheet sched =
    let evs := map (fun file => Stat (join [path; file])) names
               ++ [ReadFile stylesheet] in
    match fs_readFile stylesheet with
    | inl err => (evs, NextCalled (Some err))
    | inr style =>
        let locals :=
          mkLocals dir (truthy icons)
                   (map (fun file => mkEntry file (Some (entryStat path file)))
                        names)
                   path style view in
        let (evs', rendered) :=
          match template with
          | TemplatePath p => createHtmlRender p locals
          | TemplateFn f => ([], inr (f locals))
          end in
        (evs ++ [Render locals] ++ evs',
         match rendered with
         | inl e => Thrown e
         | inr (inl err) => NextCalled (Some err)
         | inr (inr body) => Ended (send res (js "text/html") body)
         end)
    end
  else
    exists file err,
      In file names /\ fs_stat (join [path; file]) = inl err /\
      codeIs err (js "ENOENT") = false /\
      snd (serveIndex_html res files dir showUp icons path view template
                           stylesheet sched) = NextCalled (Some err) /\
      forall e,
        In e (fst (serveIndex_html res files dir showUp icons path view
                                   template stylesheet sched)) ->
        exists p, e = Stat p.
Proof.
  intros names. unfold serveIndex_html. fold names.
  pose proof (stat_spec path names sched) as Hstat.
  pose proof (stat_issues_stats path names sched) as Hiss.
  destruct (forallb (tolerated path) names).
  - rewrite Hstat. unfold mapi.
    rewrite (fileList_positional (entryStat path) mkEntry [] names).
    destruct (fs_readFile stylesheet) as [err|style]; [reflexivity|].
    destruct template as [p|f]; simpl.
    + destruct (fs_readFile p); [reflexivity|].
      destruct (templateBody _ _); reflexivity.
    + destruct (f _); reflexivity.
  - destruct Hstat as (file & err & Hin & Hst & Hcode & Hsnd).
    exists file, err.
    destruct (stat path names sched) as [evs answer]. simpl in Hsnd, Hiss.
    subst answer. simpl. auto.
Qed.

Lemma serveIndex_html_names (res : Response) (files : list jsstring)
  (dir : jsstring) (showUp : bool) (icons : value) (path view : jsstring)
  (template : Template) (stylesheet : jsstring) (sched : list nat)
  (l : Locals) :
  In (Render l)
     (fst (serveIndex_html res files dir showUp icons path view template
                           stylesheet sched)) ->
  renderedNames l = if showUp then js ".." :: files else files.
Proof.
  pose proof (serveIndex_html_spec res files dir showUp icons path view
                                   template stylesheet sched) as Hspec.
  cbv zeta in Hspec.
  set (names := if showUp then js ".." :: files else files) in *.
  destruct (forallb (tolerated path) names).
  - rewrite Hspec. clear Hspec.
    assert (Hstats : forall evs,
              In (Render l)
                 (map (fun file => Stat (join [path; file])) names ++ evs) ->
              In (Render l) evs).
    { intros evs Hin. apply in_app_or in Hin. destruct Hin as [Hin|Hin];
        [|exact Hin].
      apply in_map_iff in Hin. destruct Hin as (file & E & _). discriminate. }
    destruct (fs_readFile stylesheet) as [err|style].
    + simpl. intros Hin. apply Hstats in Hin.
      destruct Hin as [E|[]]; discriminate.
    + assert (Hnames : forall l',
                l' = mkLocals dir (truthy icons)
                       (map (fun file =>
                               mkEntry file (Some (entryStat path file)))
                            names) path style view ->
                renderedNames l' = names).
      { intros l' ->. unfold renderedNames. simpl. rewrite map_map. simpl.
        apply map_id. }
      destruct template as [p|f]; simpl; intros Hin;
        rewrite <- app_assoc in Hin; apply Hstats in Hin; simpl in Hin.
      * destruct Hin as [E|[E|[E|[]]]]; try discriminate.
        apply Hnames. congruence.
      * destruct Hin as [E|[E|[]]]; try discriminate.
        apply Hnames. congruence.
  - destruct Hspec as (file & err & _ & _ & _ & _ & Hev).
    intros Hin. apply Hev in Hin. destruct Hin as [p E]. discriminate.
Qed.

Lemma serveIndex_html_ended (res : Response) (files : list jsstring)
  (dir : jsstring) (showUp : bool) (icons : value) (path view : jsstring)
  (template : Template) (stylesheet : jsstring) (sched : list nat)
  (r : Response) :
  snd (serveIndex_html res files dir showUp icons path view template
                       stylesheet sched) = Ended r ->
  exists l,
    In (Render l)
       (fst (serveIndex_html res files dir showUp icons path view template
                             stylesheet sched)).
Proof.
  pose proof (serveIndex_html_spec res files dir showUp icons path view
                                   template stylesheet sched) as Hspec.
  cbv zeta in Hspec.
  set (names := if showUp then js ".." :: files else files) in *.
  destruct (forallb (tolerated path) names).
  - rewrite Hspec. clear Hspec.
    destruct (fs_readFile stylesheet) as [err|style]; [discriminate|].
    destruct template as [p|f]; unfold createHtmlRender;
      cbv beta iota zeta delta [fst snd]; intros _; eexists;
      apply in_or_app; right; apply in_or_app; left; left; reflexivity.
  - destruct Hspec as (file & err & _ & _ & _ & Hsnd & _).
    rewrite Hsnd. discriminate.
Qed.

End StatFacts.

Section HtmlFacts.

Context {host : Host}.

Variables (rootPath : jsstring) (icons : value) (stylesheet : jsstring)
          (template : Template) (view : jsstring).

Local Notation "'serve'" := (handler rootPath icons stylesheet template view).

(** The HTML branch of the handler: [serveIndex.html] on the sorted names
    and the flag of line 120. *)
Lemma handler_html (req : Request) (sched : list nat)
  (dir originalDir : jsstring) (files : list jsstring) :
  Lists rootPath req dir originalDir files ->
  accepts_type (accept req) mediaTypes = Some (js "text/html") ->
  serve req sched =
  let path := candidate rootPath dir in
  let (evs, out) :=
    serveIndex_html res0 (sort files) originalDir (showUpOf rootPath path)
                    icons path view template stylesheet sched in
  ([Stat path; Readdir path] ++ evs, out).
Proof.
  intros Hls Hacc.
  rewrite (handler_lists icons stylesheet template view sched Hls).
  cbv zeta. rewrite Hacc. reflexivity.
Qed.

Lemma handler_rendered_names (req : Request) (sched : list nat)
  (dir originalDir : jsstring) (files : list jsstring) (l : Locals) :
  Lists rootPath req dir originalDir files ->
  In (Render l) (fst (serve req sched)) ->
  renderedNames l =
  if showUpOf rootPath (candidate rootPath dir)
  then js ".." :: sort files else sort files.
Proof.
  intros Hls.
  rewrite (handler_lists icons stylesheet template view sched Hls).
  cbv zeta.
  assert (Hnone : ~ In (Render l)
            [Stat (candidate rootPath dir); Readdir (candidate rootPath dir)])
    by (intros [E|[E|[]]]; discriminate).
  destruct (accepts_type (accept req) mediaTypes) as [type|];
    [|intros Hin; contradiction].
  destruct (str_eqb _ (js "html")).
  - destruct (serveIndex_html res0 (sort files) originalDir
                (showUpOf rootPath (candidate rootPath dir)) icons
                (candidate rootPath dir) view template stylesheet sched)
      as [evs out] eqn:Ehtml.
    cbn [fst]. intros Hin.
    destruct Hin as [E|[E|Hin]]; try discriminate.
    apply (serveIndex_html_names res0 (sort files) originalDir
             (showUpOf rootPath (candidate rootPath dir)) icons
             (candidate rootPath dir) view template stylesheet sched).
    rewrite Ehtml. exact Hin.
  - destruct (str_eqb _ (js "json")); [intros Hin; contradiction|].
    destruct (str_eqb _ (js "plain")); intros Hin; contradiction.
Qed.

Lemma handler_html_ended (req : Request) (sched : list nat)
  (dir originalDir : jsstring) (files : list jsstring) (r : Response) :
  Lists rootPath req dir originalDir files ->
  accepts_type (accept req) mediaTypes = Some (js "text/html") ->
  snd (serve req sched) = Ended r ->
  exists l, In (Render l) (fst (serve req sched)).
Proof.
  intros Hls Hacc. rewrite (handler_html sched Hls Hacc). cbv zeta.
  pose proof (@serveIndex_html_ended host res0 (sort files) originalDir
           (showUpOf rootPath (candidate rootPath dir)) icons
           (candidate rootPath dir) view template stylesheet sched r) as Hend.
  destruct (serveIndex_html res0 (sort files) originalDir
              (showUpOf rootPath (candidate rootPath dir)) icons
              (candidate rootPath dir) view template stylesheet sched)
    as [evs out].
  cbn [fst snd] in *. intros Hout. destruct (Hend Hout) as [l Hl].
  exists l. right; right; exact Hl.
Qed.

(** The HTML branch in full, when no entry fails with an error other
    than ENOENT and the stylesheet is read. *)
Lemma handler_html_total (req : Request) (sched : list nat)
  (dir originalDir : jsstring) (files : list jsstring) (style : jsstring) :
  Lists rootPath req dir originalDir files ->
  accepts_type (accept req) mediaTypes = Some (js "text/html") ->
  let path := candidate rootPath dir in
  let shown :=
    if showUpOf rootPath path then js ".." :: sort files else sort files in
  let locals :=
    mkLocals originalDir (truthy icons)
             (map (fun file => mkEntry file (Some (entryStat path file)))
                  shown)
             path style view in
  forallb (tolerated path) shown = true ->
  fs_readFile stylesheet = inr style ->
  serve req sched =
  let evs := [Stat path; Readdir path]
             ++ map (fun file => Stat (join [path; file])) shown
             ++ [ReadFile stylesheet; Render locals] in
  match template with
  | TemplatePath p =>
      (evs ++ [ReadFile p],
       match fs_readFile p with
       | inl err => NextCalled (Some err)
       | inr str =>
           match @templateBody host host_formats str locals with
           | Some b => Ended (send res0 (js "text/html") b)
           | None => Thrown URIError
           end
       end)
  | TemplateFn f =>
      (evs,
       match f locals with
       | inl err => NextCalled (Some err)
       | inr b => Ended (send res0 (js "text/html") b)
       end)
  end.
Proof.
  intros Hls Hacc path shown locals Htol Hstyle.
  rewrite (handler_html sched Hls Hacc). cbv zeta. fold path.
  pose proof (@serveIndex_html_spec host res0 (sort files) originalDir
                (showUpOf rootPath path) icons path view template stylesheet
                sched) as Hspec.
  cbv zeta in Hspec. fold shown in Hspec. rewrite Htol, Hstyle in Hspec.
  rewrite Hspec. fold locals.
  destruct template as [p|f]; unfold createHtmlRender.
  - destruct (fs_readFile p) as [err|str];
      [|destruct (templateBody str locals)];
      cbn [app]; rewrite <- !app_assoc; reflexivity.
  - destruct (f locals); cbn [app]; rewrite <- !app_assoc, ?app_nil_r;
      reflexivity.
Qed.

(** ... in which case the renderer is called, and an HTML response, if
    any, carries the body computed from the locals. *)
Lemma handler_html_rendered (req : Request) (sched : list nat)
  (dir originalDir : jsstring) (files : list jsstring) (css : jsstring) :
  Lists rootPath req dir originalDir files ->
  accepts_type (accept req) mediaTypes = Some (js "text/html") ->
  let path := candidate rootPath dir in
  let shown :=
    if showUpOf rootPath path then js ".." :: sort files else sort files in
  let locals :=
    mkLocals originalDir (truthy icons)
             (map (fun file => mkEntry file (Some (entryStat path file)))
                  shown)
             path css view in
  forallb (tolerated path) shown = true ->
  fs_readFile stylesheet = inr css ->
  In (Render locals) (fst (serve req sched)) /\
  renderedNames locals = shown /\
  (forall p str,
     template = TemplatePath p -> fs_readFile p = inr str ->
     match @createHtmlFileList host host_formats (fileList locals)
                               originalDir (truthy icons) view,
           htmlPath originalDir with
     | Some markup, Some linked =>
         exists r,
           snd (serve req sched) = Ended r /\
           body r =
           replaceAll (js "{linked-path}") linked
             (replaceAll (js "{directory}") (escapeHtml originalDir)
                (replaceAll (js "{files}") markup
                   (replaceAll (js "{style}") css str)))
     | _, _ => snd (serve req sched) = Thrown URIError
     end).
Proof.
  intros Hls Hacc path shown locals Htol Hstyle.
  pose proof (handler_html_total sched Hls Hacc Htol Hstyle) as Htotal.
  cbv zeta in Htotal. fold path shown locals in Htotal.
  split; [|split].
  - rewrite Htotal.
    assert (Hin : In (Render locals)
                     ([Stat path; Readdir path]
                      ++ map (fun file => Stat (join [path; file])) shown
                      ++ [ReadFile stylesheet; Render locals])).
    { apply in_or_app. right. apply in_or_app. right.
      right. left. reflexivity. }
    destruct template as [p|f]; cbn [fst];
      [apply in_or_app; left|]; exact Hin.
  - unfold renderedNames, locals. cbn [fileList]. rewrite map_map.
    cbn [entry_name]. apply map_id.
  - intros p str -> Hstr. rewrite Htotal, Hstr. cbn [snd].
    unfold templateBody, iconStyle. rewrite app_nil_r.
    change (directory locals) with originalDir.
    change (displayIcons locals) with (truthy icons).
    change (viewName locals) with view.
    change (style locals) with css.
    destruct (createHtmlFileList (fileList locals) originalDir
                                 (truthy icons) view) as [markup|];
      [|destruct (htmlPath originalDir); reflexivity].
    destruct (htmlPath originalDir) as [linked|]; [|reflexivity].
    eexists. split; reflexivity.
Qed.

End HtmlFacts.

Lemma send_body (res : Response) (type b : jsstring) :
  body (send res type b) = b.
Proof. reflexivity. Qed.

(** [www] is [serve]: the root is resolved and normalized once, the
    defaults are taken for the stylesheet, the template and the view. *)
Lemma www_serve : Machine.www = Machine.serve.
Proof. reflexivity. Qed.

(* ================================================================== *)
(** ** What [JSON.stringify] writes is read back *)
(* ================================================================== *)

Lemma some_eq {A : Type} (x y : A) : Some x = Some y -> x = y.
Proof. intros E; injection E as ->; reflexivity. Qed.

Lemma check_below (P : N -> bool) (n : nat) :
  forallb P (map N.of_nat (seq 0 n)) = true ->
  forall v, (v < N.of_nat n)%N -> P v = true.
Proof.
  intros H v Hv. rewrite forallb_forall in H. apply H.
  apply in_map_iff. exists (N.to_nat v). split; [apply N2Nat.id|].
  apply in_seq. lia.
Qed.

Lemma hexval_hexdigit (d : N) : (d < 16)%N -> hexval (hexdigit d) = Some d.
Proof.
  intros H.
  pose (P := fun d => match hexval (hexdigit d) with
                      | Some x => (x =? d)%N
                      | None => false
                      end).
  assert (Hc : P d = true)
    by (apply (@check_below P 16); [reflexivity|exact H]).
  unfold P in Hc. destruct (hexval (hexdigit d)) as [x|]; [|discriminate].
  apply N.eqb_eq in Hc. congruence.
Qed.

Lemma unquote_unicodeEscape (c : N) (rest : jsstring) :
  (c < 65536)%N ->
  unquote (unicodeEscape c ++ rest) = unit_after c (unquote rest).
Proof.
  intros Hc. unfold unicodeEscape. cbn [app unquote N.eqb Pos.eqb].
  rewrite !hexval_hexdigit by (apply N.mod_lt; lia).
  replace (4096 * ((c / 4096) mod 16) + 256 * ((c / 256) mod 16)
           + 16 * ((c / 16) mod 16) + c mod 16)%N with c by dlia.
  reflexivity.
Qed.

Lemma unquote_literal (c : N) (rest : jsstring) :
  (c =? 34)%N = false -> (c =? 92)%N = false -> (c <? 32)%N = false ->
  unquote (c :: rest) = unit_after c (unquote rest).
Proof. intros H1 H2 H3. cbn [unquote]. rewrite H1, H2, H3. reflexivity. Qed.

Lemma unquote_quoteUnit (c : N) (rest : jsstring) :
  unquote (quoteUnit c ++ rest) = unit_after c (unquote rest).
Proof.
  unfold quoteUnit.
  destruct (N.eqb_spec c 8) as [->|H8]; [reflexivity|].
  destruct (N.eqb_spec c 9) as [->|H9]; [reflexivity|].
  destruct (N.eqb_spec c 10) as [->|H10]; [reflexivity|].
  destruct (N.eqb_spec c 12) as [->|H12]; [reflexivity|].
  destruct (N.eqb_spec c 13) as [->|H13]; [reflexivity|].
  destruct (N.eqb_spec c 34) as [->|H34]; [reflexivity|].
  destruct (N.eqb_spec c 92) as [->|H92]; [reflexivity|].
  destruct ((c <? 32)%N || isLead c || isTrail c) eqn:Hesc.
  - apply unquote_unicodeEscape.
    apply orb_prop in Hesc. destruct Hesc as [Hesc|Hesc].
    + apply orb_prop in Hesc. destruct Hesc as [Hesc|Hesc].
      * apply N.ltb_lt in Hesc. lia.
      * unfold isLead in Hesc. apply andb_prop in Hesc.
        destruct Hesc as [_ Hesc]. apply N.leb_le in Hesc. lia.
    + unfold isTrail in Hesc. apply andb_prop in Hesc.
      destruct Hesc as [_ Hesc]. apply N.leb_le in Hesc. lia.
  - apply orb_false_elim in Hesc. destruct Hesc as [Hesc _].
    apply orb_false_elim in Hesc. destruct Hesc as [Hctl _].
    apply unquote_literal; [apply N.eqb_neq; assumption ..|exact Hctl].
Qed.

Lemma unquote_quoteBody_length (n : nat) (s rest : jsstring) :
  length s <= n ->
  unquote (quoteBody s ++ 34%N :: rest) = Some (s, rest).
Proof.
  revert s. induction n as [|n IH]; intros s Hlen.
  - destruct s; [reflexivity|simpl in Hlen; lia].
  - destruct s as [|c t]; [reflexivity|]. cbn [length] in Hlen.
    cbn [quoteBody].
    assert (Hgen : unquote ((quoteUnit c ++ quoteBody t) ++ 34%N :: rest) =
                   Some (c :: t, rest)).
    { rewrite <- app_assoc, unquote_quoteUnit, (IH t) by lia. reflexivity. }
    destruct (isLead c) eqn:Hlead; [|exact Hgen].
    destruct t as [|d t'];
      [cbn [quoteBody] in Hgen; rewrite app_nil_r in Hgen; exact Hgen|].
    destruct (isTrail d) eqn:Htrail; [|exact Hgen].
    cbn [length] in Hlen. cbn [app].
    unfold isLead in Hlead. unfold isTrail in Htrail.
    apply andb_prop in Hlead, Htrail.
    destruct Hlead as [L1 L2], Htrail as [T1 T2].
    apply N.leb_le in L1, L2, T1, T2.
    rewrite unquote_literal
      by (apply N.eqb_neq || apply N.ltb_ge; lia).
    rewrite unquote_literal
      by (apply N.eqb_neq || apply N.ltb_ge; lia).
    rewrite (IH t') by lia. reflexivity.
Qed.

Lemma unquote_quoteBody (s rest : jsstring) :
  unquote (quoteBody s ++ 34%N :: rest) = Some (s, rest).
Proof. apply (@unquote_quoteBody_length (length s)). apply Nat.le_refl. Qed.

Lemma elements_stringify (a : list jsstring) (x : jsstring) (fuel : nat) :
  length a < fuel ->
  elements fuel (JS.join (js ",") (map quoteJSONString (x :: a)) ++ js "]") =
  Some (x :: a).
Proof.
  revert x fuel. induction a as [|y a IH]; intros x fuel Hfuel.
  - destruct fuel as [|fuel]; [simpl in Hfuel; lia|].
    cbn [map JS.join]. unfold quoteJSONString at 1.
    cbn [app elements N.eqb Pos.eqb].
    rewrite <- app_assoc. cbn [app].
    rewrite unquote_quoteBody. reflexivity.
  - destruct fuel as [|fuel]; [simpl in Hfuel; lia|].
    change (JS.join (js ",") (map quoteJSONString (x :: y :: a))) with
      (quoteJSONString x ++ js ","
       ++ JS.join (js ",") (map quoteJSONString (y :: a))).
    unfold quoteJSONString at 1.
    cbn [app elements N.eqb Pos.eqb].
    rewrite <- !app_assoc. cbn [app].
    rewrite unquote_quoteBody.
    change (js ",") with [44%N]. cbn [app N.eqb Pos.eqb].
    change [44%N] with (js ",").
    rewrite IH by (cbn [length] in Hfuel; lia). reflexivity.
Qed.

Lemma join_quoted_length (x : jsstring) (a : list jsstring) :
  length a < length (JS.join (js ",") (map quoteJSONString (x :: a)) ++ js "]").
Proof.
  revert x. induction a as [|y a IH]; intros x.
  - cbn [map JS.join length]. rewrite length_app. simpl. lia.
  - change (JS.join (js ",") (map quoteJSONString (x :: y :: a))) with
      (quoteJSONString x ++ js ","
       ++ JS.join (js ",") (map quoteJSONString (y :: a))).
    specialize (IH y). rewrite <- !app_assoc, length_app, length_app.
    cbn [length] in *. simpl (length (js ",")). lia.
Qed.

Lemma JSON_parse_stringify (a : list jsstring) :
  JSON_parse (JSON_stringify a) = Some a.
Proof.
  destruct a as [|x a]; [reflexivity|].
  pose proof (@elements_stringify a x _ (join_quoted_length x a)) as Ht.
  unfold JSON_stringify. change (js "[") with [91%N]. cbn [app].
  unfold JSON_parse. cbn [N.eqb Pos.eqb]. rewrite Ht.
  destruct a as [|y a]; reflexivity.
Qed.

(* ================================================================== *)
(** ** Properties of the handler *)
(* ================================================================== *)

Section Properties.

Context {host : Host}.

Variables (rootPath : jsstring) (icons : value) (stylesheet : jsstring)
          (template : Template) (view : jsstring).

Local Notation "'serve'" := (handler rootPath icons stylesheet template view).

(** C10.  [serveIndex(root, options)] with a falsy [root] (missing, empty
    string, null, ...) throws a [TypeError] synchronously and returns no
    handler. *)
Theorem serveIndex_requires_root (root : value) (options : option Options) :
  truthy root = false ->
  serveIndex root options =
  inl (TypeError (js "serveIndex() root path required")).
Proof.
  intros Hfalsy. unfold serveIndex. rewrite Hfalsy. reflexivity.
Qed.

(** C8.  For a GET or HEAD request that passes the path checks, the
    outcome of the [fs.stat] on the target decides: a missing target and a
    target that is not a directory decline with [next()], no error; any
    other stat failure is passed to [next] with status 500, except
    ENAMETOOLONG, which gets status 414.  Nothing but that one stat
    touches the file system. *)
Theorem target_stat_outcome (req : Request) (sched : list nat)
  (dir originalDir : jsstring) :
  Resolves rootPath req dir originalDir ->
  let path := candidate rootPath dir in
  match fs_stat path with
  | inl err =>
      if codeIs err (js "ENOENT") then
        serve req sched = ([Stat path], NextCalled None)
      else
        serve req sched =
        ([Stat path],
         NextCalled
           (Some (mkError (message err) (code err)
                    (Some (if codeIs err (js "ENAMETOOLONG")
                           then 414 else 500)%N))))
  | inr st =>
      isDirectory st = false ->
      serve req sched = ([Stat path], NextCalled None)
  end.
Proof.
  intros Hres path.
  rewrite (handler_resolves icons stylesheet template view sched Hres).
  fold path.
  cbv zeta.
  destruct (fs_stat path) as [err|st].
  - destruct (codeIs err (js "ENOENT")); reflexivity.
  - intros ->. reflexivity.
Qed.

(** C1 (amended).  A request whose decoded path gives a candidate outside
    the root never reaches the file system, whatever its method, and
    nothing but an empty body is ever sent for it.  When it is a GET or a
    HEAD, its original path decodes as well and the candidate has no NUL,
    the handler calls [next] with a 403 error. *)
Theorem outside_root_forbidden (req : Request) (sched : list nat)
  (dir : jsstring) :
  decodeURIComponent (pathname req) = Some dir ->
  outsideRoot rootPath (candidate rootPath dir) = true ->
  fst (serve req sched) = [] /\
  (forall r, snd (serve req sched) = Ended r -> body r = []) /\
  (getOrHead req = true ->
   decodeURIComponent (originalPathname req) <> None ->
   hasNul (candidate rootPath dir) = false ->
   serve req sched = ([], NextCalled (Some (createError 403)))).
Proof.
  intros Hd Hout.
  destruct (getOrHead req) eqn:Hm.
  - unfold handler. rewrite getOrHead_gate, Hm, Hd. simpl negb. cbv iota.
    destruct (decodeURIComponent (originalPathname req)) as [originalDir|].
    + destruct (hasNul (candidate rootPath dir)).
      * repeat split; intros; discriminate.
      * rewrite Hout. repeat split; intros; discriminate.
    + repeat split; intros; try discriminate; congruence.
  - destruct (handler_other_method rootPath icons stylesheet template view
                                   req sched Hm) as (r & -> & Hb & _).
    repeat split; try discriminate.
    intros r' E. injection E as <-. exact Hb.
Qed.

(** C4 (amended).  A request whose candidate path contains a NUL never
    reaches the file system, whatever its method.  When it is a GET or a
    HEAD and its original path decodes as well, the handler calls [next]
    with a 400 error. *)
Theorem nul_bad_request (req : Request) (sched : list nat) (dir : jsstring) :
  decodeURIComponent (pathname req) = Some dir ->
  In 0%N (candidate rootPath dir) ->
  fst (serve req sched) = [] /\
  (getOrHead req = true ->
   decodeURIComponent (originalPathname req) <> None ->
   serve req sched = ([], NextCalled (Some (createError 400)))).
Proof.
  intros Hd Hnul. apply hasNul_spec in Hnul.
  destruct (getOrHead req) eqn:Hm.
  - unfold handler. rewrite getOrHead_gate, Hm, Hd. simpl negb. cbv iota.
    destruct (decodeURIComponent (originalPathname req)) as [originalDir|].
    + rewrite Hnul. split; reflexivity.
    + split; [reflexivity|]. intros _ Hn; congruence.
  - destruct (handler_other_method rootPath icons stylesheet template view
                                   req sched Hm) as (r & -> & _ & _).
    split; [reflexivity | discriminate].
Qed.

(** C2 (amended).  For a GET or HEAD request one of whose paths is not a
    valid percent-encoding, [decodeURIComponent] throws and the [URIError]
    leaves the handler: [next] is not called, nothing is sent, the file
    system is not touched. *)
Theorem malformed_path_throws (req : Request) (sched : list nat) :
  getOrHead req = true ->
  decodeURIComponent (pathname req) = None \/
  decodeURIComponent (originalPathname req) = None ->
  serve req sched = ([], Thrown URIError).
Proof.
  intros Hm Hbad. unfold handler. rewrite getOrHead_gate, Hm.
  simpl negb. cbv iota.
  destruct (decodeURIComponent (pathname req)) as [dir|]; [|reflexivity].
  destruct Hbad as [Hbad|Hbad]; [discriminate|].
  rewrite Hbad. reflexivity.
Qed.

(** C9.  On a directory that can be listed, with the names read from
    it sorted in ascending order of their code units: when the
    negotiation selects [application/json] the response is a 200 whose
    body is the JSON array of the sorted names (decoding it gives them
    back); when it selects [text/plain] it is a 200 whose body is the
    sorted names joined with a newline, plus a final newline; both carry
    the media type and the byte length of the body in their headers.
    When no offered type is acceptable the handler calls [next] with a
    406 error and sends nothing. *)
Theorem negotiated_body (req : Request) (sched : list nat)
  (dir originalDir : jsstring) (files : list jsstring) :
  Lists rootPath req dir originalDir files ->
  let path := candidate rootPath dir in
  let names := sort files in
  Sorted str_le names /\ Permutation files names /\
  (accepts_type (accept req) mediaTypes = Some (js "application/json") ->
   exists r,
     serve req sched = ([Stat path; Readdir path], Ended r) /\
     body r = JSON_stringify names /\
     JSON_parse (body r) = Some names /\
     statusCode r = 200%N /\
     headers r =
     [(js "X-Content-Type-Options", HStr (js "nosniff"));
      (js "Content-Type", HStr (js "application/json; charset=utf-8"));
      (js "Content-Length", HNum (byteLength (body r)))]) /\
  (accepts_type (accept req) mediaTypes = Some (js "text/plain") ->
   exists r,
     serve req sched = ([Stat path; Readdir path], Ended r) /\
     body r = JS.join [10%N] names ++ [10%N] /\
     statusCode r = 200%N /\
     headers r =
     [(js "X-Content-Type-Options", HStr (js "nosniff"));
      (js "Content-Type", HStr (js "text/plain; charset=utf-8"));
      (js "Content-Length", HNum (byteLength (body r)))]) /\
  (accepts_type (accept req) mediaTypes = None ->
   exists e,
     serve req sched = ([Stat path; Readdir path], NextCalled (Some e)) /\
     e = createError 406 /\ status e = Some 406%N).
Proof.
  intros Hls path names.
  split; [apply sort_sorted|]. split; [apply sort_perm|].
  rewrite (handler_lists icons stylesheet template view sched Hls).
  fold path. cbv zeta.
  split; [|split]; intros ->.
  - eexists. split; [reflexivity|]. split; [reflexivity|].
    split; [apply JSON_parse_stringify|]. split; reflexivity.
  - eexists. split; [reflexivity|]. repeat split.
  - eexists. split; [reflexivity|]. split; reflexivity.
Qed.

(** C5.  On a directory that can be listed, the names of the response
    are the names read from the directory, sorted in ascending
    lexicographic order of their code units: they are the body of the
    JSON and of the plain response.  For HTML the renderer is given those
    names, after the synthetic [..] when the show-parent flag is set: it
    is never given another list, it is called whenever no entry fails
    with an error other than ENOENT and the stylesheet is read, and the
    body of the response of the default renderer is computed from that
    file list. *)
Theorem listing_sorted (req : Request) (sched : list nat)
  (dir originalDir : jsstring) (files : list jsstring) :
  Lists rootPath req dir originalDir files ->
  let path := candidate rootPath dir in
  let names := sort files in
  let shown := if showUpOf rootPath path then js ".." :: names else names in
  Sorted str_le names /\ Permutation files names /\
  (accepts_type (accept req) mediaTypes = Some (js "application/json") ->
   exists r,
     snd (serve req sched) = Ended r /\ body r = JSON_stringify names /\
     JSON_parse (body r) = Some names) /\
  (accepts_type (accept req) mediaTypes = Some (js "text/plain") ->
   exists r,
     snd (serve req sched) = Ended r /\
     body r = JS.join [10%N] names ++ [10%N]) /\
  (accepts_type (accept req) mediaTypes = Some (js "text/html") ->
   (forall l, In (Render l) (fst (serve req sched)) ->
              renderedNames l = shown) /\
   (forallb (tolerated path) shown = true ->
    forall style,
      fs_readFile stylesheet = inr style ->
      let locals :=
        mkLocals originalDir (truthy icons)
                 (map (fun file => mkEntry file (Some (entryStat path file)))
                      shown)
                 path style view in
      In (Render locals) (fst (serve req sched)) /\
      renderedNames locals = shown /\
      (forall p str,
         template = TemplatePath p -> fs_readFile p = inr str ->
         match @createHtmlFileList host host_formats (fileList locals)
                                   originalDir (truthy icons) view,
               htmlPath originalDir with
         | Some markup, Some linked =>
             exists r,
               snd (serve req sched) = Ended r /\
               body r =
               replaceAll (js "{linked-path}") linked
                 (replaceAll (js "{directory}") (escapeHtml originalDir)
                    (replaceAll (js "{files}") markup
                       (replaceAll (js "{style}") style str)))
         | _, _ => snd (serve req sched) = Thrown URIError
         end))).
Proof.
  intros Hls path names shown.
  split; [apply sort_sorted|]. split; [apply sort_perm|].
  split; [|split; [|intros Hacc; split]].
  - intros Hacc.
    rewrite (handler_lists icons stylesheet template view sched Hls).
    cbv zeta. rewrite Hacc. eexists. split; [reflexivity|].
    split; [reflexivity|]. apply JSON_parse_stringify.
  - intros Hacc.
    rewrite (handler_lists icons stylesheet template view sched Hls).
    cbv zeta. rewrite Hacc. eexists. split; reflexivity.
  - intros l Hin.
    apply (handler_rendered_names icons stylesheet template view sched l
                                  Hls Hin).
  - intros Htol style Hstyle.
    exact (handler_html_rendered icons stylesheet template view sched
                                 Hls Hacc Htol Hstyle).
Qed.

(** C3 (amended).  For the same request on the same directory, once
    negotiated as JSON and once as HTML, when no entry fails with an
    error other than ENOENT and the stylesheet is read: the JSON body
    serializes the sorted names, and decoding it gives them back; the
    HTML renderer is called, with a file list whose names are those same
    names preceded by [..] when the show-parent flag is set, and the body
    of the response of the default renderer is computed from that file
    list.  Only [serveIndex.html] prepends [..]: the JSON body holds it
    only if the directory read returned it, and when the flag is set the
    list decoded from the JSON body is not the list of the renderer. *)
Theorem json_names_and_html_names (req : Request) (aj ah : option jsstring)
  (sched sched' : list nat) (dir originalDir : jsstring)
  (files : list jsstring) (style : jsstring) :
  Lists rootPath req dir originalDir files ->
  accepts_type aj mediaTypes = Some (js "application/json") ->
  accepts_type ah mediaTypes = Some (js "text/html") ->
  let path := candidate rootPath dir in
  let shown :=
    if showUpOf rootPath path then js ".." :: sort files else sort files in
  let locals :=
    mkLocals originalDir (truthy icons)
             (map (fun file => mkEntry file (Some (entryStat path file)))
                  shown)
             path style view in
  forallb (tolerated path) shown = true ->
  fs_readFile stylesheet = inr style ->
  Sorted str_le (sort files) /\ Permutation files (sort files) /\
  (exists r,
     snd (serve (withAccept req aj) sched) = Ended r /\
     body r = JSON_stringify (sort files) /\
     JSON_parse (body r) = Some (sort files) /\
     (~ In (js "..") files ->
      forall names, JSON_parse (body r) = Some names ->
                    ~ In (js "..") names) /\
     (showUpOf rootPath path = true ->
      JSON_parse (body r) <> Some (renderedNames locals))) /\
  In (Render locals) (fst (serve (withAccept req ah) sched')) /\
  renderedNames locals = shown /\
  (forall l,
     In (Render l) (fst (serve (withAccept req ah) sched')) ->
     renderedNames l = shown) /\
  (forall p str,
     template = TemplatePath p -> fs_readFile p = inr str ->
     match @createHtmlFileList host host_formats (fileList locals)
                               originalDir (truthy icons) view,
           htmlPath originalDir with
     | Some markup, Some linked =>
         exists r,
           snd (serve (withAccept req ah) sched') = Ended r /\
           body r =
           replaceAll (js "{linked-path}") linked
             (replaceAll (js "{directory}") (escapeHtml originalDir)
                (replaceAll (js "{files}") markup
                   (replaceAll (js "{style}") style str)))
     | _, _ => snd (serve (withAccept req ah) sched') = Thrown URIError
     end).
Proof.
  intros Hls Hj Hh path shown locals Htol Hstyle.
  pose proof (Lists_withAccept aj Hls) as Hlsj.
  pose proof (Lists_withAccept ah Hls) as Hlsh.
  destruct (handler_html_rendered icons stylesheet template view sched'
                                  Hlsh Hh Htol Hstyle)
    as (Hin & Hnames & Hbody).
  fold path shown locals in Hin, Hnames, Hbody.
  split; [apply sort_sorted|]. split; [apply sort_perm|].
  split; [|split; [exact Hin|split; [exact Hnames|split; [|exact Hbody]]]].
  - rewrite (handler_lists icons stylesheet template view sched Hlsj).
    cbv zeta. simpl accept. rewrite Hj.
    eexists. split; [reflexivity|]. split; [reflexivity|].
    cbn [serveIndex_json body send end_with].
    rewrite JSON_parse_stringify.
    split; [reflexivity|]. split.
    + intros Hnot names E. apply some_eq in E. subst names.
      rewrite sort_in. exact Hnot.
    + intros Hup E. apply some_eq in E.
      rewrite Hnames in E. unfold shown in E. rewrite Hup in E.
      apply (f_equal (@length jsstring)) in E. cbn [length] in E. lia.
  - intros l Hl.
    apply (handler_rendered_names icons stylesheet template view sched' l
                                  Hlsh Hl).
Qed.

(** C6.  The show-parent flag is set exactly when the candidate, made
    absolute, with a separator appended and normalized, differs from the
    root.  It is the flag [serveIndex.html] is called with, and it alone
    decides whether [..] is put before the sorted names; at the root the
    listing has no [..] entry (a directory read never yields one). *)
Theorem showUp_iff_not_root (req : Request) (sched : list nat)
  (dir originalDir : jsstring) (files : list jsstring) :
  Lists rootPath req dir originalDir files ->
  let path := candidate rootPath dir in
  let showUp := showUpOf rootPath path in
  (showUp = true <-> normalize (resolve path ++ sep) <> rootPath) /\
  (accepts_type (accept req) mediaTypes = Some (js "text/html") ->
   serve req sched =
   let (evs, out) :=
     serveIndex_html res0 (sort files) originalDir showUp icons path view
                     template stylesheet sched in
   ([Stat path; Readdir path] ++ evs, out)) /\
  (forall l,
     In (Render l) (fst (serve req sched)) ->
     renderedNames l = if showUp then js ".." :: sort files else sort files) /\
  (normalize (resolve path ++ sep) = rootPath ->
   ~ In (js "..") files ->
   forall l,
     In (Render l) (fst (serve req sched)) ->
     ~ In (js "..") (renderedNames l)).
Proof.
  intros Hls path showUp.
  assert (Hflag : showUp = true <-> normalize (resolve path ++ sep) <> rootPath).
  { unfold showUp, showUpOf. rewrite negb_true_iff. apply str_eqb_neq. }
  split; [exact Hflag|]. split; [|split].
  - intros Hacc.
    apply (handler_html icons stylesheet template view sched Hls Hacc).
  - intros l Hin.
    apply (handler_rendered_names icons stylesheet template view sched l
                                  Hls Hin).
  - intros Hroot Hnot l Hin.
    rewrite (handler_rendered_names icons stylesheet template view sched l
                                    Hls Hin).
    fold path. fold showUp.
    destruct showUp.
    + exfalso. apply (proj1 Hflag); [reflexivity | exact Hroot].
    + rewrite sort_in. exact Hnot.
Qed.

(** C7.  [stat(dir, files, cb)], for every order in which the per-entry
    stats complete.  When no entry fails with an error other than ENOENT,
    every entry is stat'ed and the array handed to [cb] has, at the
    position of each name, the stats of that name, or [null] when its stat
    failed with ENOENT.  Otherwise [cb] receives the error of an entry
    whose stat failed with another code, and no array. *)
Theorem stat_positional (dir : jsstring) (files : list jsstring)
  (sched : list nat) :
  if forallb (tolerated dir) files then
    stat dir files sched =
    (map (fun file => Stat (join [dir; file])) files,
     Some (inr (map (fun file =>
                       Some match fs_stat (join [dir; file]) with
                            | inr st => Some st
                            | inl _ => None
                            end) files)))
  else
    exists file err,
      In file files /\ fs_stat (join [dir; file]) = inl err /\
      codeIs err (js "ENOENT") = false /\
      snd (stat dir files sched) = Some (inl err).
Proof. exact (stat_spec dir files sched). Qed.

End Properties.

(* ================================================================== *)
(** ** Further facts: the event loop, the effects of the handler *)
(* ================================================================== *)

Module BatchBound.

Import Batch.

Section BatchBound.

Variables Ev E R : Type.
Variable fns : list (fn Ev E R).
Variable n : nat.
Hypothesis concurrency_pos : 1 <= n.

Local Notation "'state'" := (Batch.state Ev E R).
Local Notation "'Inv'" := (Batch.Inv fns n).

(** A completion frees one place and fills at most one. *)
Lemma complete_running_le (k : nat) (st : state) :
  Inv st -> running st <> [] ->
  length (running (complete fns k st)) <= length (running st).
Proof.
  intros HI Hne.
  destruct (@BatchFacts.complete_pick _ _ _ fns n concurrency_pos k st Hne)
    as (i & Hi & ->).
  assert (F1 : S (length (running (drop i st))) = length (running st))
    by (apply filter_neq_length; [apply (inv_nodup HI) | exact Hi]).
  unfold callback, next, drop in *. fields.
  destruct (nth_error fns i) as [[ev arg]|]; fields; [|lia].
  destruct (done st); fields; [lia|].
  destruct arg as [err|res]; fields; [lia|].
  destruct (Nat.pred (pending st) =? 0); fields; [lia|].
  destruct (nth_error fns (index st)) as [[ev' a']|]; fields;
    rewrite ?length_app; cbn [length]; lia.
Qed.

Lemma run_bounded (fuel : nat) :
  forall (sched : list nat) (st : state),
    Inv st -> length (running st) <= n ->
    length (running (run fns fuel sched st)) <= n.
Proof.
  induction fuel as [|fuel IH]; intros sched st HI Hle; simpl; [exact Hle|].
  destruct (running st) as [|r0 rs] eqn:Erun; [rewrite Erun; simpl; lia|].
  assert (Hne : running st <> []) by congruence.
  destruct (@BatchFacts.complete_inv _ _ _ fns n concurrency_pos
                                     (hd 0 sched) st HI Hne) as [HI' _].
  apply IH; [exact HI'|].
  pose proof (complete_running_le (hd 0 sched) HI Hne) as Hstep.
  rewrite Erun in Hstep. lia.
Qed.

(** After any number of completions, at most [n] functions are running. *)
Lemma running_bounded (fuel : nat) (sched : list nat) :
  length (running (run fns fuel sched (start fns n))) <= n.
Proof.
  destruct (@BatchFacts.start_inv _ _ _ fns n concurrency_pos) as [HI0 _].
  apply run_bounded; [exact HI0|].
  destruct (Nat.eq_dec (length fns) 0) as [Hz|Hnz].
  - rewrite (@BatchFacts.start_empty _ _ _ fns n)
      by (apply length_zero_iff_nil; exact Hz).
    simpl; lia.
  - rewrite (@BatchFacts.start_nonempty _ _ _ fns n concurrency_pos) by lia.
    simpl. rewrite length_seq. lia.
Qed.

End BatchBound.

End BatchBound.

Section EffectFacts.

Context {host : Host}.

(** The stats of [stat] are those of a prefix of the names, in order. *)
Lemma stat_issued_prefix (dir : jsstring) (files : list jsstring)
  (sched : list nat) :
  exists k,
    fst (stat dir files sched) =
    map (fun file => Stat (join [dir; file])) (firstn k files).
Proof.
  unfold stat, statBatch. simpl.
  assert (Hn : 1 <= 10) by lia.
  destruct (BatchFacts.end_issued (map (statTask dir) files) Hn sched)
    as [k ->].
  exists k. rewrite firstn_map, map_map. reflexivity.
Qed.

Lemma stat_issued_entries (dir : jsstring) (files : list jsstring)
  (sched : list nat) (e : event) :
  In e (fst (stat dir files sched)) ->
  exists file, In file files /\ e = Stat (join [dir; file]).
Proof.
  destruct (stat_issued_prefix dir files sched) as [k ->].
  intros Hin. apply in_map_iff in Hin. destruct Hin as (file & <- & Hin).
  exists file. split; [eapply firstn_in; exact Hin | reflexivity].
Qed.

(** The effects of [serveIndex.html]. *)
Lemma serveIndex_html_events (res : Response) (files : list jsstring)
  (dir : jsstring) (showUp : bool) (icons : value) (path view : jsstring)
  (template : Template) (stylesheet : jsstring) (sched : list nat)
  (e : event) :
  In e (fst (serveIndex_html res files dir showUp icons path view template
                             stylesheet sched)) ->
  (exists name,
     In name (if showUp then js ".." :: files else files) /\
     e = Stat (join [path; name])) \/
  e = ReadFile stylesheet \/
  (exists t, template = TemplatePath t /\ e = ReadFile t) \/
  (exists l, e = Render l).
Proof.
  unfold serveIndex_html.
  set (names := if showUp then js ".." :: files else files).
  pose proof (stat_issued_entries path names sched) as Hstat.
  destruct (stat path names sched) as [evs answer]. cbn [fst] in Hstat.
  assert (Hevs : forall tl,
            In e (evs ++ tl) ->
            (exists name, In name names /\ e = Stat (join [path; name])) \/
            In e tl).
  { intros tl Hin. apply in_app_or in Hin.
    destruct Hin as [Hin|Hin]; [left; apply Hstat; exact Hin | right; exact Hin]. }
  destruct answer as [[err|stats]|]; cbn [fst].
  - intros Hin. left. apply Hstat; exact Hin.
  - destruct (fs_readFile stylesheet) as [err|style]; cbn [fst].
    + intros Hin. apply Hevs in Hin. destruct Hin as [Hin|[<-|[]]]; auto.
    + destruct template as [t|f]; unfold createHtmlRender; cbv zeta.
      * destruct (fs_readFile t);
          [|match goal with
            | |- context [templateBody ?a ?b] => destruct (templateBody a b)
            end];
          cbv beta iota; cbn [fst];
          rewrite <- app_assoc; intros Hin; apply Hevs in Hin;
          destruct Hin as [Hin|Hin]; auto;
          destruct Hin as [<-|[<-|[<-|[]]]]; eauto 6.
      * match goal with |- context [f ?l] => destruct (f l) end;
          cbv beta iota; cbn [fst];
          rewrite <- app_assoc; intros Hin; apply Hevs in Hin;
          destruct Hin as [Hin|Hin]; auto;
          destruct Hin as [<-|[<-|[]]]; eauto 6.
  - intros Hin. left. apply Hstat; exact Hin.
Qed.

(** Whatever [serveIndex.html] passes to [next] is an error, and one the
    file system or the render function produced. *)
Lemma serveIndex_html_errors (res : Response) (files : list jsstring)
  (dir : jsstring) (showUp : bool) (icons : value) (path view : jsstring)
  (template : Template) (stylesheet : jsstring) (sched : list nat)
  (oe : option Error) :
  snd (serveIndex_html res files dir showUp icons path view template
                       stylesheet sched) = NextCalled oe ->
  exists e,
    oe = Some e /\
    ((exists name,
        In name (if showUp then js ".." :: files else files) /\
        fs_stat (join [path; name]) = inl e /\
        codeIs e (js "ENOENT") = false) \/
     fs_readFile stylesheet = inl e \/
     (exists t, template = TemplatePath t /\ fs_readFile t = inl e) \/
     (exists f l, template = TemplateFn f /\ f l = inl e)).
Proof.
  pose proof (serveIndex_html_spec res files dir showUp icons path view
                                   template stylesheet sched) as Hspec.
  cbv zeta in Hspec.
  set (names := if showUp then js ".." :: files else files) in *.
  destruct (forallb (tolerated path) names).
  - rewrite Hspec. clear Hspec.
    destruct (fs_readFile stylesheet) as [err|style] eqn:Hstyle.
    + cbn [snd]. intros E; injection E as <-.
      exists err. split; [reflexivity|]. right; left; reflexivity.
    + destruct template as [t|f]; unfold createHtmlRender;
        cbv beta iota zeta delta [snd].
      * destruct (fs_readFile t) as [err|str] eqn:Ht;
          [|match goal with
            | |- context [templateBody ?a ?b] => destruct (templateBody a b)
            end; discriminate].
        intros E; injection E as <-.
        exists err. split; [reflexivity|]. right; right; left.
        exists t. split; [reflexivity | exact Ht].
      * match goal with |- context [f ?l] =>
          destruct (f l) as [err|b] eqn:Hf end; [|discriminate].
        intros E; injection E as <-.
        exists err. split; [reflexivity|]. right; right; right.
        eexists f, _. split; [reflexivity | exact Hf].
  - destruct Hspec as (name & err & Hin & Hst & Hcode & Hsnd & _).
    rewrite Hsnd. intros E; injection E as <-.
    exists err. split; [reflexivity|]. left.
    exists name. auto.
Qed.

(** When no entry fails with an error other than ENOENT, the order of
    completion cannot be observed. *)
Lemma serveIndex_html_any_order (res : Response) (files : list jsstring)
  (dir : jsstring) (showUp : bool) (icons : value) (path view : jsstring)
  (template : Template) (stylesheet : jsstring) (sched sched' : list nat) :
  forallb (tolerated path) (if showUp then js ".." :: files else files)
  = true ->
  serveIndex_html res files dir showUp icons path view template stylesheet
                  sched =
  serveIndex_html res files dir showUp icons path view template stylesheet
                  sched'.
Proof.
  intros Htol.
  pose proof (serveIndex_html_spec res files dir showUp icons path view
                                   template stylesheet sched) as H1.
  pose proof (serveIndex_html_spec res files dir showUp icons path view
                                   template stylesheet sched') as H2.
  cbv zeta in H1, H2. rewrite Htol in H1, H2. rewrite H1, H2. reflexivity.
Qed.

End EffectFacts.

Lemma firstn_length_prefix {A : Type} (r l : list A) :
  firstn (length r) l = r <-> exists rest, l = r ++ rest.
Proof.
  split.
  - intros E. exists (skipn (length r) l).
    rewrite <- E at 1. symmetry. apply firstn_skipn.
  - intros [rest ->]. rewrite firstn_app, Nat.sub_diag, firstn_all.
    simpl. apply app_nil_r.
Qed.

Section EffectFacts2.

Context {host : Host}.

(** A body is sent by [serveIndex.html] through [send], as [text/html]. *)
Lemma serveIndex_html_sent (res : Response) (files : list jsstring)
  (dir : jsstring) (showUp : bool) (icons : value) (path view : jsstring)
  (template : Template) (stylesheet : jsstring) (sched : list nat)
  (r : Response) :
  snd (serveIndex_html res files dir showUp icons path view template
                       stylesheet sched) = Ended r ->
  exists b, r = send res (js "text/html") b.
Proof.
  pose proof (serveIndex_html_spec res files dir showUp icons path view
                                   template stylesheet sched) as Hspec.
  cbv zeta in Hspec.
  destruct (forallb (tolerated path)
                    (if showUp then js ".." :: files else files)).
  - rewrite Hspec. clear Hspec.
    destruct (fs_readFile stylesheet) as [err|style]; [discriminate|].
    destruct template as [t|f]; unfold createHtmlRender;
      cbv beta iota zeta delta [snd].
    + destruct (fs_readFile t); [discriminate|].
      match goal with
      | |- context [templateBody ?a ?b] => destruct (templateBody a b)
      end; [|discriminate].
      intros E; injection E as <-. eexists; reflexivity.
    + match goal with |- context [f ?l] => destruct (f l) end;
        [discriminate|].
      intros E; injection E as <-. eexists; reflexivity.
  - destruct Hspec as (name & err & _ & _ & _ & Hsnd & _).
    rewrite Hsnd. discriminate.
Qed.

(** The locals the renderer is given. *)
Lemma serveIndex_html_rendered (res : Response) (files : list jsstring)
  (dir : jsstring) (showUp : bool) (icons : value) (path view : jsstring)
  (template : Template) (stylesheet : jsstring) (sched : list nat)
  (l : Locals) :
  In (Render l)
     (fst (serveIndex_html res files dir showUp icons path view template
                           stylesheet sched)) ->
  exists style,
    fs_readFile stylesheet = inr style /\
    l = mkLocals dir (truthy icons)
          (map (fun file => mkEntry file (Some (entryStat path file)))
               (if showUp then js ".." :: files else files))
          path style view.
Proof.
  pose proof (serveIndex_html_spec res files dir showUp icons path view
                                   template stylesheet sched) as Hspec.
  cbv zeta in Hspec.
  set (names := if showUp then js ".." :: files else files) in *.
  destruct (forallb (tolerated path) names).
  - rewrite Hspec. clear Hspec.
    assert (Hstats : forall evs,
              In (Render l)
                 (map (fun file => Stat (join [path; file])) names ++ evs) ->
              In (Render l) evs).
    { intros evs Hin. apply in_app_or in Hin. destruct Hin as [Hin|Hin];
        [|exact Hin].
      apply in_map_iff in Hin. destruct Hin as (file & E & _). discriminate. }
    destruct (fs_readFile stylesheet) as [err|style].
    + cbn [fst]. intros Hin. apply Hstats in Hin.
      destruct Hin as [E|[]]; discriminate.
    + intros H. exists style. split; [reflexivity|].
      destruct template as [t|f]; unfold createHtmlRender in H;
        cbv beta iota zeta delta [fst] in H;
        rewrite <- app_assoc in H; apply Hstats in H; simpl in H.
      * destruct H as [E|[E|[E|[]]]]; try discriminate. congruence.
      * destruct H as [E|[E|[]]]; try discriminate. congruence.
  - destruct Hspec as (file & err & _ & _ & _ & _ & Hev).
    intros Hin. apply Hev in Hin. destruct Hin as [p E]. discriminate.
Qed.

End EffectFacts2.

(* ================================================================== *)
(** ** Further properties of the handler *)
(* ================================================================== *)

Section Further.

Context {host : Host}.

Variables (rootPath : jsstring) (icons : value) (stylesheet : jsstring)
          (template : Template) (view : jsstring).

Local Notation "'serve'" := (handler rootPath icons stylesheet template view).

(** X1.  A request whose method is neither GET nor HEAD is answered at
    once, whatever its path: status 200 for OPTIONS and 405 otherwise,
    [Allow: GET, HEAD, OPTIONS], a zero [Content-Length], no body; the
    file system is not touched and [next] is not called. *)
Theorem other_methods_answered (req : Request) (sched : list nat) :
  getOrHead req = false ->
  serve req sched =
  ([], Ended (mkResponse
                (if str_eqb (js "OPTIONS") (method req) then 200 else 405)%N
                [(js "Allow", HStr (js "GET, HEAD, OPTIONS"));
                 (js "Content-Length", HStr (js "0"))] [])).
Proof.
  intros Hm. unfold handler. rewrite getOrHead_gate, Hm. reflexivity.
Qed.

(** X2.  Every error the handler passes to [next] is one of: the 400 it
    creates for a candidate with a NUL; the 403 it creates for a candidate
    outside the root; the error of the stat of the candidate, with its
    status set to 414 (ENAMETOOLONG) or 500; the error of the readdir of
    the candidate, as it is; the 406 it creates when no type is
    acceptable; the error, other than ENOENT, of the stat of an entry of
    the candidate, as it is; the error of the read of the stylesheet or
    of the template, as it is; or the error of the render function, as it
    is. *)
Theorem errors_passed_to_next (req : Request) (sched : list nat) (e : Error) :
  snd (serve req sched) = NextCalled (Some e) ->
  exists dir,
    decodeURIComponent (pathname req) = Some dir /\
    (let path := candidate rootPath dir in
     (e = createError 400 /\ hasNul path = true) \/
     (e = createError 403 /\ outsideRoot rootPath path = true) \/
     (exists err,
        fs_stat path = inl err /\ codeIs err (js "ENOENT") = false /\
        e = mkError (message err) (code err)
              (Some (if codeIs err (js "ENAMETOOLONG")
                     then 414 else 500)%N)) \/
     fs_readdir path = inl e \/
     (exists files,
        fs_readdir path = inr files /\
        ((e = createError 406 /\
          accepts_type (accept req) mediaTypes = None) \/
         (exists name,
            (In name files \/ name = js "..") /\
            fs_stat (join [path; name]) = inl e /\
            codeIs e (js "ENOENT") = false) \/
         fs_readFile stylesheet = inl e \/
         (exists t, template = TemplatePath t /\ fs_readFile t = inl e) \/
         (exists f l, template = TemplateFn f /\ f l = inl e)))).
Proof.
  unfold handler.
  destruct (negb (str_eqb (method req) (js "GET"))
            && negb (str_eqb (method req) (js "HEAD"))); [discriminate|].
  destruct (decodeURIComponent (pathname req)) as [dir|]; [|discriminate].
  destruct (decodeURIComponent (originalPathname req)) as [originalDir|];
    [|discriminate].
  intros Hnext. exists dir. split; [reflexivity|]. cbv zeta. revert Hnext.
  destruct (hasNul (candidate rootPath dir)) eqn:Hnul;
    [intros E; injection E as <-; auto|].
  destruct (outsideRoot rootPath (candidate rootPath dir)) eqn:Hout;
    [intros E; injection E as <-; auto|].
  destruct (fs_stat (candidate rootPath dir)) as [err|st] eqn:Hst.
  - destruct (codeIs err (js "ENOENT")) eqn:Hcode; [discriminate|].
    intros E; injection E as <-.
    right; right; left. exists err. auto.
  - destruct (negb (isDirectory st)); [discriminate|].
    destruct (fs_readdir (candidate rootPath dir)) as [err|files] eqn:Hls.
    + intros E; injection E as <-. do 3 right. left. reflexivity.
    + intros Hnext. do 4 right. exists files. split; [reflexivity|].
      revert Hnext.
      destruct (accepts_type (accept req) mediaTypes) as [type|];
        [|intros E; injection E as <-; auto].
      destruct (str_eqb _ (js "html")).
      * pose proof (@serveIndex_html_errors host res0 (sort files)
                      originalDir
                      (showUpOf rootPath (candidate rootPath dir)) icons
                      (candidate rootPath dir) view template stylesheet
                      sched (Some e)) as Herr.
        destruct (serveIndex_html res0 (sort files) originalDir
                    (showUpOf rootPath (candidate rootPath dir)) icons
                    (candidate rootPath dir) view template stylesheet sched)
          as [evs out].
        cbn [snd] in *. intros E. destruct (Herr E) as (e' & Ee & Hcases).
        injection Ee as <-.
        destruct Hcases as [(name & Hin & Hs & Hc)|[Hf|[Ht|Hfn]]].
        -- right; left. exists name. split; [|split; assumption].
           destruct (showUpOf rootPath (candidate rootPath dir)).
           ++ destruct Hin as [<-|Hin]; [right; reflexivity|].
              left. apply sort_in. exact Hin.
           ++ left. apply sort_in. exact Hin.
        -- right; right; left. exact Hf.
        -- right; right; right; left. exact Ht.
        -- right; right; right; right. exact Hfn.
      * destruct (str_eqb _ (js "json")); [discriminate|].
        destruct (str_eqb _ (js "plain")); discriminate.
Qed.

(** X3.  Every response the handler ends is either the empty answer of
    the method gate, or a 200 carrying [X-Content-Type-Options: nosniff],
    one of the three media types with [charset=utf-8], and a
    [Content-Length] equal to the UTF-8 length of the body sent. *)
Theorem ended_response_headers (req : Request) (sched : list nat)
  (r : Response) :
  snd (serve req sched) = Ended r ->
  (body r = [] /\
   (statusCode r = 200 \/ statusCode r = 405)%N /\
   headers r = [(js "Allow", HStr (js "GET, HEAD, OPTIONS"));
                (js "Content-Length", HStr (js "0"))]) \/
  (statusCode r = 200%N /\
   exists type,
     In type mediaTypes /\
     headers r = [(js "X-Content-Type-Options", HStr (js "nosniff"));
                  (js "Content-Type", HStr (type ++ js "; charset=utf-8"));
                  (js "Content-Length", HNum (byteLength (body r)))]).
Proof.
  assert (Hsend : forall type b,
            In type mediaTypes ->
            statusCode (send res0 type b) = 200%N /\
            exists type',
              In type' mediaTypes /\
              headers (send res0 type b) =
              [(js "X-Content-Type-Options", HStr (js "nosniff"));
               (js "Content-Type", HStr (type' ++ js "; charset=utf-8"));
               (js "Content-Length",
                HNum (byteLength (body (send res0 type b))))]).
  { intros type b Hin. split; [reflexivity|]. exists type.
    split; [exact Hin|].
    unfold mediaTypes in Hin.
    destruct Hin as [<-|[<-|[<-|[]]]]; reflexivity. }
  unfold handler.
  destruct (negb (str_eqb (method req) (js "GET"))
            && negb (str_eqb (method req) (js "HEAD"))).
  - intros E; injection E as <-. left.
    split; [reflexivity|]. split; [|reflexivity].
    cbn [statusCode end_with setHeader].
    match goal with
    | |- context [if ?b then _ else _] => destruct b
    end; [left | right]; reflexivity.
  - destruct (decodeURIComponent (pathname req)) as [dir|]; [|discriminate].
    destruct (decodeURIComponent (originalPathname req)) as [originalDir|];
      [|discriminate].
    destruct (hasNul (candidate rootPath dir)); [discriminate|].
    destruct (outsideRoot rootPath (candidate rootPath dir)); [discriminate|].
    destruct (fs_stat (candidate rootPath dir)) as [err|st].
    { destruct (codeIs err (js "ENOENT")); discriminate. }
    destruct (negb (isDirectory st)); [discriminate|].
    destruct (fs_readdir (candidate rootPath dir)) as [err|files];
      [discriminate|].
    destruct (accepts_type (accept req) mediaTypes) as [type|];
      [|discriminate].
    destruct (str_eqb _ (js "html")).
    + pose proof (@serveIndex_html_sent host res0 (sort files) originalDir
                    (showUpOf rootPath (candidate rootPath dir)) icons
                    (candidate rootPath dir) view template stylesheet
                    sched r) as Hsent.
      destruct (serveIndex_html res0 (sort files) originalDir
                  (showUpOf rootPath (candidate rootPath dir)) icons
                  (candidate rootPath dir) view template stylesheet sched)
        as [evs out].
      cbn [snd] in *. intros E. destruct (Hsent E) as [b ->].
      right. apply Hsend. left; reflexivity.
    + destruct (str_eqb _ (js "json")).
      * intros E; injection E as <-. right. apply Hsend.
        right; right; left; reflexivity.
      * destruct (str_eqb _ (js "plain")); [|discriminate].
        intros E; injection E as <-. right. apply Hsend.
        right; left; reflexivity.
Qed.

Lemma outsideRoot_prefix (path : jsstring) :
  outsideRoot rootPath path = false <->
  exists rest, path ++ sep = rootPath ++ rest.
Proof.
  unfold outsideRoot, substr. simpl skipn.
  rewrite negb_false_iff, str_eqb_eq. apply firstn_length_prefix.
Qed.

(** X4.  The test of line 114 lets a candidate through exactly when the
    root is a prefix of the candidate followed by a separator. *)
Theorem inside_root_iff_prefix (path : jsstring) :
  outsideRoot rootPath path = false <->
  exists rest, path ++ sep = rootPath ++ rest.
Proof. exact (outsideRoot_prefix path). Qed.

(** X5.  With a one-unit separator and a root ending in it, the root
    directory itself (named without the separator) and everything below
    it pass the test of line 114, and a sibling whose name merely starts
    like the root does not. *)
Theorem trailing_separator_guard (s : N) (base : jsstring) :
  sep = [s] -> rootPath = base ++ [s] ->
  outsideRoot rootPath base = false /\
  (forall rest, outsideRoot rootPath (rootPath ++ rest) = false) /\
  (forall x rest, x <> s -> outsideRoot rootPath (base ++ x :: rest) = true).
Proof.
  intros Hsep Hroot. split; [|split].
  - apply outsideRoot_prefix. exists []. rewrite Hsep, Hroot.
    symmetry; apply app_nil_r.
  - intros rest. apply outsideRoot_prefix. exists (rest ++ sep).
    symmetry; apply app_assoc.
  - intros x rest Hx.
    destruct (outsideRoot rootPath (base ++ x :: rest)) eqn:Hout;
      [reflexivity|].
    apply outsideRoot_prefix in Hout. destruct Hout as [rest' E].
    rewrite Hroot, <- !app_assoc in E. apply app_inv_head in E.
    simpl in E. injection E as E _. contradiction.
Qed.

(** X6.  The test of line 111, [~path.indexOf('\0')], holds exactly when
    the path contains a NUL unit. *)
Theorem nul_test_iff (path : jsstring) :
  hasNul path = true <-> In 0%N path.
Proof. exact (hasNul_spec path). Qed.

(** X7.  Whatever the request, every effect of the handler is one of:
    the stat or the readdir of the candidate path, the stat of an entry
    of the candidate ([..] or a name [readdir] returned), the read of the
    stylesheet or of the template, or a call of the renderer.  None
    happens unless the request is a GET or a HEAD whose candidate has no
    NUL and passed the root test. *)
Theorem filesystem_containment (req : Request) (sched : list nat)
  (ev : event) :
  In ev (fst (serve req sched)) ->
  exists dir,
    getOrHead req = true /\
    decodeURIComponent (pathname req) = Some dir /\
    hasNul (candidate rootPath dir) = false /\
    outsideRoot rootPath (candidate rootPath dir) = false /\
    (ev = Stat (candidate rootPath dir) \/
     ev = Readdir (candidate rootPath dir) \/
     (exists files name,
        fs_readdir (candidate rootPath dir) = inr files /\
        (In name files \/ name = js "..") /\
        ev = Stat (join [candidate rootPath dir; name])) \/
     ev = ReadFile stylesheet \/
     (exists t, template = TemplatePath t /\ ev = ReadFile t) \/
     (exists l, ev = Render l)).
Proof.
  unfold handler. rewrite getOrHead_gate.
  destruct (getOrHead req); [|intros []]. simpl negb. cbv iota.
  destruct (decodeURIComponent (pathname req)) as [dir|]; [|intros []].
  destruct (decodeURIComponent (originalPathname req)) as [originalDir|];
    [|intros []].
  destruct (hasNul (candidate rootPath dir)) eqn:Hnul; [intros []|].
  destruct (outsideRoot rootPath (candidate rootPath dir)) eqn:Hout;
    [intros []|].
  intros Hin. exists dir.
  split; [reflexivity|]. split; [reflexivity|].
  split; [exact Hnul|]. split; [exact Hout|].
  set (p := candidate rootPath dir) in *.
  assert (Hfirst : forall evs,
            (In ev evs -> ev = Stat p \/ ev = Readdir p) ->
            In ev evs ->
            ev = Stat p \/ ev = Readdir p \/
            (exists files name,
               fs_readdir p = inr files /\
               (In name files \/ name = js "..") /\
               ev = Stat (join [p; name])) \/
            ev = ReadFile stylesheet \/
            (exists t, template = TemplatePath t /\ ev = ReadFile t) \/
            (exists l, ev = Render l))
    by (intros evs H1 H2; destruct (H1 H2); auto).
  assert (H1 : In ev [Stat p] -> ev = Stat p \/ ev = Readdir p)
    by (intros [<-|[]]; auto).
  assert (H2 : In ev [Stat p; Readdir p] -> ev = Stat p \/ ev = Readdir p)
    by (intros [<-|[<-|[]]]; auto).
  destruct (fs_stat p) as [err|st].
  { destruct (codeIs err (js "ENOENT")); exact (Hfirst _ H1 Hin). }
  destruct (negb (isDirectory st)); [exact (Hfirst _ H1 Hin)|].
  destruct (fs_readdir p) as [err|files] eqn:Hls; [exact (Hfirst _ H2 Hin)|].
  destruct (accepts_type (accept req) mediaTypes) as [type|];
    [|exact (Hfirst _ H2 Hin)].
  destruct (str_eqb _ (js "html")).
  - pose proof (@serveIndex_html_events host res0 (sort files) originalDir
                  (showUpOf rootPath p) icons p view template stylesheet
                  sched ev) as Hev.
    destruct (serveIndex_html res0 (sort files) originalDir
                (showUpOf rootPath p) icons p view template stylesheet sched)
      as [evs out].
    cbn [fst] in *. apply in_app_or in Hin.
    destruct Hin as [Hin|Hin]; [destruct (H2 Hin); auto|].
    destruct (Hev Hin) as [(name & Hname & ->)|[->|[Ht|Hl]]]; auto 7.
    right; right; left. exists files, name.
    split; [reflexivity|]. split; [|reflexivity].
    destruct (showUpOf rootPath p).
    + destruct Hname as [<-|Hname]; [right; reflexivity|].
      left. apply sort_in; exact Hname.
    + left. apply sort_in; exact Hname.
  - destruct (str_eqb _ (js "json")); [exact (Hfirst _ H2 Hin)|].
    destruct (str_eqb _ (js "plain")); exact (Hfirst _ H2 Hin).
Qed.

(** X8.  The directory is read at most once, and only after its stat
    has answered that it is a directory: the effects of a request are
    none, or the stat of the candidate alone, or that stat, the readdir
    of the same path, and then no other readdir. *)
Theorem stat_before_readdir (req : Request) (sched : list nat) :
  fst (serve req sched) = [] \/
  exists dir,
    decodeURIComponent (pathname req) = Some dir /\
    (fst (serve req sched) = [Stat (candidate rootPath dir)] \/
     exists st rest,
       fs_stat (candidate rootPath dir) = inr st /\ isDirectory st = true /\
       fst (serve req sched) =
       Stat (candidate rootPath dir) :: Readdir (candidate rootPath dir)
       :: rest /\
       forall q, ~ In (Readdir q) rest).
Proof.
  unfold handler.
  destruct (negb (str_eqb (method req) (js "GET"))
            && negb (str_eqb (method req) (js "HEAD"))); [left; reflexivity|].
  destruct (decodeURIComponent (pathname req)) as [dir|];
    [|left; reflexivity].
  destruct (decodeURIComponent (originalPathname req)) as [originalDir|];
    [|left; reflexivity].
  destruct (hasNul (candidate rootPath dir)); [left; reflexivity|].
  destruct (outsideRoot rootPath (candidate rootPath dir));
    [left; reflexivity|].
  right. exists dir. split; [reflexivity|].
  set (p := candidate rootPath dir) in *.
  destruct (fs_stat p) as [err|st].
  { destruct (codeIs err (js "ENOENT")); left; reflexivity. }
  destruct (isDirectory st) eqn:Hdir; [|left; reflexivity]. simpl negb.
  cbv iota.
  assert (Hnone : forall out : outcome,
            exists st' rest,
              inr st = @inr Error Stats st' /\ isDirectory st' = true /\
              fst ([Stat p; Readdir p], out) = Stat p :: Readdir p :: rest /\
              forall q, ~ In (Readdir q) rest)
    by (intros out; exists st, []; repeat split; auto).
  right.
  destruct (fs_readdir p) as [err|files]; [apply Hnone|].
  destruct (accepts_type (accept req) mediaTypes) as [type|];
    [|apply Hnone].
  destruct (str_eqb _ (js "html")).
  - pose proof (@serveIndex_html_events host res0 (sort files) originalDir
                  (showUpOf rootPath p) icons p view template stylesheet
                  sched) as Hev.
    destruct (serveIndex_html res0 (sort files) originalDir
                (showUpOf rootPath p) icons p view template stylesheet sched)
      as [evs out].
    cbn [fst] in *. exists st, evs. repeat split; auto.
    intros q Hin.
    destruct (Hev _ Hin) as [(name & _ & E)|[E|[(t & _ & E)|(l & E)]]];
      discriminate.
  - destruct (str_eqb _ (js "json")); [apply Hnone|].
    destruct (str_eqb _ (js "plain")); apply Hnone.
Qed.

(** X9.  The response does not depend on the order in which the
    per-entry stats complete, as long as none of them fails with an error
    other than ENOENT: effects and outcome are the same for any two
    schedules. *)
Theorem response_any_order (req : Request) (sched sched' : list nat) :
  (forall dir files,
     decodeURIComponent (pathname req) = Some dir ->
     fs_readdir (candidate rootPath dir) = inr files ->
     forallb (tolerated (candidate rootPath dir))
             (if showUpOf rootPath (candidate rootPath dir)
              then js ".." :: sort files else sort files) = true) ->
  serve req sched = serve req sched'.
Proof.
  intros Htol. unfold handler.
  destruct (negb (str_eqb (method req) (js "GET"))
            && negb (str_eqb (method req) (js "HEAD"))); [reflexivity|].
  destruct (decodeURIComponent (pathname req)) as [dir|]; [|reflexivity].
  specialize (Htol dir).
  destruct (decodeURIComponent (originalPathname req)) as [originalDir|];
    [|reflexivity].
  destruct (hasNul (candidate rootPath dir)); [reflexivity|].
  destruct (outsideRoot rootPath (candidate rootPath dir)); [reflexivity|].
  destruct (fs_stat (candidate rootPath dir)) as [err|st]; [reflexivity|].
  destruct (negb (isDirectory st)); [reflexivity|].
  destruct (fs_readdir (candidate rootPath dir)) as [err|files];
    [reflexivity|].
  specialize (Htol files eq_refl eq_refl).
  destruct (accepts_type (accept req) mediaTypes) as [type|];
    [|reflexivity].
  destruct (str_eqb _ (js "html")); [|reflexivity].
  rewrite (serveIndex_html_any_order res0 (sort files) originalDir
             (showUpOf rootPath (candidate rootPath dir)) icons
             (candidate rootPath dir) view template stylesheet sched sched'
             Htol).
  reflexivity.
Qed.

(** X10.  What the renderer is given for a directory: the display path
    is the decoded path of the original URL, the file-system path is the
    candidate, the style is the text of the stylesheet, and every entry of
    the file list carries the stats of its own path under the candidate,
    [null] when that stat failed with ENOENT, never [undefined]. *)
Theorem rendered_locals (req : Request) (sched : list nat)
  (dir originalDir : jsstring) (files : list jsstring) (l : Locals) :
  Lists rootPath req dir originalDir files ->
  In (Render l) (fst (serve req sched)) ->
  directory l = originalDir /\
  locals_path l = candidate rootPath dir /\
  displayIcons l = truthy icons /\
  viewName l = view /\
  fs_readFile stylesheet = inr (style l) /\
  fileList l =
  map (fun name =>
         mkEntry name
           (Some match fs_stat (join [candidate rootPath dir; name]) with
                 | inr st => Some st
                 | inl _ => None
                 end))
      (if showUpOf rootPath (candidate rootPath dir)
       then js ".." :: sort files else sort files).
Proof.
  intros Hls.
  rewrite (handler_lists icons stylesheet template view sched Hls).
  cbv zeta.
  assert (Hnone : ~ In (Render l)
            [Stat (candidate rootPath dir); Readdir (candidate rootPath dir)])
    by (intros [E|[E|[]]]; discriminate).
  destruct (accepts_type (accept req) mediaTypes) as [type|];
    [|intros Hin; contradiction].
  destruct (str_eqb _ (js "html")).
  - pose proof (@serveIndex_html_rendered host res0 (sort files) originalDir
                  (showUpOf rootPath (candidate rootPath dir)) icons
                  (candidate rootPath dir) view template stylesheet sched l)
      as Hrend.
    destruct (serveIndex_html res0 (sort files) originalDir
                (showUpOf rootPath (candidate rootPath dir)) icons
                (candidate rootPath dir) view template stylesheet sched)
      as [evs out].
    cbn [fst] in *. intros Hin.
    destruct Hin as [E|[E|Hin]]; try discriminate.
    destruct (Hrend Hin) as (style0 & Hstyle & ->).
    repeat split; try reflexivity. exact Hstyle.
  - destruct (str_eqb _ (js "json")); [intros Hin; contradiction|].
    destruct (str_eqb _ (js "plain")); intros Hin; contradiction.
Qed.

(** X11.  [stat(dir, files, cb)] never has more than ten stats in
    flight.  The batch it builds has the concurrency and the functions of
    [statBatch]; [stat] is what the run of that batch gives once every
    completion has been delivered; and after any number of completions of
    that run, in any order, at most ten of the pushed functions have been
    started and have not called back. *)
Theorem stat_at_most_ten (dir : jsstring) (files : list jsstring)
  (steps : nat) (sched : list nat) :
  let (n, fns) := statBatch dir files in
  stat dir files sched =
  (let st := Batch.run fns (length fns) sched (Batch.start fns n) in
   (Batch.issued st, hd_error (Batch.calls st))) /\
  length (Batch.running (Batch.run fns steps sched (Batch.start fns n)))
  <= 10.
Proof.
  unfold stat, statBatch. split; [reflexivity|].
  apply BatchBound.running_bounded. lia.
Qed.

(** X12.  Whatever the order of completion, the stats [stat] issues are
    those of the first [k] names for some [k], in the order of the names:
    no name is stat'ed twice and none is skipped; when no entry fails with
    an error other than ENOENT, all of them are. *)
Theorem stat_issued_in_order (dir : jsstring) (files : list jsstring)
  (sched : list nat) :
  exists k,
    k <= length files /\
    fst (stat dir files sched) =
    map (fun file => Stat (join [dir; file])) (firstn k files) /\
    (forallb (tolerated dir) files = true -> k = length files).
Proof.
  destruct (stat_issued_prefix dir files sched) as [k Hk].
  exists (Nat.min k (length files)).
  assert (Hfirst : firstn (Nat.min k (length files)) files = firstn k files).
  { destruct (Nat.le_ge_cases k (length files)) as [Hle|Hge].
    - rewrite Nat.min_l by exact Hle. reflexivity.
    - rewrite Nat.min_r by exact Hge.
      rewrite firstn_all, firstn_all2 by exact Hge. reflexivity. }
  split; [lia|]. split; [rewrite Hfirst; exact Hk|].
  intros Htol. pose proof (stat_spec dir files sched) as Hspec.
  rewrite Htol in Hspec. rewrite Hspec in Hk. cbn [fst] in Hk.
  apply (f_equal (@length event)) in Hk.
  rewrite !length_map, length_firstn in Hk. lia.
Qed.

End Further.

(* ================================================================== *)
(** ** Facts about the renderer *)
(* ================================================================== *)

Lemma countUnit_app (c : N) (a b : jsstring) :
  countUnit c (a ++ b) = countUnit c a + countUnit c b.
Proof.
  induction a as [|x a IH]; simpl; [reflexivity|]. rewrite IH. lia.
Qed.

Lemma countUnit_quoted (c : N) (s : jsstring) :
  countUnit c (quoted s) = (if (34 =? c)%N then 2 else 0) + countUnit c s.
Proof.
  unfold quoted. rewrite !countUnit_app. cbn [countUnit].
  destruct (34 =? c)%N; lia.
Qed.

(** An escaped text has no angle bracket, no quote and no apostrophe. *)
Lemma escapeHtml_clean (c : N) (s : jsstring) :
  In c [34; 39; 60; 62]%N -> countUnit c (escapeHtml s) = 0.
Proof.
  intros Hc. induction s as [|x s IH]; simpl; [reflexivity|].
  rewrite countUnit_app, IH, Nat.add_0_r.
  destruct (N.eqb_spec x 34); [destruct Hc as [<-|[<-|[<-|[<-|[]]]]]; reflexivity|].
  destruct (N.eqb_spec x 38); [destruct Hc as [<-|[<-|[<-|[<-|[]]]]]; reflexivity|].
  destruct (N.eqb_spec x 39); [destruct Hc as [<-|[<-|[<-|[<-|[]]]]]; reflexivity|].
  destruct (N.eqb_spec x 60); [destruct Hc as [<-|[<-|[<-|[<-|[]]]]]; reflexivity|].
  destruct (N.eqb_spec x 62); [destruct Hc as [<-|[<-|[<-|[<-|[]]]]]; reflexivity|].
  simpl. destruct (N.eqb_spec x c) as [->|Hne]; [|reflexivity].
  destruct Hc as [<-|[<-|[<-|[<-|[]]]]]; congruence.
Qed.

Lemma escapeHtml_no_lt (s : jsstring) : countUnit 60 (escapeHtml s) = 0.
Proof. apply escapeHtml_clean. simpl; tauto. Qed.

Lemma escapeHtml_no_quote (s : jsstring) : countUnit 34 (escapeHtml s) = 0.
Proof. apply escapeHtml_clean. simpl; tauto. Qed.

(** The units of a joined array are those of its elements when the
    separator has none. *)
Lemma countUnit_join (c : N) (sep0 : jsstring) (a : list jsstring) :
  countUnit c sep0 = 0 ->
  countUnit c (JS.join sep0 a) = list_sum (map (countUnit c) a).
Proof.
  intros Hsep. induction a as [|x a IH]; [reflexivity|].
  destruct a as [|y a]; [simpl; lia|].
  change (JS.join sep0 (x :: y :: a)) with (x ++ sep0 ++ JS.join sep0 (y :: a)).
  rewrite !countUnit_app, Hsep, IH. simpl. lia.
Qed.

Lemma mapThrow_some {A B : Type} (f : A -> option B) (xs : list A)
  (ys : list B) :
  mapThrow f xs = Some ys -> Forall2 (fun x y => f x = Some y) xs ys.
Proof.
  revert ys; induction xs as [|x xs IH]; simpl; intros ys.
  - intros E; injection E as <-. constructor.
  - destruct (f x) as [y|] eqn:Hx; [|discriminate].
    destruct (mapThrow f xs) as [ys'|]; [|discriminate].
    simpl. intros E; injection E as <-. constructor; auto.
Qed.

Lemma mapThrow_none {A B : Type} (f : A -> option B) (xs : list A) :
  mapThrow f xs = None <-> exists x, In x xs /\ f x = None.
Proof.
  induction xs as [|x xs IH]; simpl.
  - split; [discriminate | intros (x & [] & _)].
  - destruct (f x) as [y|] eqn:Hx.
    + destruct (mapThrow f xs) as [ys|]; simpl.
      * split; [discriminate|].
        intros (x' & [<-|Hin] & Hn); [congruence|].
        assert (Hys : Some ys = None) by (apply IH; eauto).
        discriminate.
      * split; [|reflexivity]. intros _.
        destruct (proj1 IH eq_refl) as (x' & Hin & Hn). eauto.
    + split; [|reflexivity]. intros _. eauto.
Qed.

(** A string without the first unit of the pattern is left as it is. *)
Lemma replaceAll_from_absent (p : N) (pat rep : jsstring) (s before : jsstring) :
  countUnit p s = 0 ->
  replaceAll_from (p :: pat) rep 0 before s = s.
Proof.
  revert before; induction s as [|c s IH]; intros before; simpl;
    [reflexivity|].
  destruct (N.eqb_spec c p) as [->|Hne]; [discriminate|].
  intros Hs. simpl in Hs.
  destruct (N.eqb_spec p c) as [->|_]; [congruence|].
  simpl. rewrite IH by exact Hs. reflexivity.
Qed.

Lemma splitOn_from_nonempty (pat : jsstring) (skip : nat) (cur s : jsstring) :
  splitOn_from pat skip cur s <> [].
Proof.
  revert skip cur; induction s as [|c s IH]; intros skip cur; simpl;
    [discriminate|].
  destruct skip; [|apply IH].
  destruct (prefixb pat (c :: s)); [discriminate | apply IH].
Qed.

Lemma join_cons_nonempty (sep0 x : jsstring) (r : list jsstring) :
  r <> [] -> JS.join sep0 (x :: r) = x ++ sep0 ++ JS.join sep0 r.
Proof. destruct r; [congruence | reflexivity]. Qed.

(** Splitting on a one-unit separator and joining with a slash replaces
    every separator by a slash. *)
Lemma join_splitOn_unit (c : N) (s cur : jsstring) :
  JS.join (js "/") (splitOn_from [c] 0 cur s) =
  rev cur ++ map (fun x => if (x =? c)%N then 47%N else x) s.
Proof.
  revert cur; induction s as [|x s IH]; intros cur.
  - simpl. symmetry; apply app_nil_r.
  - cbn [splitOn_from prefixb map length Nat.sub].
    rewrite andb_true_r, (N.eqb_sym c x). destruct (x =? c)%N.
    + rewrite join_cons_nonempty by apply splitOn_from_nonempty.
      rewrite IH. reflexivity.
    + rewrite IH. cbn [rev]. rewrite <- app_assoc. reflexivity.
Qed.

Section RendererFacts.

Context {host : Host} {formats : Formats}.

(** The angle brackets and the quotes of an item are those of its tags. *)
Lemma fileItem_count (dir : jsstring) (useIcons : bool) (file : FileEntry)
  (item : jsstring) :
  fileItem dir useIcons file = Some item ->
  countUnit 60 item = 10 + (if isVideo file then 5 else 0) /\
  countUnit 34 item = 12 + (if isVideo file then 14 else 0).
Proof.
  unfold fileItem.
  destruct (mapThrow encodeURIComponent (split 47 dir)) as [path|];
    [|discriminate].
  destruct (encodeURIComponent (entry_name file)) as [name|];
    [|discriminate].
  cbv zeta. intros E; apply some_eq in E; subst item.
  destruct (isVideo file); unfold videoBlock;
    repeat (rewrite ?countUnit_app, ?countUnit_quoted);
    rewrite ?escapeHtml_no_lt, ?escapeHtml_no_quote;
    split; reflexivity.
Qed.

Lemma fileItems_count (dir : jsstring) (useIcons : bool)
  (files : list FileEntry) (items : list jsstring) :
  mapThrow (fileItem dir useIcons) files = Some items ->
  list_sum (map (countUnit 60) items) =
  10 * length files + 5 * length (filter isVideo files) /\
  list_sum (map (countUnit 34) items) =
  12 * length files + 14 * length (filter isVideo files).
Proof.
  intros Hmap. apply mapThrow_some in Hmap.
  induction Hmap as [|file item files items Hitem _ IH]; [split; reflexivity|].
  destruct (fileItem_count _ _ _ Hitem) as [H60 H34].
  destruct IH as [IH60 IH34].
  unfold list_sum in *. cbn [map fold_right length filter].
  rewrite H60, H34, IH60, IH34.
  destruct (isVideo file); cbn [length]; lia.
Qed.

Lemma fileItem_none (dir : jsstring) (useIcons : bool) (file : FileEntry) :
  fileItem dir useIcons file = None <->
  (exists part, In part (split 47 dir) /\ encodeURIComponent part = None) \/
  encodeURIComponent (entry_name file) = None.
Proof.
  unfold fileItem.
  destruct (mapThrow encodeURIComponent (split 47 dir)) as [path|] eqn:Hdir.
  - destruct (encodeURIComponent (entry_name file)) as [name|].
    + split; [discriminate|].
      intros [Hex|Hn]; [|discriminate].
      apply mapThrow_none in Hex. congruence.
    + split; auto.
  - split; [|reflexivity]. intros _. left. apply mapThrow_none. exact Hdir.
Qed.

Lemma htmlPath_from_count (seen rest : list jsstring)
  (crumb : list (option jsstring)) :
  htmlPath_from seen rest = Some crumb ->
  countUnit 60 (joinHoles (js " / ") crumb) =
  2 * length (filter (fun part => negb (str_eqb part [])) rest) /\
  countUnit 34 (joinHoles (js " / ") crumb) =
  2 * length (filter (fun part => negb (str_eqb part [])) rest).
Proof.
  unfold joinHoles.
  rewrite !countUnit_join by reflexivity.
  revert seen crumb; induction rest as [|part rest IH]; intros seen crumb;
    cbn [htmlPath_from filter].
  - intros E; injection E as <-. split; reflexivity.
  - destruct part as [|c part].
    + match goal with
      | |- context [htmlPath_from ?a ?b] =>
          destruct (htmlPath_from a b) as [crumb'|] eqn:Hrest
      end; cbn [option_map]; [|discriminate].
      intros E; apply some_eq in E; subst crumb.
      apply IH in Hrest. simpl. exact Hrest.
    + destruct (encodeURIComponent (c :: part)) as [enc|]; [|discriminate].
      destruct (htmlPath_from (seen ++ [enc]) rest) as [crumb'|] eqn:Hrest;
        cbn [option_map]; [|discriminate].
      intros E; apply some_eq in E; subst crumb.
      apply IH in Hrest. destruct Hrest as [H60 H34].
      unfold list_sum in *. cbn [map fold_right].
      rewrite H60, H34. unfold crumbLink.
      repeat (rewrite ?countUnit_app, ?countUnit_quoted).
      rewrite ?escapeHtml_no_lt, ?escapeHtml_no_quote.
      split; simpl; lia.
Qed.

Lemma htmlPath_from_none (seen rest : list jsstring) :
  htmlPath_from seen rest = None <->
  exists part, In part rest /\ encodeURIComponent part = None.
Proof.
  revert seen; induction rest as [|part rest IH]; intros seen; simpl.
  - split; [discriminate | intros (x & [] & _)].
  - destruct part as [|c part].
    + match goal with
      | |- context [htmlPath_from ?a ?b] =>
          destruct (htmlPath_from a b) as [crumb|] eqn:Hrest
      end; simpl.
      * split; [discriminate|].
        intros (x & [<-|Hin] & Hn); [discriminate|].
        assert (Hc : Some crumb = None)
          by (rewrite <- Hrest; apply IH; eauto).
        discriminate.
      * split; [|reflexivity]. intros _.
        apply IH in Hrest. destruct Hrest as (x & Hin & Hn). eauto.
    + destruct (encodeURIComponent (c :: part)) as [enc|] eqn:Henc.
      * destruct (htmlPath_from (seen ++ [enc]) rest) as [crumb|] eqn:Hrest;
          simpl.
        -- split; [discriminate|].
           intros (x & [<-|Hin] & Hn); [congruence|].
           assert (Hc : Some crumb = None)
             by (rewrite <- Hrest; apply IH; eauto).
           discriminate.
        -- split; [|reflexivity]. intros _.
           apply IH in Hrest. destruct Hrest as (x & Hin & Hn). eauto.
      * split; [|reflexivity]. intros _. eauto.
Qed.

End RendererFacts.

(* ================================================================== *)
(** ** Properties of the renderer *)
(* ================================================================== *)

Section RendererProperties.

Context {host : Host} {formats : Formats}.

(** X13.  No name, directory, view name, date or size can add a tag or
    close an attribute in the file list: the number of [<] and the number
    of double quotes in the markup depend only on the number of entries,
    on the number of them shown with a video block, and on whether the
    view is [details]. *)
Theorem file_list_tags (files : list FileEntry) (dir : jsstring)
  (useIcons : bool) (view html : jsstring) :
  createHtmlFileList files dir useIcons view = Some html ->
  countUnit 60 html =
  2 + (if str_eqb view (js "details") then 8 else 0)
  + 10 * length files + 5 * length (filter isVideo files) /\
  countUnit 34 html =
  4 + (if str_eqb view (js "details") then 8 else 0)
  + 12 * length files + 14 * length (filter isVideo files).
Proof.
  unfold createHtmlFileList.
  destruct (mapThrow (fileItem dir useIcons) files) as [items|] eqn:Hitems;
    [|discriminate].
  cbv zeta. intros E; apply some_eq in E; subst html.
  destruct (fileItems_count _ _ _ Hitems) as [H60 H34].
  unfold listHeader.
  destruct (str_eqb view (js "details"));
    repeat (rewrite ?countUnit_app, ?countUnit_quoted);
    rewrite ?escapeHtml_no_lt, ?escapeHtml_no_quote;
    rewrite !countUnit_join by reflexivity;
    rewrite H60, H34; split; simpl; lia.
Qed.

(** X14.  [createHtmlFileList] throws exactly when there is at least one
    entry and [encodeURIComponent] throws on a part of the directory path
    or on the name of an entry; an empty listing never throws. *)
Theorem file_list_throws_iff (files : list FileEntry) (dir : jsstring)
  (useIcons : bool) (view : jsstring) :
  createHtmlFileList files dir useIcons view = None <->
  files <> [] /\
  ((exists part, In part (split 47 dir) /\ encodeURIComponent part = None) \/
   (exists file, In file files /\
                 encodeURIComponent (entry_name file) = None)).
Proof.
  unfold createHtmlFileList.
  destruct (mapThrow (fileItem dir useIcons) files) as [items|] eqn:Hitems.
  - split; [discriminate|]. intros [Hne Hcause].
    assert (Hnone : mapThrow (fileItem dir useIcons) files = None).
    { apply mapThrow_none. destruct Hcause as [Hdir|(file & Hin & Hname)].
      - destruct files as [|file files]; [congruence|].
        exists file. split; [left; reflexivity|].
        apply fileItem_none. left; exact Hdir.
      - exists file. split; [exact Hin|].
        apply fileItem_none. right; exact Hname. }
    congruence.
  - split; [|reflexivity]. intros _.
    apply mapThrow_none in Hitems. destruct Hitems as (file & Hin & Hnone).
    split; [intros ->; contradiction|].
    apply fileItem_none in Hnone. destruct Hnone as [Hdir|Hname]; eauto.
Qed.

(** X15.  The breadcrumb has one link per non-empty part of the path and
    nothing of the path can add a tag or close an attribute: it has two
    [<] and two double quotes per non-empty part.  [htmlPath] throws
    exactly when [encodeURIComponent] throws on a part. *)
Theorem breadcrumb_links (dir : jsstring) :
  (forall html,
     htmlPath dir = Some html ->
     countUnit 60 html =
     2 * length (filter (fun part => negb (str_eqb part [])) (split 47 dir))
     /\
     countUnit 34 html =
     2 * length (filter (fun part => negb (str_eqb part [])) (split 47 dir)))
  /\
  (htmlPath dir = None <->
   exists part, In part (split 47 dir) /\ encodeURIComponent part = None).
Proof.
  unfold htmlPath. split.
  - intros html.
    destruct (htmlPath_from [] (split 47 dir)) as [crumb|] eqn:Hcrumb;
      [|discriminate].
    cbn [option_map]. intros E; apply some_eq in E; subst html.
    apply (htmlPath_from_count _ _ Hcrumb).
  - rewrite <- (htmlPath_from_none [] (split 47 dir)).
    destruct (htmlPath_from [] (split 47 dir)); simpl;
      split; congruence.
Qed.

(** X16.  With a one-unit separator, [normalizeSlashes] replaces every
    separator by a slash and changes nothing else; where the separator is
    the slash it is the identity. *)
Theorem normalizeSlashes_unit (c : N) (path : jsstring) :
  sep = [c] ->
  normalizeSlashes path =
  map (fun x => if (x =? c)%N then 47%N else x) path /\
  (c = 47%N -> normalizeSlashes path = path).
Proof.
  intros Hsep. unfold normalizeSlashes, splitOn. rewrite Hsep.
  rewrite join_splitOn_unit. split; [reflexivity|].
  intros ->. simpl. induction path as [|x path IH]; [reflexivity|].
  simpl. rewrite IH. destruct (N.eqb_spec x 47); congruence.
Qed.

(** X17.  The body is computed only if both the file list and the
    breadcrumb are, whatever the template; and a template without an
    opening brace is sent as it is. *)
Theorem template_without_brace (str : jsstring) (locals : Locals) :
  (templateBody str locals = None <->
   createHtmlFileList (fileList locals) (directory locals)
                      (displayIcons locals) (viewName locals) = None \/
   htmlPath (directory locals) = None) /\
  (countUnit 123 str = 0 ->
   forall b, templateBody str locals = Some b -> b = str).
Proof.
  unfold templateBody. split.
  - destruct (createHtmlFileList (fileList locals) (directory locals)
                (displayIcons locals) (viewName locals)) as [files|];
      [|split; auto].
    destruct (htmlPath (directory locals)) as [linked|].
    + split; [discriminate | intros [E|E]; discriminate].
    + split; auto.
  - intros Hstr b.
    destruct (createHtmlFileList (fileList locals) (directory locals)
                (displayIcons locals) (viewName locals)) as [files|];
      [|discriminate].
    destruct (htmlPath (directory locals)) as [linked|]; [|discriminate].
    intros E; apply some_eq in E; subst b.
    unfold replaceAll.
    change (js "{style}") with (123%N :: js "style}").
    change (js "{files}") with (123%N :: js "files}").
    change (js "{directory}") with (123%N :: js "directory}").
    change (js "{linked-path}") with (123%N :: js "linked-path}").
    rewrite (@replaceAll_from_absent 123 (js "style}") _ str [] Hstr).
    rewrite (@replaceAll_from_absent 123 (js "files}") _ str [] Hstr).
    rewrite (@replaceAll_from_absent 123 (js "directory}") _ str [] Hstr).
    apply (@replaceAll_from_absent 123 (js "linked-path}") _ str [] Hstr).
Qed.

End RendererProperties.

(* ================================================================== *)
(** ** Percent-encoding: what the renderer encodes, the handler decodes *)
(* ================================================================== *)

Lemma hexval_hexUpper (d : N) : (d < 16)%N -> hexval (hexUpper d) = Some d.
Proof.
  intros H.
  pose (P := fun d => match hexval (hexUpper d) with
                      | Some x => (x =? d)%N
                      | None => false
                      end).
  assert (Hc : P d = true)
    by (apply (@check_below P 16); [reflexivity|exact H]).
  unfold P in Hc. destruct (hexval (hexUpper d)) as [x|]; [|discriminate].
  apply N.eqb_eq in Hc. congruence.
Qed.

Lemma tokens_percent (b : N) (e : jsstring) :
  (b < 256)%N ->
  tokens (percent b ++ e) = option_map (cons (Oct b)) (tokens e).
Proof.
  intros Hb. unfold percent. cbn [app tokens N.eqb Pos.eqb].
  rewrite !hexval_hexUpper.
  - replace (16 * (b / 16) + b mod 16)%N with b; [reflexivity|].
    rewrite (N.div_mod b 16) at 1; dlia.
  - apply N.mod_lt; dlia.
  - apply N.Div0.div_lt_upper_bound; dlia.
Qed.

Lemma tokens_percents (bs : list N) (e : jsstring) :
  Forall (fun b => (b < 256)%N) bs ->
  tokens (concat (map percent bs) ++ e) =
  option_map (app (map Oct bs)) (tokens e).
Proof.
  induction 1 as [|b bs Hb _ IH]; cbn [map concat].
  - simpl. destruct (tokens e); reflexivity.
  - rewrite <- app_assoc, (@tokens_percent b _ Hb), IH.
    destruct (tokens e); reflexivity.
Qed.

Lemma land_continuation (x : N) :
  (x < 64)%N ->
  N.land (128 + x) 192 = 128%N /\ N.land (128 + x) 63 = x.
Proof.
  intros H.
  pose (P := fun x => (N.land (128 + x) 192 =? 128)%N
                      && (N.land (128 + x) 63 =? x)%N).
  assert (Hc : P x = true)
    by (apply (@check_below P 64); [vm_compute; reflexivity|exact H]).
  unfold P in Hc. apply andb_prop in Hc. destruct Hc as [H1 H2].
  apply N.eqb_eq in H1, H2. split; assumption.
Qed.

Lemma land_lead (x : N) :
  (x < 32)%N ->
  N.land (192 + x) 31 = x /\
  ((x < 16)%N -> N.land (224 + x) 15 = x) /\
  ((x < 8)%N -> N.land (240 + x) 7 = x).
Proof.
  intros H.
  pose (P := fun x => (N.land (192 + x) 31 =? x)%N
                      && (implb (x <? 16)%N (N.land (224 + x) 15 =? x)%N)
                      && (implb (x <? 8)%N (N.land (240 + x) 7 =? x)%N)).
  assert (Hc : P x = true)
    by (apply (@check_below P 32); [vm_compute; reflexivity|exact H]).
  unfold P in Hc. apply andb_prop in Hc. destruct Hc as [Hc H3].
  apply andb_prop in Hc. destruct Hc as [H1 H2].
  apply N.eqb_eq in H1. split; [exact H1|]. split; intros Hx.
  - apply N.ltb_lt in Hx. rewrite Hx in H2. apply N.eqb_eq in H2. exact H2.
  - apply N.ltb_lt in Hx. rewrite Hx in H3. apply N.eqb_eq in H3. exact H3.
Qed.

Lemma utf8_scalar (v : N) (r : list token) :
  (v < 1114112)%N -> (v < 55296 \/ 57343 < v)%N ->
  utf8 0 0 0 (map Oct (utf8Octets v) ++ r) =
  option_map (app (utf16 v)) (utf8 0 0 0 r).
Proof.
  intros Hmax Hsur. unfold utf8Octets.
  destruct (N.ltb_spec v 128) as [H1|H1].
  { cbn [map app utf8]. apply N.ltb_lt in H1. rewrite H1.
    unfold utf16. replace (v <? 65536)%N with true by (symmetry; apply N.ltb_lt; apply N.ltb_lt in H1; dlia).
    reflexivity. }
  destruct (N.ltb_spec v 2048) as [H2|H2].
  { cbn [map app utf8].
    replace (192 + v / 64 <? 128)%N with false by (symmetry; apply N.ltb_ge; dlia).
    replace ((192 <=? 192 + v / 64)%N && (192 + v / 64 <=? 223)%N) with true
      by (symmetry; apply andb_true_intro; split; apply N.leb_le; dlia).
    destruct (@land_continuation (v mod 64) ltac:(dlia)) as [Ha Hb].
    destruct (@land_lead (v / 64) ltac:(dlia)) as [Hc _].
    rewrite Ha, Hb, Hc. cbn [N.eqb Pos.eqb].
    replace (v / 64 * 64 + v mod 64)%N with v by dlia.
    unfold validScalar.
    replace (128 <=? v)%N with true by (symmetry; apply N.leb_le; dlia).
    replace (55296 <=? v)%N with false by (symmetry; apply N.leb_gt; dlia).
    replace (v <=? 1114111)%N with true by (symmetry; apply N.leb_le; dlia).
    reflexivity. }
  destruct (N.ltb_spec v 65536) as [H3|H3].
  { cbn [map app utf8].
    replace (224 + v / 4096 <? 128)%N with false by (symmetry; apply N.ltb_ge; dlia).
    replace ((192 <=? 224 + v / 4096)%N && (224 + v / 4096 <=? 223)%N) with false
      by (symmetry; apply andb_false_intro2; apply N.leb_gt; dlia).
    replace ((224 <=? 224 + v / 4096)%N && (224 + v / 4096 <=? 239)%N) with true
      by (symmetry; apply andb_true_intro; split; apply N.leb_le; dlia).
    destruct (@land_continuation (v mod 64) ltac:(dlia)) as [Ha Hb].
    destruct (@land_continuation ((v / 64) mod 64) ltac:(dlia)) as [Ha' Hb'].
    destruct (@land_lead (v / 4096) ltac:(dlia)) as (_ & Hc & _).
    rewrite Ha, Hb, Ha', Hb', Hc by dlia. cbn [N.eqb Pos.eqb].
    replace ((v / 4096 * 64 + (v / 64) mod 64) * 64 + v mod 64)%N with v by dlia.
    unfold validScalar.
    replace (2048 <=? v)%N with true by (symmetry; apply N.leb_le; dlia).
    replace ((55296 <=? v)%N && (v <=? 57343)%N) with false
      by (symmetry; destruct Hsur; [apply andb_false_intro1|apply andb_false_intro2]; apply N.leb_gt; dlia).
    replace (v <=? 1114111)%N with true by (symmetry; apply N.leb_le; dlia).
    reflexivity. }
  cbn [map app utf8].
  replace (240 + v / 262144 <? 128)%N with false by (symmetry; apply N.ltb_ge; dlia).
  replace ((192 <=? 240 + v / 262144)%N && (240 + v / 262144 <=? 223)%N) with false
    by (symmetry; apply andb_false_intro2; apply N.leb_gt; dlia).
  replace ((224 <=? 240 + v / 262144)%N && (240 + v / 262144 <=? 239)%N) with false
    by (symmetry; apply andb_false_intro2; apply N.leb_gt; dlia).
  replace ((240 <=? 240 + v / 262144)%N && (240 + v / 262144 <=? 247)%N) with true
    by (symmetry; apply andb_true_intro; split; apply N.leb_le; dlia).
  destruct (@land_continuation (v mod 64) ltac:(dlia)) as [Ha Hb].
  destruct (@land_continuation ((v / 64) mod 64) ltac:(dlia)) as [Ha' Hb'].
  destruct (@land_continuation ((v / 4096) mod 64) ltac:(dlia)) as [Ha2 Hb2].
  destruct (@land_lead (v / 262144) ltac:(dlia)) as (_ & _ & Hc).
  rewrite Ha, Hb, Ha', Hb', Ha2, Hb2, Hc by dlia. cbn [N.eqb Pos.eqb].
  replace (((v / 262144 * 64 + (v / 4096) mod 64) * 64 + (v / 64) mod 64) * 64
           + v mod 64)%N with v by dlia.
  unfold validScalar.
  replace (65536 <=? v)%N with true by (symmetry; apply N.leb_le; dlia).
  replace ((55296 <=? v)%N && (v <=? 57343)%N) with false
    by (symmetry; apply andb_false_intro2; apply N.leb_gt; dlia).
  replace (v <=? 1114111)%N with true by (symmetry; apply N.leb_le; dlia).
  reflexivity.
Qed.

Lemma unreserved_not_percent (c : N) :
  unreserved c = true -> (c =? 37)%N = false.
Proof.
  intros H. destruct (N.eqb_spec c 37) as [->|]; [discriminate H|reflexivity].
Qed.

Lemma utf8Octets_bytes (v : N) :
  (v < 1114112)%N -> Forall (fun b => (b < 256)%N) (utf8Octets v).
Proof.
  intros Hv. unfold utf8Octets.
  destruct (N.ltb_spec v 128); [repeat constructor; dlia|].
  destruct (N.ltb_spec v 2048); [repeat constructor; dlia|].
  destruct (N.ltb_spec v 65536); repeat constructor; dlia.
Qed.

Lemma decode_escaped (v : N) (e : jsstring) :
  (v < 1114112)%N -> (v < 55296 \/ 57343 < v)%N ->
  decodeURIComponent (escapeCodePoint v ++ e) =
  option_map (app (utf16 v)) (decodeURIComponent e).
Proof.
  intros Hmax Hsur. unfold decodeURIComponent, escapeCodePoint.
  rewrite (@tokens_percents (utf8Octets v) e (utf8Octets_bytes Hmax)).
  destruct (tokens e) as [ts|]; cbn [option_map]; [|reflexivity].
  apply utf8_scalar; assumption.
Qed.

Lemma decode_literal (c : N) (e : jsstring) :
  (c =? 37)%N = false ->
  decodeURIComponent (c :: e) = option_map (cons c) (decodeURIComponent e).
Proof.
  intros Hc. unfold decodeURIComponent. cbn [tokens]. rewrite Hc.
  destruct (tokens e) as [ts|]; reflexivity.
Qed.

Lemma isLead_range (c : N) : isLead c = true <-> (55296 <= c <= 56319)%N.
Proof.
  unfold isLead. rewrite andb_true_iff, !N.leb_le. reflexivity.
Qed.

Lemma isTrail_range (c : N) : isTrail c = true <-> (56320 <= c <= 57343)%N.
Proof.
  unfold isTrail. rewrite andb_true_iff, !N.leb_le. reflexivity.
Qed.

Lemma utf16_pair (c d : N) :
  isLead c = true -> isTrail d = true ->
  utf16 (65536 + (c - 55296) * 1024 + (d - 56320)) = [c; d].
Proof.
  rewrite isLead_range, isTrail_range. intros Hc Hd. unfold utf16.
  replace (65536 + (c - 55296) * 1024 + (d - 56320) <? 65536)%N with false
    by (symmetry; apply N.ltb_ge; dlia).
  f_equal; [|f_equal]; dlia.
Qed.

Lemma encode_decode_length (n : nat) (s e : jsstring) :
  length s <= n ->
  Forall (fun c => (c < 65536)%N) s ->
  encodeURIComponent s = Some e ->
  decodeURIComponent e = Some s.
Proof.
  revert s e. induction n as [|n IH]; intros s e Hlen Hunits.
  - destruct s; [|simpl in Hlen; lia]. intros E; apply some_eq in E; subst e.
    reflexivity.
  - destruct s as [|c t]; [intros E; apply some_eq in E; subst e; reflexivity|].
    inversion Hunits as [|c' t' Hc Ht]; subst c' t'.
    cbn [encodeURIComponent]. cbn [length] in Hlen.
    destruct (unreserved c) eqn:Hun.
    { destruct (encodeURIComponent t) as [e'|] eqn:Et; [|discriminate].
      cbn [option_map]. intros E; apply some_eq in E; subst e.
      rewrite (@decode_literal c e' (@unreserved_not_percent c Hun)).
      rewrite (IH t e'); [reflexivity|lia|exact Ht|exact Et]. }
    destruct (isTrail c) eqn:Htr; [discriminate|].
    destruct (isLead c) eqn:Hld.
    { destruct t as [|d t']; [discriminate|].
      destruct (isTrail d) eqn:Hd; [|discriminate].
      destruct (encodeURIComponent t') as [e'|] eqn:Et; [|discriminate].
      cbn [option_map]. intros E; apply some_eq in E; subst e.
      pose proof (proj1 (isLead_range c) Hld) as Rc.
      pose proof (proj1 (isTrail_range d) Hd) as Rd.
      rewrite decode_escaped by lia.
      rewrite (@utf16_pair c d Hld Hd).
      inversion Ht as [|d' t2 _ Ht']; subst d' t2.
      cbn [length] in Hlen.
      rewrite (IH t' e'); [reflexivity|lia|exact Ht'|exact Et]. }
    destruct (encodeURIComponent t) as [e'|] eqn:Et; [|discriminate].
    cbn [option_map]. intros E; apply some_eq in E; subst e.
    assert (Hsur : (c < 55296 \/ 57343 < c)%N).
    { destruct (N.lt_ge_cases c 55296) as [|Hge]; [left; assumption|].
      right. destruct (N.lt_ge_cases 57343 c) as [|Hle]; [assumption|].
      exfalso. destruct (N.lt_ge_cases c 56320).
      - assert (isLead c = true) by (apply isLead_range; lia). congruence.
      - assert (isTrail c = true) by (apply isTrail_range; lia). congruence. }
    rewrite decode_escaped by (assumption || lia).
    unfold utf16. replace (c <? 65536)%N with true
      by (symmetry; apply N.ltb_lt; exact Hc).
    rewrite (IH t e'); [reflexivity|lia|exact Ht|exact Et].
Qed.

Lemma encode_then_decode (s e : jsstring) :
  Forall (fun c => (c < 65536)%N) s ->
  encodeURIComponent s = Some e ->
  decodeURIComponent e = Some s.
Proof. apply (@encode_decode_length (length s)). apply Nat.le_refl. Qed.

Lemma utf8_idle (acc lo : N) (ts : list token) :
  utf8 0 acc lo ts = utf8 0 0 0 ts.
Proof. destruct ts as [|[c|b] r]; reflexivity. Qed.

Lemma option_map_some {A B : Type} (f : A -> B) (o : option A) (y : B) :
  option_map f o = Some y -> exists x, o = Some x /\ y = f x.
Proof.
  destruct o as [x|]; [|discriminate]. cbn [option_map]. intros E.
  exists x. split; congruence.
Qed.

Lemma utf8_app (ts1 ts2 : list token) :
  forall need acc lo s1,
    utf8 need acc lo ts1 = Some s1 ->
    utf8 need acc lo (ts1 ++ ts2) = option_map (app s1) (utf8 0 0 0 ts2).
Proof.
  induction ts1 as [|[c|b] r IH]; intros need acc lo s1; cbn [utf8 app].
  - destruct need; [|discriminate]. intros E; apply some_eq in E; subst s1.
    rewrite utf8_idle. destruct (utf8 0 0 0 ts2); reflexivity.
  - destruct need; [|discriminate]. intros E.
    apply option_map_some in E. destruct E as (s' & E & ->).
    rewrite (IH _ _ _ _ E). destruct (utf8 0 0 0 ts2); reflexivity.
  - destruct need as [|n].
    + destruct (b <? 128)%N.
      { intros E. apply option_map_some in E. destruct E as (s' & E & ->).
        rewrite (IH _ _ _ _ E). destruct (utf8 0 0 0 ts2); reflexivity. }
      destruct ((192 <=? b)%N && (b <=? 223)%N); [apply IH|].
      destruct ((224 <=? b)%N && (b <=? 239)%N); [apply IH|].
      destruct ((240 <=? b)%N && (b <=? 247)%N); [apply IH|discriminate].
    + destruct (N.land b 192 =? 128)%N; [|discriminate].
      cbv zeta. destruct n as [|n]; [|apply IH].
      destruct (validScalar (acc * 64 + N.land b 63) lo); [|discriminate].
      intros E. apply option_map_some in E. destruct E as (s' & E & ->).
      rewrite (IH _ _ _ _ E). destruct (utf8 0 0 0 ts2); cbn [option_map];
        [rewrite app_assoc|]; reflexivity.
Qed.

Lemma tokens_app_length (n : nat) (e1 e2 : jsstring) (ts1 : list token) :
  length e1 <= n ->
  tokens e1 = Some ts1 ->
  tokens (e1 ++ e2) = option_map (app ts1) (tokens e2).
Proof.
  revert e1 ts1. induction n as [|n IH]; intros e1 ts1 Hlen.
  - destruct e1; [|simpl in Hlen; lia]. intros E; apply some_eq in E; subst ts1.
    simpl. destruct (tokens e2); reflexivity.
  - destruct e1 as [|c t].
    { intros E; apply some_eq in E; subst ts1.
      simpl. destruct (tokens e2); reflexivity. }
    cbn [tokens app]. cbn [length] in Hlen.
    destruct (c =? 37)%N.
    + destruct t as [|h [|l t2]]; [discriminate|discriminate|].
      cbn [app]. destruct (hexval h) as [a|]; [|discriminate].
      destruct (hexval l) as [b|]; [|discriminate].
      intros E. apply option_map_some in E. destruct E as (ts' & E & ->).
      cbn [length] in Hlen.
      rewrite (IH t2 ts'); [|lia|exact E].
      destruct (tokens e2); reflexivity.
    + intros E. apply option_map_some in E. destruct E as (ts' & E & ->).
      rewrite (IH t ts'); [|lia|exact E].
      destruct (tokens e2); reflexivity.
Qed.

Lemma decode_app (e1 e2 s1 : jsstring) :
  decodeURIComponent e1 = Some s1 ->
  decodeURIComponent (e1 ++ e2) =
  option_map (app s1) (decodeURIComponent e2).
Proof.
  unfold decodeURIComponent.
  destruct (tokens e1) as [ts1|] eqn:E1; [|discriminate]. intros Hs1.
  rewrite (@tokens_app_length (length e1) e1 e2 ts1 (Nat.le_refl _) E1).
  destruct (tokens e2) as [ts2|]; cbn [option_map]; [|reflexivity].
  apply utf8_app. exact Hs1.
Qed.

Lemma split_nonempty (c : N) (s : jsstring) : split c s <> [].
Proof.
  destruct s as [|x t]; [discriminate|]. cbn [split].
  destruct (x =? c)%N; [discriminate|]. destruct (split c t); discriminate.
Qed.

Lemma join_split (c : N) (s : jsstring) : JS.join [c] (split c s) = s.
Proof.
  induction s as [|x t IH]; [reflexivity|].
  cbn [split]. pose proof (@split_nonempty c t) as Hne.
  destruct (split c t) as [|h r] eqn:E; [congruence|].
  destruct (N.eqb_spec x c) as [->|Hx].
  - change (JS.join [c] ([] :: h :: r)) with ([] ++ [c] ++ JS.join [c] (h :: r)).
    rewrite IH. reflexivity.
  - destruct r as [|h' r'].
    + simpl in IH. simpl. rewrite IH. reflexivity.
    + change (JS.join [c] ((x :: h) :: h' :: r')) with
        ((x :: h) ++ [c] ++ JS.join [c] (h' :: r')).
      change (JS.join [c] (h :: h' :: r')) with
        (h ++ [c] ++ JS.join [c] (h' :: r')) in IH.
      rewrite <- IH. reflexivity.
Qed.

Lemma split_units (c : N) (s part : jsstring) (x : N) :
  In part (split c s) -> In x part -> In x s.
Proof.
  revert part. induction s as [|y t IH]; intros part.
  - intros [<-|[]] [].
  - cbn [split]. destruct (y =? c)%N.
    + intros [<-|Hin]; [intros []|]. intros Hx. right. eapply IH; eauto.
    + destruct (split c t) as [|h r] eqn:E.
      * intros [<-|[]] [<-|[]]. left; reflexivity.
      * intros [<-|Hin].
        { intros [<-|Hx]; [left; reflexivity|].
          right. apply (IH h); [left; reflexivity|exact Hx]. }
        intros Hx. right. apply (IH part); [right; exact Hin|exact Hx].
Qed.

Lemma join_snoc (sep x : jsstring) (l : list jsstring) :
  l <> [] -> JS.join sep (l ++ [x]) = JS.join sep l ++ sep ++ x.
Proof.
  induction l as [|h r IH]; [congruence|]. intros _.
  destruct r as [|h' r']; [reflexivity|].
  change (JS.join sep ((h :: h' :: r') ++ [x])) with
    (h ++ sep ++ JS.join sep ((h' :: r') ++ [x])).
  rewrite IH by discriminate.
  change (JS.join sep (h :: h' :: r')) with (h ++ sep ++ JS.join sep (h' :: r')).
  rewrite <- !app_assoc. reflexivity.
Qed.

Lemma decode_join (parts encs : list jsstring) :
  Forall (fun part => Forall (fun c => (c < 65536)%N) part) parts ->
  mapThrow encodeURIComponent parts = Some encs ->
  decodeURIComponent (JS.join (js "/") encs) = Some (JS.join (js "/") parts).
Proof.
  revert encs. induction parts as [|p r IH]; intros encs Hunits.
  - intros E; apply some_eq in E; subst encs. reflexivity.
  - cbn [mapThrow]. inversion Hunits as [|p' r' Hp Hr]; subst p' r'.
    destruct (encodeURIComponent p) as [e|] eqn:Ep; [|discriminate].
    intros E. apply option_map_some in E. destruct E as (encs' & E & ->).
    pose proof (encode_then_decode Hp Ep) as Hd.
    destruct r as [|p2 r2].
    + apply some_eq in E. subst encs'. exact Hd.
    + destruct encs' as [|e2 encs2].
      { cbn [mapThrow] in E. destruct (encodeURIComponent p2); [|discriminate].
        apply option_map_some in E. destruct E as (? & _ & E). discriminate. }
      change (JS.join (js "/") (e :: e2 :: encs2)) with
        (e ++ 47%N :: JS.join (js "/") (e2 :: encs2)).
      change (JS.join (js "/") (p :: p2 :: r2)) with
        (p ++ 47%N :: JS.join (js "/") (p2 :: r2)).
      rewrite (@decode_app e _ p Hd), decode_literal by reflexivity.
      rewrite (IH _ Hr E). reflexivity.
Qed.

Lemma mapThrow_snoc {A B : Type} (f : A -> option B) (xs : list A) (x : A)
  (ys : list B) (y : B) :
  mapThrow f xs = Some ys -> f x = Some y ->
  mapThrow f (xs ++ [x]) = Some (ys ++ [y]).
Proof.
  revert ys. induction xs as [|a r IH]; intros ys.
  - intros E Hx; apply some_eq in E; subst ys. simpl. rewrite Hx. reflexivity.
  - cbn [mapThrow app]. destruct (f a) as [b|]; [|discriminate].
    intros E Hx. apply option_map_some in E. destruct E as (ys' & E & ->).
    rewrite (IH ys' E Hx). reflexivity.
Qed.

Section LinkFacts.

Context {host : Host} {formats : Formats}.

(** X18.  The link written for an entry leads back to it: the item
    starts with the link whose target is the normalized form of a path
    that [decodeURIComponent], as applied by the handler to the path of
    a request, turns into the directory, a slash and the name of the
    entry. *)
Theorem entry_link_decodes (dir : jsstring) (useIcons : bool)
  (file : FileEntry) (item : jsstring) :
  Forall (fun c => (c < 65536)%N) dir ->
  Forall (fun c => (c < 65536)%N) (entry_name file) ->
  fileItem dir useIcons file = Some item ->
  exists path rest,
    item =
    js "<li><a href="
    ++ quoted (escapeHtml
                 (normalizeSlashes (normalize (JS.join (js "/") path))))
    ++ rest /\
    decodeURIComponent (JS.join (js "/") path) =
    Some (dir ++ js "/" ++ entry_name file).
Proof.
  intros Hdir Hname. unfold fileItem.
  destruct (mapThrow encodeURIComponent (split 47 dir)) as [encs|] eqn:Eencs;
    [|discriminate].
  destruct (encodeURIComponent (entry_name file)) as [enc|] eqn:Eenc;
    [|discriminate].
  cbv zeta. intros E; apply some_eq in E; subst item.
  exists (encs ++ [enc]).
  assert (Hdec : decodeURIComponent (JS.join (js "/") (encs ++ [enc])) =
                 Some (dir ++ js "/" ++ entry_name file)).
  { rewrite (@decode_join (split 47 dir ++ [entry_name file]) (encs ++ [enc])).
    - rewrite join_snoc by apply split_nonempty.
      change (js "/") with [47%N]. rewrite join_split. reflexivity.
    - apply Forall_app. split; [|repeat constructor; exact Hname].
      apply Forall_forall. intros part Hpart.
      apply Forall_forall. intros x Hx.
      rewrite Forall_forall in Hdir. apply Hdir.
      exact (split_units _ _ _ _ Hpart Hx).
    - apply mapThrow_snoc; assumption. }
  destruct (isVideo file).
  - eexists. split; [|exact Hdec].
    rewrite <- !app_assoc. reflexivity.
  - eexists. split; [|exact Hdec]. reflexivity.
Qed.

End LinkFacts.

Section Method.

Context {host : Host}.

Variables (rootPath : jsstring) (icons : value) (stylesheet : jsstring)
          (template : Template) (view : jsstring).

(** X19.  Past the method test the method is not looked at again: a
    HEAD request has the effects and the outcome, body included, of the
    GET request with the same paths and the same [Accept] header. *)
Theorem head_served_as_get (req req' : Request) (sched : list nat) :
  getOrHead req = true -> getOrHead req' = true ->
  pathname req = pathname req' ->
  originalPathname req = originalPathname req' ->
  accept req = accept req' ->
  handler rootPath icons stylesheet template view req sched =
  handler rootPath icons stylesheet template view req' sched.
Proof.
  intros Hm Hm' Hp Ho Ha. unfold handler.
  rewrite !getOrHead_gate, Hm, Hm', Hp, Ho, Ha. reflexivity.
Qed.

End Method.

(* ================================================================== *)
(** ** The handler on the concrete machine *)
(* ================================================================== *)

Import Machine.

(** The example of the specification: root [/srv/www], path
    [/../../etc]. *)
Example escape_is_forbidden :
  www (get (js "/../../etc") None) [] =
  ([], NextCalled (Some (createError 403))).
Proof. reflexivity. Qed.

(** A sibling whose name starts like the root is outside the root. *)
Example sibling_is_forbidden :
  candidate root (js "/../www-evil") = js "/srv/www-evil" /\
  www (get (js "/../www-evil") None) [] =
  ([], NextCalled (Some (createError 403))).
Proof. split; reflexivity. Qed.

(** At the root the flag is not set; below it is. *)
Example showUp_at_root :
  showUpOf root (candidate root (js "/")) = false /\
  showUpOf root (candidate root (js "/a/")) = true.
Proof. split; reflexivity. Qed.

(** An entry that vanished gets a [null] stat, at its own position. *)
Example stat_ghost :
  stat (js "/srv/www/a") [js ".."; js "ghost"; js "x"] [2; 0; 0] =
  ([Stat (js "/srv/www"); Stat (js "/srv/www/a/ghost");
    Stat (js "/srv/www/a/x")],
   Some (inr [Some (Some (mkStats true 4096 0)); Some None;
              Some (Some (mkStats false 1 0))])).
Proof. reflexivity. Qed.

(** An entry that cannot be stat'ed aborts the listing. *)
Example stat_locked :
  snd (stat (js "/srv/www/Z") [js ".."; js "k"; js "locked"] [1; 1; 0]) =
  Some (inl eacces).
Proof. reflexivity. Qed.

Lemma serveIndex_requires_root_witness :
  (truthy Undefined = false /\
   serveIndex Undefined None =
   inl (TypeError (js "serveIndex() root path required"))) /\
  (truthy (Str []) = false /\
   serveIndex (Str []) None =
   inl (TypeError (js "serveIndex() root path required"))) /\
  (truthy Null = false /\
   serveIndex Null (Some noOptions) =
   inl (TypeError (js "serveIndex() root path required"))).
Proof.
  split; [|split]; (split; [reflexivity|]).
  - exact (serveIndex_requires_root Undefined None eq_refl).
  - exact (serveIndex_requires_root (Str []) None eq_refl).
  - exact (serveIndex_requires_root Null (Some noOptions) eq_refl).
Defined.

Lemma resolves_nothing :
  Resolves root (get (js "/nothing") None) (js "/nothing") (js "/nothing").
Proof. concrete. Defined.

Lemma resolves_file :
  Resolves root (get (js "/b.txt") None) (js "/b.txt") (js "/b.txt").
Proof. concrete. Defined.

Lemma resolves_locked :
  Resolves root (get (js "/Z/locked") None) (js "/Z/locked") (js "/Z/locked").
Proof. concrete. Defined.

Lemma resolves_long : Resolves root (get longName None) longName longName.
Proof. concrete. Defined.

Lemma lists_a (a : option jsstring) :
  Lists root (get (js "/a/") a) (js "/a/") (js "/a/") [js "x"; js "ghost"].
Proof.
  split; [concrete|]. split; [|reflexivity].
  exists (mkStats true 4096 0). split; reflexivity.
Defined.

Lemma lists_root (a : option jsstring) :
  Lists root (get (js "/") a) (js "/") (js "/") [js "b.txt"; js "a"; js "Z"].
Proof.
  split; [concrete|]. split; [|reflexivity].
  exists (mkStats true 4096 0). split; reflexivity.
Defined.

Lemma target_stat_outcome_witness :
  (Resolves root (get (js "/nothing") None) (js "/nothing") (js "/nothing") /\
   serve (get (js "/nothing") None) [] =
   ([Stat (js "/srv/www/nothing")], NextCalled None)) /\
  (Resolves root (get (js "/b.txt") None) (js "/b.txt") (js "/b.txt") /\
   serve (get (js "/b.txt") None) [] =
   ([Stat (js "/srv/www/b.txt")], NextCalled None)) /\
  (Resolves root (get (js "/Z/locked") None)
            (js "/Z/locked") (js "/Z/locked") /\
   serve (get (js "/Z/locked") None) [] =
   ([Stat (js "/srv/www/Z/locked")],
    NextCalled (Some (mkError (message eacces) (code eacces) (Some 500%N))))) /\
  (Resolves root (get longName None) longName longName /\
   serve (get longName None) [] =
   ([Stat (js "/srv/www" ++ longName)],
    NextCalled (Some (mkError (message enametoolong) (code enametoolong)
                              (Some 414%N))))).
Proof.
  split; [|split; [|split]].
  - split; [exact resolves_nothing|].
    exact (@target_stat_outcome Machine.host root Undefined
             (js "/app/public/style.css")
             (TemplatePath (js "/app/public/directory.html")) (js "tiles")
             _ [] _ _ resolves_nothing).
  - split; [exact resolves_file|].
    exact (@target_stat_outcome Machine.host root Undefined
             (js "/app/public/style.css")
             (TemplatePath (js "/app/public/directory.html")) (js "tiles")
             _ [] _ _ resolves_file eq_refl).
  - split; [exact resolves_locked|].
    exact (@target_stat_outcome Machine.host root Undefined
             (js "/app/public/style.css")
             (TemplatePath (js "/app/public/directory.html")) (js "tiles")
             _ [] _ _ resolves_locked).
  - split; [exact resolves_long|].
    exact (@target_stat_outcome Machine.host root Undefined
             (js "/app/public/style.css")
             (TemplatePath (js "/app/public/directory.html")) (js "tiles")
             _ [] _ _ resolves_long).
Defined.

Lemma outside_root_forbidden_witness :
  decodeURIComponent (pathname (get (js "/../../etc") None)) =
  Some (js "/../../etc") /\
  outsideRoot root (candidate root (js "/../../etc")) = true /\
  serve (get (js "/../../etc") None) [] =
  ([], NextCalled (Some (createError 403))).
Proof.
  split; [reflexivity|]. split; [reflexivity|].
  destruct (@outside_root_forbidden Machine.host root Undefined
              (js "/app/public/style.css")
              (TemplatePath (js "/app/public/directory.html")) (js "tiles")
              (get (js "/../../etc") None) [] (js "/../../etc")
              eq_refl eq_refl) as (_ & _ & H403).
  apply H403; [reflexivity | discriminate | reflexivity].
Defined.

(** C1, as stated, fails: a GET whose candidate is outside the root but
    contains a NUL gets the 400 of the NUL check, which comes first; a
    POST is answered 405 before its path is looked at. *)
Lemma outside_root_not_always_403 :
  (getOrHead (get (js "/..%2f%00") None) = true /\
   decodeURIComponent (pathname (get (js "/..%2f%00") None)) =
   Some [47; 46; 46; 47; 0]%N /\
   candidate root [47; 46; 46; 47; 0]%N = [47; 115; 114; 118; 47; 0]%N /\
   outsideRoot root (candidate root [47; 46; 46; 47; 0]%N) = true /\
   www (get (js "/..%2f%00") None) [] =
   ([], NextCalled (Some (createError 400))) /\
   status (createError 400) <> Some 403%N) /\
  (decodeURIComponent
     (pathname (mkRequest (js "POST") (js "/../../etc") (js "/../../etc") None))
   = Some (js "/../../etc") /\
   outsideRoot root (candidate root (js "/../../etc")) = true /\
   www (mkRequest (js "POST") (js "/../../etc") (js "/../../etc") None) [] =
   ([], Ended (mkResponse 405
                 [(js "Allow", HStr (js "GET, HEAD, OPTIONS"));
                  (js "Content-Length", HStr (js "0"))] []))).
Proof. concrete. Qed.

Lemma nul_bad_request_witness :
  decodeURIComponent (pathname (get (js "/a/%00") None)) =
  Some (js "/a/" ++ [0%N]) /\
  In 0%N (candidate root (js "/a/" ++ [0%N])) /\
  serve (get (js "/a/%00") None) [] =
  ([], NextCalled (Some (createError 400))).
Proof.
  assert (Hnul : In 0%N (candidate root (js "/a/" ++ [0%N])))
    by (apply hasNul_spec; reflexivity).
  split; [reflexivity|]. split; [exact Hnul|].
  destruct (@nul_bad_request Machine.host root Undefined
              (js "/app/public/style.css")
              (TemplatePath (js "/app/public/directory.html")) (js "tiles")
              (get (js "/a/%00") None) [] (js "/a/" ++ [0%N])
              eq_refl Hnul) as (_ & H400).
  apply H400; [reflexivity | discriminate].
Defined.

(** C4, as stated, fails: a POST whose path has a NUL is answered 405;
    a GET whose original path (the path before a mount point was
    stripped) does not decode throws before the NUL check. *)
Lemma nul_not_always_400 :
  (decodeURIComponent
     (pathname (mkRequest (js "POST") (js "/%00") (js "/%00") None)) =
   Some [47; 0]%N /\
   hasNul (candidate root [47; 0]%N) = true /\
   www (mkRequest (js "POST") (js "/%00") (js "/%00") None) [] =
   ([], Ended (mkResponse 405
                 [(js "Allow", HStr (js "GET, HEAD, OPTIONS"));
                  (js "Content-Length", HStr (js "0"))] []))) /\
  (decodeURIComponent
     (pathname (mkRequest (js "GET") (js "/%00") (js "/100%/%00") None)) =
   Some [47; 0]%N /\
   hasNul (candidate root [47; 0]%N) = true /\
   www (mkRequest (js "GET") (js "/%00") (js "/100%/%00") None) [] =
   ([], Thrown URIError)).
Proof. concrete. Qed.

Lemma malformed_path_throws_witness :
  getOrHead (get (js "/%") None) = true /\
  (decodeURIComponent (pathname (get (js "/%") None)) = None \/
   decodeURIComponent (originalPathname (get (js "/%") None)) = None) /\
  serve (get (js "/%") None) [] = ([], Thrown URIError).
Proof.
  split; [reflexivity|]. split; [left; reflexivity|].
  apply malformed_path_throws; [reflexivity | left; reflexivity].
Defined.

(** C2, as stated, fails: on a path that does not decode the handler
    does not call [next] with a 400 error, it throws. *)
Lemma malformed_path_not_400 :
  getOrHead (get (js "/%E0%A4%A") None) = true /\
  decodeURIComponent (pathname (get (js "/%E0%A4%A") None)) = None /\
  www (get (js "/%E0%A4%A") None) [] = ([], Thrown URIError) /\
  snd (www (get (js "/%E0%A4%A") None) []) <>
  NextCalled (Some (createError 400)).
Proof. concrete. Qed.

Lemma negotiated_body_witness :
  Lists root (get (js "/a/") None) (js "/a/") (js "/a/") [js "x"; js "ghost"] /\
  (exists r,
     serve (get (js "/a/") json) [] =
     ([Stat (js "/srv/www/a/"); Readdir (js "/srv/www/a/")], Ended r) /\
     body r = dq (js "['ghost','x']") /\
     JSON_parse (dq (js "['ghost','x']")) = Some [js "ghost"; js "x"] /\
     statusCode r = 200%N /\
     headers r =
     [(js "X-Content-Type-Options", HStr (js "nosniff"));
      (js "Content-Type", HStr (js "application/json; charset=utf-8"));
      (js "Content-Length", HNum 13%N)]) /\
  (exists r,
     serve (get (js "/a/") plain) [] =
     ([Stat (js "/srv/www/a/"); Readdir (js "/srv/www/a/")], Ended r) /\
     body r = js "ghost" ++ [10%N] ++ js "x" ++ [10%N] /\
     statusCode r = 200%N /\
     headers r =
     [(js "X-Content-Type-Options", HStr (js "nosniff"));
      (js "Content-Type", HStr (js "text/plain; charset=utf-8"));
      (js "Content-Length", HNum 8%N)]) /\
  (exists e,
     serve (get (js "/a/") xml) [] =
     ([Stat (js "/srv/www/a/"); Readdir (js "/srv/www/a/")],
      NextCalled (Some e)) /\
     e = createError 406 /\ status e = Some 406%N).
Proof.
  split; [exact (lists_a None)|].
  split; [|split].
  - destruct (@negotiated_body Machine.host root Undefined
                (js "/app/public/style.css")
                (TemplatePath (js "/app/public/directory.html"))
                (js "tiles") _ [] _ _ _ (lists_a json))
      as (_ & _ & Hjson & _ & _).
    destruct (Hjson eq_refl) as (r & Hr & Hb & Hparse & Hstatus & Hheaders).
    exists r. split; [exact Hr|]. split; [exact Hb|].
    split; [rewrite Hb in Hparse; exact Hparse|].
    split; [exact Hstatus|]. rewrite Hb in Hheaders. exact Hheaders.
  - destruct (@negotiated_body Machine.host root Undefined
                (js "/app/public/style.css")
                (TemplatePath (js "/app/public/directory.html"))
                (js "tiles") _ [] _ _ _ (lists_a plain))
      as (_ & _ & _ & Hplain & _).
    destruct (Hplain eq_refl) as (r & Hr & Hb & Hstatus & Hheaders).
    exists r. split; [exact Hr|]. split; [exact Hb|].
    split; [exact Hstatus|]. rewrite Hb in Hheaders. exact Hheaders.
  - destruct (@negotiated_body Machine.host root Undefined
                (js "/app/public/style.css")
                (TemplatePath (js "/app/public/directory.html"))
                (js "tiles") _ [] _ _ _ (lists_a xml))
      as (_ & _ & _ & _ & Hnone).
    exact (Hnone eq_refl).
Defined.

Lemma listing_sorted_witness :
  Lists root (get (js "/") json) (js "/") (js "/")
        [js "b.txt"; js "a"; js "Z"] /\
  Lists root (get (js "/a/") html) (js "/a/") (js "/a/")
        [js "x"; js "ghost"] /\
  (exists r,
     snd (serve (get (js "/") json) []) = Ended r /\
     body r = dq (js "['Z','a','b.txt']") /\
     JSON_parse (body r) = Some [js "Z"; js "a"; js "b.txt"]) /\
  showUpOf root (candidate root (js "/a/")) = true /\
  forallb (tolerated (candidate root (js "/a/")))
          [js ".."; js "ghost"; js "x"] = true /\
  fs_readFile (js "/app/public/style.css") = inr (js "body{}") /\
  fs_readFile (js "/app/public/directory.html") = inr (js "{files}") /\
  In (Render locals_a) (fst (serve (get (js "/a/") html) [1; 0])) /\
  renderedNames locals_a = [js ".."; js "ghost"; js "x"] /\
  (exists r,
     snd (serve (get (js "/a/") html) [1; 0]) = Ended r /\
     body r = listing_a).
Proof.
  split; [exact (lists_root json)|]. split; [exact (lists_a html)|].
  destruct (@listing_sorted Machine.host root Undefined
              (js "/app/public/style.css")
              (TemplatePath (js "/app/public/directory.html")) (js "tiles")
              (get (js "/") json) [] _ _ _ (lists_root json))
    as (_ & _ & Hjson & _ & _).
  destruct (@listing_sorted Machine.host root Undefined
              (js "/app/public/style.css")
              (TemplatePath (js "/app/public/directory.html")) (js "tiles")
              (get (js "/a/") html) [1; 0] _ _ _ (lists_a html))
    as (_ & _ & _ & _ & Hhtml).
  destruct (Hhtml eq_refl) as (_ & Hcalled).
  destruct (Hcalled eq_refl (js "body{}") eq_refl) as (Hin & Hnames & Hbody).
  split; [exact (Hjson eq_refl)|]. split; [reflexivity|].
  split; [reflexivity|]. split; [reflexivity|]. split; [reflexivity|].
  split; [exact Hin|]. split; [exact Hnames|].
  exact (Hbody (js "/app/public/directory.html") (js "{files}")
               eq_refl eq_refl).
Defined.

Lemma json_names_and_html_names_witness :
  Lists root (get (js "/a/") None) (js "/a/") (js "/a/")
        [js "x"; js "ghost"] /\
  accepts_type json mediaTypes = Some (js "application/json") /\
  accepts_type html mediaTypes = Some (js "text/html") /\
  showUpOf root (candidate root (js "/a/")) = true /\
  forallb (tolerated (candidate root (js "/a/")))
          [js ".."; js "ghost"; js "x"] = true /\
  fs_readFile (js "/app/public/style.css") = inr (js "body{}") /\
  fs_readFile (js "/app/public/directory.html") = inr (js "{files}") /\
  (exists r,
     snd (serve (get (js "/a/") json) []) = Ended r /\
     body r = dq (js "['ghost','x']") /\
     JSON_parse (body r) = Some [js "ghost"; js "x"] /\
     JSON_parse (body r) <> Some [js ".."; js "ghost"; js "x"]) /\
  In (Render locals_a) (fst (serve (get (js "/a/") html) [1; 0])) /\
  renderedNames locals_a = [js ".."; js "ghost"; js "x"] /\
  (exists r,
     snd (serve (get (js "/a/") html) [1; 0]) = Ended r /\
     body r = listing_a).
Proof.
  split; [exact (lists_a None)|].
  split; [reflexivity|]. split; [reflexivity|]. split; [reflexivity|].
  split; [reflexivity|]. split; [reflexivity|]. split; [reflexivity|].
  destruct (@json_names_and_html_names Machine.host root Undefined
              (js "/app/public/style.css")
              (TemplatePath (js "/app/public/directory.html")) (js "tiles")
              (get (js "/a/") None) json html [] [1; 0] _ _ _ (js "body{}")
              (lists_a None) eq_refl eq_refl eq_refl eq_refl)
    as (_ & _ & (r & Hr & Hb & Hparse & _ & Hdiff) & Hin & Hnames & _
        & Hbody).
  split; [|split; [exact Hin|split; [exact Hnames|]]].
  - exists r. split; [exact Hr|]. split; [exact Hb|].
    split; [exact Hparse|]. exact (Hdiff eq_refl).
  - exact (Hbody (js "/app/public/directory.html") (js "{files}")
                 eq_refl eq_refl).
Defined.

(** C3, as stated, fails below the root: the JSON body lists the sorted
    names, the HTML renderer is given [..] before them. *)
Lemma json_names_differ_from_html_names :
  showUpOf root (candidate root (js "/a/")) = true /\
  www (get (js "/a/") json) [] =
  ([Stat (js "/srv/www/a/"); Readdir (js "/srv/www/a/")],
   Ended (send res0 (js "application/json")
               (JSON_stringify [js "ghost"; js "x"]))) /\
  In (Render locals_a) (fst (www (get (js "/a/") html) [])) /\
  renderedNames locals_a = [js ".."; js "ghost"; js "x"] /\
  JSON_stringify [js "ghost"; js "x"] <>
  JSON_stringify (renderedNames locals_a).
Proof.
  split; [reflexivity|]. split; [reflexivity|].
  split; [|split].
  - vm_compute. do 6 right. left. reflexivity.
  - reflexivity.
  - vm_compute. discriminate.
Qed.

Lemma showUp_iff_not_root_witness :
  Lists root (get (js "/") html) (js "/") (js "/")
        [js "b.txt"; js "a"; js "Z"] /\
  showUpOf root (candidate root (js "/")) = false /\
  normalize (resolve (candidate root (js "/")) ++ sep) = root /\
  (forall l,
     In (Render l) (fst (serve (get (js "/") html) [])) ->
     renderedNames l = [js "Z"; js "a"; js "b.txt"]) /\
  (forall l,
     In (Render l) (fst (serve (get (js "/") html) [])) ->
     ~ In (js "..") (renderedNames l)).
Proof.
  split; [exact (lists_root html)|].
  split; [reflexivity|]. split; [reflexivity|].
  destruct (@showUp_iff_not_root Machine.host root Undefined
              (js "/app/public/style.css")
              (TemplatePath (js "/app/public/directory.html")) (js "tiles")
              (get (js "/") html) [] _ _ _ (lists_root html))
    as (_ & _ & Hnames & Hroot).
  split; [exact Hnames|].
  apply Hroot; [reflexivity|].
  intros [E|[E|[E|[]]]]; discriminate.
Defined.

(** Whatever the order of completion, the renderer gets the same list. *)
Example rendered_any_order :
  In (Render locals_a) (fst (serve (get (js "/a/") html) [2; 1; 0])) /\
  In (Render locals_a) (fst (serve (get (js "/a/") html) [0; 0; 0])).
Proof. split; vm_compute; do 6 right; left; reflexivity. Qed.

(** With two entries failing, the error reported is that of the entry
    whose stat completes first. *)
Example first_failure_wins :
  snd (stat (js "/srv/www/Z") [longName; js "locked"] [0]) =
  Some (inl enametoolong) /\
  snd (stat (js "/srv/www/Z") [longName; js "locked"] [1]) =
  Some (inl eacces).
Proof. split; reflexivity. Qed.

(** Twelve names against a window of ten, completing out of order: the
    stats are issued in the order of the names and land in their slots. *)
Example stat_twelve :
  stat (js "/srv/www")
       [js "Z"; js "a"; js "b.txt"; js "c"; js "d"; js "e"; js "f"; js "g";
        js "h"; js "i"; js "j"; js "k"]
       [9; 3; 7; 0; 5; 1; 1; 4; 2; 0; 1; 0] =
  (map (fun name => Stat (js "/srv/www/" ++ name))
       [js "Z"; js "a"; js "b.txt"; js "c"; js "d"; js "e"; js "f"; js "g";
        js "h"; js "i"; js "j"; js "k"],
   Some (inr [Some (Some (mkStats true 4096 0));
              Some (Some (mkStats true 4096 0));
              Some (Some (mkStats false 5 0));
              Some None; Some None; Some None; Some None; Some None;
              Some None; Some None; Some None; Some None])).
Proof. reflexivity. Qed.

(* ================================================================== *)
(** ** The renderer and the further properties on the concrete machine *)
(* ================================================================== *)

Import MachineFormats.

Example encode_reserved :
  encodeURIComponent (js "a b/c?") = Some (js "a%20b%2Fc%3F").
Proof. reflexivity. Qed.

Example encode_utf8 :
  encodeURIComponent [8364; 55357; 56832]%N = Some (js "%E2%82%AC%F0%9F%98%80").
Proof. reflexivity. Qed.

Example encode_lone_surrogate : encodeURIComponent [97; 55357]%N = None.
Proof. reflexivity. Qed.

Example split_string :
  splitOn (js "ab") (js "xabyabab") = [js "x"; js "y"; []; []].
Proof. reflexivity. Qed.

Example replace_dollar :
  replaceAll (js "{x}") (js "[$&|$$]") (js "a{x}b") = js "a[{x}|$]b".
Proof. reflexivity. Qed.

Example escape_markup :
  escapeHtml (js "<b>&'") ++ escapeHtml [34%N] =
  js "&lt;b&gt;&amp;&#39;&quot;".
Proof. reflexivity. Qed.

Example breadcrumb :
  htmlPath (js "/a b/c/") =
  Some (js " / <a href=" ++ quoted (js "/a%20b") ++ js ">a b</a> / <a href="
        ++ quoted (js "/a%20b/c") ++ js ">c</a> / ").
Proof. reflexivity. Qed.

Example file_item :
  fileItem (js "/a/") false
           (mkEntry (js "<b>.mp4") (Some (Some (mkStats false 1234 7)))) =
  Some (js "<li><a href=" ++ quoted (js "/a/%3Cb%3E.mp4")
        ++ js " class=" ++ quoted [] ++ js " title="
        ++ quoted (js "&lt;b&gt;.mp4")
        ++ js "><span class=" ++ quoted (js "name")
        ++ js ">&lt;b&gt;.mp4</span><span class=" ++ quoted (js "size")
        ++ js ">1234</span><span class=" ++ quoted (js "date")
        ++ js ">day 7 noon</span></a></li>"
        ++ videoBlock (js "/a/%3Cb%3E.mp4")).
Proof. reflexivity. Qed.

Example file_list_lone_surrogate :
  createHtmlFileList [mkEntry [55357%N] (Some None)] (js "/") false
                     (js "tiles") = None /\
  createHtmlFileList [] [55357%N] false (js "tiles") =
  Some (js "<ul id=" ++ quoted (js "files") ++ js " class="
        ++ quoted (js "view-tiles") ++ js "></ul>").
Proof. split; reflexivity. Qed.

Lemma other_methods_answered_witness :
  getOrHead (mkRequest (js "POST") (js "/%E0%A4%A") (js "/%E0%A4%A") None)
  = false /\
  serve (mkRequest (js "POST") (js "/%E0%A4%A") (js "/%E0%A4%A") None) [] =
  ([], Ended (mkResponse 405%N
                [(js "Allow", HStr (js "GET, HEAD, OPTIONS"));
                 (js "Content-Length", HStr (js "0"))] [])).
Proof.
  split; [reflexivity|].
  exact (@other_methods_answered Machine.host root Undefined
           (js "/app/public/style.css")
           (TemplatePath (js "/app/public/directory.html")) (js "tiles")
           (mkRequest (js "POST") (js "/%E0%A4%A") (js "/%E0%A4%A") None) []
           eq_refl).
Defined.

Lemma errors_passed_to_next_witness :
  snd (serve (get (js "/Z/") html) []) = NextCalled (Some eacces) /\
  exists dir,
    decodeURIComponent (pathname (get (js "/Z/") html)) = Some dir /\
    (let path := candidate root dir in
     (eacces = createError 400 /\ hasNul path = true) \/
     (eacces = createError 403 /\ outsideRoot root path = true) \/
     (exists err,
        fs_stat path = inl err /\ codeIs err (js "ENOENT") = false /\
        eacces = mkError (message err) (code err)
                   (Some (if codeIs err (js "ENAMETOOLONG")
                          then 414 else 500)%N)) \/
     fs_readdir path = inl eacces \/
     (exists files,
        fs_readdir path = inr files /\
        ((eacces = createError 406 /\
          accepts_type (accept (get (js "/Z/") html)) mediaTypes = None) \/
         (exists name,
            (In name files \/ name = js "..") /\
            fs_stat (join [path; name]) = inl eacces /\
            codeIs eacces (js "ENOENT") = false) \/
         fs_readFile (js "/app/public/style.css") = inl eacces \/
         (exists t,
            TemplatePath (js "/app/public/directory.html") = TemplatePath t /\
            fs_readFile t = inl eacces) \/
         (exists f l,
            TemplatePath (js "/app/public/directory.html") = TemplateFn f /\
            f l = inl eacces)))).
Proof.
  split; [reflexivity|].
  exact (@errors_passed_to_next Machine.host root Undefined
           (js "/app/public/style.css")
           (TemplatePath (js "/app/public/directory.html")) (js "tiles")
           (get (js "/Z/") html) [] eacces eq_refl).
Defined.

Lemma ended_response_headers_witness :
  snd (serve (get (js "/a/") plain) []) =
  Ended (send res0 (js "text/plain")
              (js "ghost" ++ [10%N] ++ js "x" ++ [10%N])) /\
  statusCode (send res0 (js "text/plain")
                   (js "ghost" ++ [10%N] ++ js "x" ++ [10%N])) = 200%N /\
  headers (send res0 (js "text/plain")
                (js "ghost" ++ [10%N] ++ js "x" ++ [10%N])) =
  [(js "X-Content-Type-Options", HStr (js "nosniff"));
   (js "Content-Type", HStr (js "text/plain; charset=utf-8"));
   (js "Content-Length", HNum 8%N)].
Proof.
  split; [reflexivity|].
  destruct (@ended_response_headers Machine.host root Undefined
              (js "/app/public/style.css")
              (TemplatePath (js "/app/public/directory.html")) (js "tiles")
              (get (js "/a/") plain) [] _ eq_refl)
    as [(Hbody & _)|(Hstatus & type & _ & Hheaders)].
  - discriminate Hbody.
  - split; [exact Hstatus|reflexivity].
Defined.

Lemma trailing_separator_guard_witness :
  sep = [47%N] /\ root = js "/srv/www" ++ [47%N] /\
  outsideRoot root (js "/srv/www") = false /\
  (forall rest, outsideRoot root (root ++ rest) = false) /\
  (forall x rest,
     x <> 47%N -> outsideRoot root (js "/srv/www" ++ x :: rest) = true).
Proof.
  split; [reflexivity|]. split; [reflexivity|].
  exact (@trailing_separator_guard Machine.host root 47%N (js "/srv/www")
           eq_refl eq_refl).
Defined.

Lemma filesystem_containment_witness :
  In (Stat (js "/srv/www/a/ghost")) (fst (serve (get (js "/a/") html) [])) /\
  exists dir,
    getOrHead (get (js "/a/") html) = true /\
    decodeURIComponent (pathname (get (js "/a/") html)) = Some dir /\
    hasNul (candidate root dir) = false /\
    outsideRoot root (candidate root dir) = false /\
    (Stat (js "/srv/www/a/ghost") = Stat (candidate root dir) \/
     Stat (js "/srv/www/a/ghost") = Readdir (candidate root dir) \/
     (exists files name,
        fs_readdir (candidate root dir) = inr files /\
        (In name files \/ name = js "..") /\
        Stat (js "/srv/www/a/ghost") = Stat (join [candidate root dir; name]))
     \/
     Stat (js "/srv/www/a/ghost") = ReadFile (js "/app/public/style.css") \/
     (exists t,
        TemplatePath (js "/app/public/directory.html") = TemplatePath t /\
        Stat (js "/srv/www/a/ghost") = ReadFile t) \/
     (exists l, Stat (js "/srv/www/a/ghost") = Render l)).
Proof.
  assert (Hin : In (Stat (js "/srv/www/a/ghost"))
                   (fst (serve (get (js "/a/") html) []))).
  { vm_compute. do 3 right. left. reflexivity. }
  split; [exact Hin|].
  exact (@filesystem_containment Machine.host root Undefined
           (js "/app/public/style.css")
           (TemplatePath (js "/app/public/directory.html")) (js "tiles")
           (get (js "/a/") html) [] _ Hin).
Defined.

Lemma response_any_order_witness :
  (forall dir files,
     decodeURIComponent (pathname (get (js "/a/") html)) = Some dir ->
     fs_readdir (candidate root dir) = inr files ->
     forallb (tolerated (candidate root dir))
             (if showUpOf root (candidate root dir)
              then js ".." :: sort files else sort files) = true) /\
  serve (get (js "/a/") html) [2; 1; 0] = serve (get (js "/a/") html) [].
Proof.
  assert (H : forall dir files,
     decodeURIComponent (pathname (get (js "/a/") html)) = Some dir ->
     fs_readdir (candidate root dir) = inr files ->
     forallb (tolerated (candidate root dir))
             (if showUpOf root (candidate root dir)
              then js ".." :: sort files else sort files) = true).
  { intros dir files Hdir Hfiles.
    vm_compute in Hdir. apply some_eq in Hdir. subst dir.
    vm_compute in Hfiles. injection Hfiles as <-. reflexivity. }
  split; [exact H|].
  exact (@response_any_order Machine.host root Undefined
           (js "/app/public/style.css")
           (TemplatePath (js "/app/public/directory.html")) (js "tiles")
           (get (js "/a/") html) [2; 1; 0] [] H).
Defined.

Lemma rendered_locals_witness :
  Lists root (get (js "/a/") html) (js "/a/") (js "/a/")
        [js "x"; js "ghost"] /\
  In (Render locals_a) (fst (serve (get (js "/a/") html) [1; 0])) /\
  directory locals_a = js "/a/" /\
  locals_path locals_a = js "/srv/www/a/" /\
  displayIcons locals_a = false /\
  viewName locals_a = js "tiles" /\
  fs_readFile (js "/app/public/style.css") = inr (style locals_a) /\
  fileList locals_a =
  [mkEntry (js "..") (Some (Some (mkStats true 4096 0)));
   mkEntry (js "ghost") (Some None);
   mkEntry (js "x") (Some (Some (mkStats false 1 0)))].
Proof.
  assert (Hin : In (Render locals_a)
                   (fst (serve (get (js "/a/") html) [1; 0]))).
  { vm_compute. do 6 right. left. reflexivity. }
  split; [exact (lists_a html)|]. split; [exact Hin|].
  exact (@rendered_locals Machine.host root Undefined
           (js "/app/public/style.css")
           (TemplatePath (js "/app/public/directory.html")) (js "tiles")
           (get (js "/a/") html) [1; 0] _ _ _ locals_a (lists_a html) Hin).
Defined.

Lemma file_list_tags_witness :
  exists markup,
    createHtmlFileList entries (js "/a/") true (js "details") = Some markup /\
    countUnit 60 markup = 45 /\ countUnit 34 markup = 62.
Proof.
  destruct (createHtmlFileList entries (js "/a/") true (js "details"))
    as [markup|] eqn:E; [|vm_compute in E; discriminate E].
  exists markup. split; [reflexivity|].
  exact (@file_list_tags Machine.host MachineFormats.formats entries
           (js "/a/") true (js "details") markup E).
Defined.

Lemma breadcrumb_links_witness :
  exists markup,
    htmlPath (js "/<a b>/c/") = Some markup /\
    countUnit 60 markup = 4 /\ countUnit 34 markup = 4.
Proof.
  destruct (htmlPath (js "/<a b>/c/")) as [markup|] eqn:E;
    [|vm_compute in E; discriminate E].
  exists markup. split; [reflexivity|].
  exact (proj1 (breadcrumb_links (js "/<a b>/c/")) markup E).
Defined.

Lemma normalizeSlashes_unit_witness :
  sep = [47%N] /\
  normalizeSlashes (js "/a//b/") =
  map (fun x => if (x =? 47)%N then 47%N else x) (js "/a//b/") /\
  (47%N = 47%N -> normalizeSlashes (js "/a//b/") = js "/a//b/").
Proof.
  split; [reflexivity|].
  exact (@normalizeSlashes_unit Machine.host 47%N (js "/a//b/") eq_refl).
Defined.

Lemma template_without_brace_witness :
  countUnit 123 (js "<p>closed</p>") = 0 /\
  templateBody (js "<p>closed</p>") locals_a = Some (js "<p>closed</p>").
Proof.
  split; [reflexivity|].
  destruct (templateBody (js "<p>closed</p>") locals_a) as [b|] eqn:E;
    [|vm_compute in E; discriminate E].
  f_equal.
  exact (proj2 (@template_without_brace Machine.host MachineFormats.formats
                  (js "<p>closed</p>") locals_a) eq_refl b E).
Defined.

Lemma entry_link_decodes_witness :
  Forall (fun c => (c < 65536)%N) (js "/a/") /\
  Forall (fun c => (c < 65536)%N) (js "<b>.mp4") /\
  exists path rest,
    fileItem (js "/a/") false
             (mkEntry (js "<b>.mp4") (Some (Some (mkStats false 1234 7)))) =
    Some (js "<li><a href="
          ++ quoted (escapeHtml
                       (normalizeSlashes (normalize (JS.join (js "/") path))))
          ++ rest) /\
    decodeURIComponent (JS.join (js "/") path) = Some (js "/a//<b>.mp4").
Proof.
  assert (Hdir : Forall (fun c => (c < 65536)%N) (js "/a/"))
    by (repeat constructor).
  assert (Hname : Forall (fun c => (c < 65536)%N) (js "<b>.mp4"))
    by (repeat constructor).
  split; [exact Hdir|]. split; [exact Hname|].
  destruct (fileItem (js "/a/") false
              (mkEntry (js "<b>.mp4") (Some (Some (mkStats false 1234 7)))))
    as [item|] eqn:E; [|vm_compute in E; discriminate E].
  destruct (@entry_link_decodes Machine.host MachineFormats.formats
              (js "/a/") false
              (mkEntry (js "<b>.mp4") (Some (Some (mkStats false 1234 7))))
              item Hdir Hname E) as (path & rest & Hitem & Hdec).
  exists path, rest. split; [rewrite Hitem; reflexivity|exact Hdec].
Defined.

Lemma head_served_as_get_witness :
  getOrHead (get (js "/a/") json) = true /\
  getOrHead (mkRequest (js "HEAD") (js "/a/") (js "/a/") json) = true /\
  serve (get (js "/a/") json) [] =
  serve (mkRequest (js "HEAD") (js "/a/") (js "/a/") json) [].
Proof.
  split; [reflexivity|]. split; [reflexivity|].
  exact (@head_served_as_get Machine.host root Undefined
           (js "/app/public/style.css")
           (TemplatePath (js "/app/public/directory.html")) (js "tiles")
           (get (js "/a/") json)
           (mkRequest (js "HEAD") (js "/a/") (js "/a/") json) []
           eq_refl eq_refl eq_refl eq_refl eq_refl).
Defined.

(** The default renderer throws on a name that cannot be percent-encoded:
    the exception leaves the callback of the template read, no response
    is sent and [next] is not called. *)
Example renderer_throws :
  handler (js "/mnt/usb/") Undefined (js "/app/public/style.css")
          (TemplatePath (js "/app/public/directory.html")) (js "tiles")
          (get (js "/") html) [] =
  ([Stat (js "/mnt/usb/"); Readdir (js "/mnt/usb/");
    Stat (js "/mnt/usb/" ++ [55357%N]);
    ReadFile (js "/app/public/style.css");
    Render (mkLocals (js "/") false [mkEntry [55357%N] (Some None)]
                     (js "/mnt/usb/") (js "body{}") (js "tiles"));
    ReadFile (js "/app/public/directory.html")],
   Thrown URIError).
Proof. reflexivity. Qed.

(** What a client reads back from a JSON body, escapes included. *)
Example parse_names :
  JSON_parse (dq (js "['Z','a','b.txt']")) = Some [js "Z"; js "a"; js "b.txt"]
  /\
  JSON_parse (JSON_stringify [[34; 10; 55357; 92]%N; []]) =
  Some [[34; 10; 55357; 92]%N; []] /\
  JSON_parse (dq (js "['a', 'b']")) = None.
Proof. repeat split. Qed.
